(** * Google Maps business scraper: record cleaning, pagination and batching

    A shallow embedding of the crawl core of the scraper
    ([business_profile_DC.py], [storage_solution.py], [primary_crawler.py],
    [secondary_crawler.py]) together with the properties its specification
    states about it.

    Conventions.
    - A Python [str] is a list of code points; every code point is below 256
      and is carried by an [ascii] (Latin-1).  In that range the only decimal
      digits are 0-9.
    - A Python call that may raise returns a [result]: [Ok v] or [Raise e].
    - A Python [float] is an IEEE 754 binary64 value; [float] of a text
      rounds the decimal it reads to the nearest double, ties to even, with
      the rounding of the Standard Library's [SpecFloat].
    - Python integers are unbounded ([Z]); [int] of a text refuses more than
      4300 digits, the default limit of the interpreter. *)

From Stdlib Require Import List Ascii String ZArith NArith Lia Bool Arith.
From Stdlib Require Import DecimalString SpecFloat.
Import ListNotations.


(** ** Python values and built-ins *)

Module Py.

(** The exception classes the modelled code can meet. *)
Inductive exn : Type :=
| ValueError
| TypeError
| AttributeError
| KeyError
| IndexError
| ConnectionError
| Exception (msg : string).

Inductive result (A : Type) : Type :=
| Ok (v : A)
| Raise (e : exn).

Arguments Ok {A} v.
Arguments Raise {A} e.

Definition bind {A B} (r : result A) (k : A -> result B) : result B :=
  match r with
  | Ok v => k v
  | Raise e => Raise e
  end.

Definition is_ok {A} (r : result A) : bool :=
  match r with Ok _ => true | Raise _ => false end.

Definition str := list ascii.

(** A string literal of the source. *)
Definition lit (s : string) : str := list_ascii_of_string s.

Definition chr_eqb (a b : ascii) : bool := Ascii.eqb a b.

Fixpoint str_eqb (a b : str) : bool :=
  match a, b with
  | [], [] => true
  | x :: a', y :: b' => chr_eqb x y && str_eqb a' b'
  | _, _ => false
  end.

Definition code (c : ascii) : N := N_of_ascii c.

(** [c in chars] for a character. *)
Definition chr_in (c : ascii) (chars : str) : bool :=
  existsb (chr_eqb c) chars.

Fixpoint dropwhile {A} (p : A -> bool) (l : list A) : list A :=
  match l with
  | [] => []
  | x :: l' => if p x then dropwhile p l' else l
  end.

Fixpoint takewhile {A} (p : A -> bool) (l : list A) : list A :=
  match l with
  | [] => []
  | x :: l' => if p x then x :: takewhile p l' else []
  end.

(** [s.lstrip(chars)], [s.rstrip(chars)] and [s.strip(chars)]: every leading
    (trailing) character that belongs to the SET [chars] is removed. *)
Definition lstrip (chars s : str) : str :=
  dropwhile (fun c => chr_in c chars) s.

Definition rstrip (chars s : str) : str :=
  rev (lstrip chars (rev s)).

Definition strip (chars s : str) : str :=
  rstrip chars (lstrip chars s).

(** [s.startswith(p)]. *)
Fixpoint startswith (p s : str) : bool :=
  match p, s with
  | [], _ => true
  | x :: p', y :: s' => chr_eqb x y && startswith p' s'
  | _ :: _, [] => false
  end.

(** [sub in s] for strings. *)
Fixpoint contains (sub s : str) : bool :=
  startswith sub s ||
  match s with
  | [] => false
  | _ :: s' => contains sub s'
  end.

(** [s.split(sep)]: a left-to-right scan for non-overlapping occurrences of
    [sep].  [skip] counts the characters of a matched separator still to be
    passed over, [cur] is the current piece, reversed. *)
Fixpoint split_scan (sep : str) (skip : nat) (cur : str) (s : str) : list str :=
  match s with
  | [] => [rev cur]
  | c :: s' =>
      match skip with
      | S k => split_scan sep k cur s'
      | O =>
          if startswith sep s
          then rev cur :: split_scan sep (List.length sep - 1) [] s'
          else split_scan sep 0 (c :: cur) s'
      end
  end.

Definition split (sep s : str) : result (list str) :=
  match sep with
  | [] => Raise ValueError
  | _ :: _ => Ok (split_scan sep 0 [] s)
  end.

(** Decimal digits ([\d] of [re], the digits of [int] and [float]). *)
Definition is_digit (c : ascii) : bool :=
  (48 <=? code c)%N && (code c <=? 57)%N.

Definition digit_val (c : ascii) : Z := Z.of_N (code c) - 48.

(** Value of a string of digits, most significant first. *)
Definition digits_val (ds : str) : Z :=
  fold_left (fun acc c => 10 * acc + digit_val c)%Z ds 0%Z.

(** [re.search(r"\d+", s)]: the first maximal run of digits, [None] when the
    string has no digit. *)
Definition re_search_digits (s : str) : option str :=
  match dropwhile (fun c => negb (is_digit c)) s with
  | [] => None
  | rest => Some (takewhile is_digit rest)
  end.

(** White space as [int] and [float] strip it from a [str]: the ASCII
    characters TAB, LF, VT, FF, CR and SPACE, and the Latin-1 white space
    NEL (0x85) and NBSP (0xA0). *)
Definition is_space (c : ascii) : bool :=
  let n := code c in
  ((9 <=? n)%N && (n <=? 13)%N) || (n =? 32)%N || (n =? 133)%N || (n =? 160)%N.

Definition strip_space (s : str) : str :=
  rev (dropwhile is_space (rev (dropwhile is_space s))).

Definition is_underscore (c : ascii) : bool := (code c =? 95)%N.

(** Digit-group underscores: an underscore is accepted only between two
    digits.  Returns the text without its underscores, [None] when one is
    misplaced.  [prev] is the previous character. *)
Fixpoint drop_underscores (prev : option ascii) (s : str) : option str :=
  match s with
  | [] =>
      match prev with
      | Some p => if is_underscore p then None else Some []
      | None => Some []
      end
  | c :: s' =>
      if is_underscore c then
        match prev with
        | Some p => if is_digit p then drop_underscores (Some c) s' else None
        | None => None
        end
      else
        match prev with
        | Some p =>
            if is_underscore p && negb (is_digit c) then None
            else option_map (cons c) (drop_underscores (Some c) s')
        | None => option_map (cons c) (drop_underscores (Some c) s')
        end
  end.

(** An optional sign; returns [true] for a minus sign, and the rest. *)
Definition take_sign (s : str) : bool * str :=
  match s with
  | c :: s' =>
      if (code c =? 45)%N then (true, s')
      else if (code c =? 43)%N then (false, s')
      else (false, s)
  | [] => (false, s)
  end.

(** The most digits [int] takes from a decimal text
    ([sys.int_info.default_max_str_digits]). *)
Definition int_max_str_digits : nat := 4300.

(** [int(s)] for a string, base 10.  The digits are counted without the
    sign, the surrounding white space and the underscores; a text with more
    than [int_max_str_digits] of them raises [ValueError]. *)
Definition int (s : str) : result Z :=
  match drop_underscores None (strip_space s) with
  | None => Raise ValueError
  | Some t =>
      let '(neg, body) := take_sign t in
      match body with
      | [] => Raise ValueError
      | _ :: _ =>
          if forallb is_digit body then
            if (List.length body <=? int_max_str_digits)%nat
            then Ok (if neg then - digits_val body else digits_val body)%Z
            else Raise ValueError
          else Raise ValueError
      end
  end.

(** Floats: the values of IEEE 754 binary64.  [FFinite neg m e] is
    (-1)^neg * m * 2^e, with [m] and [e] in the canonical form of
    [SpecFloat] (53 bits of mantissa for a normal number, exponent -1074 for
    a subnormal one). *)
Inductive pyfloat : Type :=
| FNan (neg : bool)
| FInf (neg : bool)
| FZero (neg : bool)
| FFinite (neg : bool) (m : positive) (e : Z).

Definition prec : Z := 53.
Definition emax : Z := 1024.

(** The result of a rounding of [SpecFloat], which is never a NaN. *)
Definition of_spec_float (neg : bool) (x : spec_float) : pyfloat :=
  match x with
  | S754_zero s => FZero s
  | S754_infinity s => FInf s
  | S754_nan => FNan neg
  | S754_finite s m e => FFinite s m e
  end.

(** The double nearest to (-1)^neg * m * 10^e for [m >= 0], ties to even:
    the conversion of a decimal text by [float].  A value beyond the largest
    double becomes an infinity, a value of at most half the smallest
    subnormal a zero.  With [e >= 0] the integer m * 10^e is rounded; with
    [e < 0] the quotient of [m] by 10^(-e) is, from a division that keeps
    the position of the remainder. *)
Definition nearest_double (neg : bool) (m e : Z) : pyfloat :=
  match m with
  | Zpos p =>
      of_spec_float neg
        match e with
        | Zneg k =>
            let '(q, ez, lz) :=
              SFdiv_core_binary prec emax (Zpos p) 0 (Z.pow_pos 10 k) 0 in
            binary_round_aux prec emax neg q ez lz
        | _ => binary_round prec emax neg (Pos.mul p (Z.to_pos (10 ^ e))) 0
        end
  | _ => FZero neg
  end.

Definition lower (c : ascii) : ascii :=
  let n := code c in
  if (65 <=? n)%N && (n <=? 90)%N then ascii_of_N (n + 32) else c.

Definition is_dot (c : ascii) : bool := (code c =? 46)%N.
Definition is_e (c : ascii) : bool := (code c =? 101)%N || (code c =? 69)%N.

(** The exponent part that may follow the digits: nothing, or [e], an
    optional sign and at least one digit. *)
Definition parse_exponent (s : str) : option Z :=
  match s with
  | [] => Some 0%Z
  | c :: s' =>
      if is_e c then
        let '(neg, ds) := take_sign s' in
        match ds with
        | [] => None
        | _ :: _ =>
            if forallb is_digit ds
            then Some (if neg then - digits_val ds else digits_val ds)%Z
            else None
        end
      else None
  end.

(** A number without its sign: digits, an optional point and digits (at
    least one digit in all), and an optional exponent. *)
Definition parse_number (neg : bool) (s : str) : option pyfloat :=
  let ip := takewhile is_digit s in
  let r1 := dropwhile is_digit s in
  let '(fp, r2) :=
    match r1 with
    | c :: r1' =>
        if is_dot c then (takewhile is_digit r1', dropwhile is_digit r1')
        else ([], r1)
    | [] => ([], r1)
    end in
  match ip ++ fp with
  | [] => None
  | _ :: _ =>
      match parse_exponent r2 with
      | Some ex =>
          Some (nearest_double neg (digits_val (ip ++ fp))
                  (ex - Z.of_nat (List.length fp)))
      | None => None
      end
  end.

(** [float(s)] for a string. *)
Definition float (s : str) : result pyfloat :=
  match drop_underscores None (strip_space s) with
  | None => Raise ValueError
  | Some t =>
      let '(neg, body) := take_sign t in
      let low := map lower body in
      if str_eqb low (lit "inf") || str_eqb low (lit "infinity") then Ok (FInf neg)
      else if str_eqb low (lit "nan") then Ok (FNan neg)
      else
        match parse_number neg body with
        | Some f => Ok f
        | None => Raise ValueError
        end
  end.

(** [list(range(0, stop, step))] for a positive [step]. *)
Fixpoint range_from (n : nat) (start step : Z) : list Z :=
  match n with
  | O => []
  | S n' => start :: range_from n' (start + step) step
  end.

Definition range0 (stop step : Z) : list Z :=
  range_from (Z.to_nat ((stop + step - 1) / step)) 0 step.

(** [l.index(x)]: the position of the first element equal to [x],
    [ValueError] when there is none. *)
Fixpoint index_from {A} (eqb : A -> A -> bool) (i : nat) (x : A) (l : list A)
  : result nat :=
  match l with
  | [] => Raise ValueError
  | y :: l' => if eqb y x then Ok i else index_from eqb (S i) x l'
  end.

Definition index {A} (eqb : A -> A -> bool) (x : A) (l : list A) : result nat :=
  index_from eqb 0 x l.

(** [l[i:]] for a position inside the list. *)
Definition slice_from {A} (i : nat) (l : list A) : list A := skipn i l.

(** [l[i]] for a non-negative position. *)
Definition getitem {A} (l : list A) (i : nat) : result A :=
  match nth_error l i with
  | Some v => Ok v
  | None => Raise IndexError
  end.

(** [str(n)] for an integer. *)
Definition str_of_int (n : Z) : str :=
  lit (DecimalString.NilZero.string_of_int (Z.to_int n)).

End Py.

Import Py.

Notation "x <- r ;; k" := (Py.bind r (fun x => k))
  (at level 61, r at next level, right associativity).

(** ** business_profile_DC.py *)

Module business_profile_DC.

(** [reviews] is declared [Optional[str]] and holds an [int] once cleaned. *)
Inductive reviews_value : Type :=
| ReviewsNone
| ReviewsStr (s : str)
| ReviewsInt (n : Z).

(** [rating] is declared [Optional[str]] and holds a [float] once cleaned. *)
Inductive rating_value : Type :=
| RatingNone
| RatingStr (s : str)
| RatingFloat (f : pyfloat).

Record BusinessProfile : Type := mkBusinessProfile {
  profile : str;
  business : str;
  website : option str;
  phone_number : option str;
  services : option str;
  address : option str;
  rating : rating_value;
  reviews : reviews_value
}.

(** Truth value of a string: non-empty. *)
Definition truthy (s : str) : bool :=
  match s with [] => false | _ :: _ => true end.

Definition set_services (self : BusinessProfile) (v : option str) : BusinessProfile :=
  mkBusinessProfile (profile self) (business self) (website self)
    (phone_number self) v (address self) (rating self) (reviews self).

Definition set_reviews (self : BusinessProfile) (v : reviews_value) : BusinessProfile :=
  mkBusinessProfile (profile self) (business self) (website self)
    (phone_number self) (services self) (address self) (rating self) v.

Definition set_rating (self : BusinessProfile) (v : rating_value) : BusinessProfile :=
  mkBusinessProfile (profile self) (business self) (website self)
    (phone_number self) (services self) (address self) v (reviews self).

(** [if self.services: self.services = self.services.strip("Services: ")] *)
Definition clean_service (self : BusinessProfile) : result BusinessProfile :=
  match services self with
  | Some s =>
      if truthy s
      then Ok (set_services self (Some (strip (lit "Services: ") s)))
      else Ok self
  | None => Ok self
  end.

(** [match = re.search(r"\d+", self.reviews)];
    [self.reviews = int(match[0]) if match else None].
    An [int] is truthy when it is not zero, and [re.search] refuses it. *)
Definition clean_reviews (self : BusinessProfile) : result BusinessProfile :=
  match reviews self with
  | ReviewsNone => Ok self
  | ReviewsStr s =>
      if truthy s then
        match re_search_digits s with
        | Some m => n <- int m ;; Ok (set_reviews self (ReviewsInt n))
        | None => Ok (set_reviews self ReviewsNone)
        end
      else Ok self
  | ReviewsInt n =>
      if (n =? 0)%Z then Ok self else Raise TypeError
  end.

(** [try: self.rating = float(self.rating)] / [except ValueError:
    self.rating = None].  [float] of a float is that float, so a float is
    left as it is whatever its truth value. *)
Definition clean_rating (self : BusinessProfile) : result BusinessProfile :=
  match rating self with
  | RatingNone => Ok self
  | RatingStr s =>
      if truthy s then
        match float s with
        | Ok f => Ok (set_rating self (RatingFloat f))
        | Raise ValueError => Ok (set_rating self RatingNone)
        | Raise e => Raise e
        end
      else Ok self
  | RatingFloat f => Ok self
  end.

Definition post_init (self : BusinessProfile) : result BusinessProfile :=
  s1 <- clean_service self ;;
  s2 <- clean_reviews s1 ;;
  clean_rating s2.

Definition of_optional_reviews (v : option str) : reviews_value :=
  match v with Some s => ReviewsStr s | None => ReviewsNone end.

Definition of_optional_rating (v : option str) : rating_value :=
  match v with Some s => RatingStr s | None => RatingNone end.

(** The generated [__init__] stores its arguments and calls
    [__post_init__]. *)
Definition init (profile business : str)
    (website phone_number services address rating reviews : option str)
  : result BusinessProfile :=
  post_init
    (mkBusinessProfile profile business website phone_number services address
       (of_optional_rating rating) (of_optional_reviews reviews)).

End business_profile_DC.

Import business_profile_DC.

(** ** storage_solution.py *)

Module storage_solution.

(** A row of the [businesses] table, for the columns whose cells the frame
    keeps as the objects they were built from: texts, lists, and [None] for
    a missing value.  The [rating] and [reviews] columns are left out: their
    cells are converted to the numeric type pandas infers for the whole
    column (a column of integers and [None] is written as floats and NaN),
    which depends on the other records of the list. *)
Record row : Type := mkRow {
  row_profile : str;
  row_business : str;
  row_website : option str;
  row_phone_number : option str;
  row_services : list str;
  row_address : option str;
  row_business_type : str;
  row_location : str
}.

(** [str(x)] for a services cell: the text itself, or ["None"]. *)
Definition str_of_cell (x : option str) : str :=
  match x with
  | Some s => s
  | None => lit "None"
  end.

(** [lambda x: str(x).split(", ") if ", " in str(x) else []] *)
Definition services_to_list (x : option str) : result (list str) :=
  if contains (lit ", ") (str_of_cell x)
  then split (lit ", ") (str_of_cell x)
  else Ok [].

(** [df.drop_duplicates(subset="profile")]: the first record of every
    profile is kept. *)
Fixpoint drop_duplicates (seen : list str) (l : list BusinessProfile)
  : list BusinessProfile :=
  match l with
  | [] => []
  | b :: l' =>
      if existsb (str_eqb (profile b)) seen
      then drop_duplicates seen l'
      else b :: drop_duplicates (profile b :: seen) l'
  end.

(** The object cells of the row of one record, with the two tags. *)
Definition to_row (subject location : str) (b : BusinessProfile) : result row :=
  sv <- services_to_list (services b) ;;
  Ok (mkRow (profile b) (business b) (website b) (phone_number b) sv
        (address b) subject location).

Fixpoint to_rows (subject location : str) (l : list BusinessProfile)
  : result (list row) :=
  match l with
  | [] => Ok []
  | b :: l' =>
      r <- to_row subject location b ;;
      rs <- to_rows subject location l' ;;
      Ok (r :: rs)
  end.

(** [save_to_sql_]: the rows appended to the table, in their object
    columns.  A frame built from an empty list has no [profile] column, and
    [drop_duplicates] raises. *)
Definition save_to_sql_ (table : list row) (results_list : list BusinessProfile)
    (location subject : str) : result (list row) :=
  match results_list with
  | [] => Raise KeyError
  | _ :: _ =>
      rs <- to_rows subject location (drop_duplicates [] results_list) ;;
      Ok (table ++ rs)
  end.

End storage_solution.

(** ** The markup parser, as the crawlers use it *)

Module html.

(** An element of a parsed document: its tag, classes, attributes (an
    attribute may have no value) and text content. *)
Record node : Type := mkNode {
  tag : str;
  classes : list str;
  attributes : list (str * option str);
  text : str
}.

(** The selectors of the source: a tag, classes that must all be present,
    and at most one [name="value"] attribute test. *)
Record selector : Type := mkSelector {
  sel_tag : str;
  sel_classes : list str;
  sel_attr : option (str * str)
}.

Fixpoint lookup (k : str) (kv : list (str * option str)) : option (option str) :=
  match kv with
  | [] => None
  | (k', v) :: kv' => if str_eqb k' k then Some v else lookup k kv'
  end.

Definition matches (sel : selector) (n : node) : bool :=
  str_eqb (sel_tag sel) (tag n)
  && forallb (fun c => existsb (str_eqb c) (classes n)) (sel_classes sel)
  && match sel_attr sel with
     | None => true
     | Some (k, v) =>
         match lookup k (attributes n) with
         | Some (Some v') => str_eqb v' v
         | _ => false
         end
     end.

(** [source.css(sel)]: the matching elements in document order. *)
Definition css (sel : selector) (doc : list node) : list node :=
  filter (matches sel) doc.

(** [source.css_first(sel)]: the first match, [None] when there is none. *)
Definition css_first (sel : selector) (doc : list node) : option node :=
  match css sel doc with
  | [] => None
  | n :: _ => Some n
  end.

(** [x.text()] where [x] is what [css_first] returned: [None] has no
    [text] attribute. *)
Definition text_of (x : option node) : result str :=
  match x with
  | Some n => Ok (text n)
  | None => Raise AttributeError
  end.

(** [node.attributes[k]]. *)
Definition attribute (n : node) (k : str) : result (option str) :=
  match lookup k (attributes n) with
  | Some v => Ok v
  | None => Raise KeyError
  end.

End html.

Import html.

(** What a request gives back. *)
Record response : Type := mkResponse {
  status_code : Z;
  response_text : str
}.

Definition headers := list (str * str).

(** ** primary_crawler.py *)

Module primary_crawler.

Definition RESULTS_PER_PAGE : Z := 20.

Definition profile_selector : selector :=
  mkSelector (lit "div") [] (Some (lit "jscontroller", lit "XHXkqb")).

(** [profile.attributes["jsdata"].split(";")[1]] *)
Definition profile_id (n : node) : result str :=
  v <- attribute n (lit "jsdata") ;;
  match v with
  | None => Raise AttributeError
  | Some jsdata =>
      parts <- split (lit ";") jsdata ;;
      getitem parts 1
  end.

Fixpoint profile_ids (ns : list node) : result (list str) :=
  match ns with
  | [] => Ok []
  | n :: ns' =>
      p <- profile_id n ;;
      ps <- profile_ids ns' ;;
      Ok (p :: ps)
  end.

(** The offsets [p_handler] walks through:
    [list(range(0, results_count, RESULTS_PER_PAGE))], cut at the position of
    [2 * RESULTS_PER_PAGE] when a second page was already loaded. *)
Definition pages_available (next_page : bool) (results_count : Z)
  : result (list Z) :=
  let pages := range0 results_count RESULTS_PER_PAGE in
  if next_page then
    i <- index Z.eqb (2 * RESULTS_PER_PAGE)%Z pages ;;
    Ok (slice_from i pages)
  else Ok pages.

Section Crawl.

(** The markup parser, the network and the browser bootstrap are outside
    the program.  [session_get n h url] is the outcome of the [n]-th
    request of the run, sent with headers [h]; [run n subject] is the
    outcome of the [n]-th bootstrap: the search URL, the headers, the result
    count, the second-page flag and the page contents. *)
Variable HTMLParser : str -> list node.
Variable session_get : nat -> headers -> str -> result response.
Variable run : nat -> str -> result (str * headers * Z * bool * list str).

(** The state a crawl threads: how many requests and bootstraps were made,
    and the list [profiles_list] of the class. *)
Record state : Type := mkState {
  requests : nat;
  bootstraps : nat;
  profiles_list : list str
}.

(** [self.profiles_list += [... for profile in source.css(...)]] *)
Definition get_business_profiles (st : state) (response_text : str)
  : result state :=
  ps <- profile_ids (css profile_selector (HTMLParser response_text)) ;;
  Ok (mkState (requests st) (bootstraps st) (profiles_list st ++ ps)).

(** [response = session.get(url); return response.text] *)
Definition fetch_search_pages (n : nat) (session : headers) (url : str)
  : result str :=
  response <- session_get n session url ;;
  Ok (response_text response).

(** The [while True] loop around one page: any failure of the fetch closes
    the session, runs the bootstrap again and retries the same URL with the
    new headers.  A failure of the bootstrap is not caught.  [None]: the
    loop is still running when the fuel is spent. *)
Fixpoint fetch_page (fuel : nat) (st : state) (session : headers) (url : str)
    (search_subject : str) : option (result (str * headers * state)) :=
  match fuel with
  | O => None
  | S fuel' =>
      let st1 := mkState (S (requests st)) (bootstraps st) (profiles_list st) in
      match fetch_search_pages (requests st) session url with
      | Ok text_response => Some (Ok (text_response, session, st1))
      | Raise _ =>
          let st2 := mkState (requests st1) (S (bootstraps st1)) (profiles_list st1) in
          match run (bootstraps st) search_subject with
          | Ok (_, search_headers, _, _, _) =>
              fetch_page fuel' st2 search_headers url search_subject
          | Raise e => Some (Raise e)
          end
      end
  end.

(** The [for page in pages_available] loop. *)
Fixpoint crawl_pages (fuel : nat) (search_url : str) (st : state)
    (session : headers) (pages : list Z) (search_subject : str)
  : option (result state) :=
  match pages with
  | [] => Some (Ok st)
  | page :: pages' =>
      let url := search_url ++ lit "&lci=" ++ str_of_int page in
      match fetch_page fuel st session url search_subject with
      | None => None
      | Some (Raise e) => Some (Raise e)
      | Some (Ok (text_response, session', st')) =>
          match get_business_profiles st' text_response with
          | Raise e => Some (Raise e)
          | Ok st'' => crawl_pages fuel search_url st'' session' pages' search_subject
          end
      end
  end.

(** [p_handler]: returns [self.profiles_list]. *)
Definition p_handler (fuel : nat) (search_url : str) (search_headers : headers)
    (st : state) (next_page : bool) (results_count : Z) (search_subject : str)
  : option (result (list str * state)) :=
  match pages_available next_page results_count with
  | Raise e => Some (Raise e)
  | Ok pages =>
      match crawl_pages fuel search_url st search_headers pages search_subject with
      | None => None
      | Some (Raise e) => Some (Raise e)
      | Some (Ok st') => Some (Ok (profiles_list st', st'))
      end
  end.

End Crawl.

End primary_crawler.

(** ** secondary_crawler.py *)

Module secondary_crawler.

Definition CALL_RATE : nat := 120.

Definition SECONDARY_STAGE_HEADERS : headers :=
  [ (lit "User-Agent", lit "");
    (lit "Accept", lit "text/html,application/xhtml+xml,application/xml;q=0.9,*/*;q=0.8");
    (lit "Accept-Language", lit "en-US,en;q=0.5");
    (lit "Alt-Used", lit "www.google.com");
    (lit "Upgrade-Insecure-Requests", lit "1");
    (lit "Sec-Fetch-Dest", lit "document");
    (lit "Sec-Fetch-Mode", lit "navigate");
    (lit "Sec-Fetch-Site", lit "cross-site") ].

(** [headers_[k] = v] *)
Fixpoint setitem (k v : str) (h : headers) : headers :=
  match h with
  | [] => [(k, v)]
  | (k', v') :: h' =>
      if str_eqb k' k then (k, v) :: h' else (k', v') :: setitem k v h'
  end.

(** The selectors of [get_business_data], one per field. *)
Definition div_ (cs : list string) : selector := mkSelector (lit "div") (map lit cs) None.
Definition span_ (cs : list string) : selector := mkSelector (lit "span") (map lit cs) None.

Definition business_sel : selector := div_ ["rgnuSb"; "tZPcob"]%string.
Definition website_sel : selector := div_ ["Gx8NHe"]%string.
Definition phone_number_sel : selector := div_ ["eigqqc"]%string.
Definition services_sel : selector := div_ ["AQrsxc"]%string.
Definition address_sel : selector := div_ ["hgRN0"]%string.
Definition rating_sel : selector := span_ ["ZjTWef"; "QoUabe"]%string.
Definition reviews_sel : selector := span_ ["PN9vWe"]%string.

(** The seven markers, in the order [get_business_data] looks them up. *)
Definition markers : list selector :=
  [business_sel; website_sel; phone_number_sel; services_sel; address_sel;
   rating_sel; reviews_sel].

(** Objects live in a store.  A profile link is a reference to a string
    object: [==] compares the strings, [is] compares the references.  A list
    of records is a reference to a list object that [append] changes in
    place. *)
Definition ref := nat.
Definition loc := nat.

(** What [asdict] makes of a [BusinessProfile]: the same fields. *)
Definition dict := BusinessProfile.
Definition asdict (b : BusinessProfile) : dict := b.

(** The class object: [business_info_list = []] is evaluated once, when
    the class is created, and bound to the class. *)
Record class_object : Type := mkClass {
  class_business_info_list : loc
}.

(** An instance: [Secondary_Stage] has no [__init__], and nothing assigns
    [self.business_info_list], so the instance dictionary never holds it. *)
Record instance : Type := mkInstance {
  own_business_info_list : option loc
}.

(** [Secondary_Stage()] *)
Definition new_instance : instance := mkInstance None.

(** [self.business_info_list]: the instance dictionary first, then the
    class. *)
Definition get_business_info_list (cls : class_object) (self : instance) : loc :=
  match own_business_info_list self with
  | Some l => l
  | None => class_business_info_list cls
  end.

(** The state a run threads: the list objects, the number of fetch waves
    tried and of user agents drawn so far. *)
Record state : Type := mkState {
  lists : loc -> list dict;
  attempts : nat;
  draws : nat
}.

(** [l.append(x)] on the list object at [l]. *)
Definition append (st : state) (l : loc) (x : dict) : state :=
  mkState (fun l' => if Nat.eqb l' l then lists st l ++ [x] else lists st l')
    (attempts st) (draws st).

Section Stage.

(** The string objects behind the profile references, the markup parser,
    the network ([session_get n h url] answers the request for [url] in the
    [n]-th wave tried, sent with headers [h]) and the user-agent generator
    ([ua_random n] is the [n]-th draw). *)
Variable deref : ref -> str.
Variable HTMLParser : str -> list node.
Variable session_get : nat -> headers -> str -> result response.
Variable ua_random : nat -> str.
Variable cls : class_object.

(** [a == b] and [a is b] on string objects. *)
Definition eq_ (a b : ref) : bool := Nat.eqb a b || str_eqb (deref a) (deref b).
Definition is_ (a b : ref) : bool := Nat.eqb a b.

(** [response = await session.get(url)];
    [if response.status_code != 200: raise Exception("Connection error!")];
    [return response.text, url] *)
Definition fetch_businesses (n : nat) (session : headers) (url : ref)
  : result (str * ref) :=
  response <- session_get n session (deref url) ;;
  if negb (status_code response =? 200)%Z
  then Raise (Exception "Connection error!")
  else Ok (response_text response, url).

(** [profiles_list[-1]] *)
Definition last_item (l : list ref) : result ref :=
  match rev l with
  | [] => Raise IndexError
  | x :: _ => Ok x
  end.

(** The [for profile in profiles_list] loop of [create_profiles_array];
    [rest] is what the loop still has to visit. *)
Fixpoint split_loop (profiles_list rest : list ref)
    (profiles_arrays : list (list ref)) (sub_list : list ref)
  : result (list (list ref)) :=
  match rest with
  | [] => Ok profiles_arrays
  | profile :: rest' =>
      let sub_list' := sub_list ++ [profile] in
      i <- index eq_ profile profiles_list ;;
      if Nat.eqb ((i + 1) mod CALL_RATE) 0
      then split_loop profiles_list rest' (profiles_arrays ++ [sub_list']) []
      else
        z <- last_item profiles_list ;;
        if is_ profile z
        then split_loop profiles_list rest' (profiles_arrays ++ [sub_list']) []
        else split_loop profiles_list rest' profiles_arrays sub_list'
  end.

Definition create_profiles_array (profiles_list : list ref)
  : result (list (list ref)) :=
  if Nat.leb (List.length profiles_list) CALL_RATE
  then Ok [profiles_list]
  else split_loop profiles_list profiles_list [] [].

(** One [BusinessProfile(...)] call of [get_business_data]: the seven
    [css_first(...).text()] arguments are evaluated in order. *)
Definition extract (source_code : str) (profile : ref) : result dict :=
  let source := HTMLParser source_code in
  business <- text_of (css_first business_sel source) ;;
  website <- text_of (css_first website_sel source) ;;
  phone_number <- text_of (css_first phone_number_sel source) ;;
  services <- text_of (css_first services_sel source) ;;
  address <- text_of (css_first address_sel source) ;;
  rating <- text_of (css_first rating_sel source) ;;
  reviews <- text_of (css_first reviews_sel source) ;;
  b <- init (deref profile) business (Some website) (Some phone_number)
         (Some services) (Some address) (Some rating) (Some reviews) ;;
  Ok (asdict b).

(** [get_business_data]: every record is appended to
    [self.business_info_list] as soon as it is built; what was appended
    before an exception stays. *)
Fixpoint get_business_data (self : instance) (st : state)
    (responses_list : list (str * ref)) : result unit * state :=
  match responses_list with
  | [] => (Ok tt, st)
  | (source_code, profile) :: rest =>
      match extract source_code profile with
      | Raise e => (Raise e, st)
      | Ok d =>
          get_business_data self
            (append st (get_business_info_list cls self) d) rest
      end
  end.

(** [asyncio.gather] over the tasks of a batch: the responses in the order of the
    batch, or the failure of a fetch. *)
Fixpoint gather (n : nat) (session : headers) (batch : list ref)
  : result (list (str * ref)) :=
  match batch with
  | [] => Ok []
  | profile :: batch' =>
      r <- fetch_businesses n session profile ;;
      rs <- gather n session batch' ;;
      Ok (r :: rs)
  end.

(** A session with a freshly drawn user agent. *)
Definition new_session (st : state) : headers * state :=
  (setitem (lit "User-Agent") (ua_random (draws st)) SECONDARY_STAGE_HEADERS,
   mkState (lists st) (attempts st) (S (draws st))).

(** The [while True] loop around one batch: a failed wave is tried again
    from scratch with a new session.  [None]: still running when the fuel is
    spent. *)
Fixpoint wave (fuel : nat) (st : state) (session : headers) (batch : list ref)
  : option (list (str * ref) * headers * state) :=
  match fuel with
  | O => None
  | S fuel' =>
      let st1 := mkState (lists st) (S (attempts st)) (draws st) in
      match gather (attempts st) session batch with
      | Ok responses_list => Some (responses_list, session, st1)
      | Raise _ =>
          let '(session', st2) := new_session st1 in
          wave fuel' st2 session' batch
      end
  end.

(** The [for profiles_sub_list in profiles_arrays] loop. *)
Fixpoint waves (fuel : nat) (self : instance) (st : state) (session : headers)
    (profiles_arrays : list (list ref)) : option (result unit * state) :=
  match profiles_arrays with
  | [] => Some (Ok tt, st)
  | profiles_sub_list :: rest =>
      match wave fuel st session profiles_sub_list with
      | None => None
      | Some (responses_list, session', st') =>
          match get_business_data self st' responses_list with
          | (Raise e, st'') => Some (Raise e, st'')
          | (Ok _, st'') => waves fuel self st'' session' rest
          end
      end
  end.

(** [s_handler]: returns [self.business_info_list], the list object
    itself. *)
Definition s_handler (fuel : nat) (self : instance) (st : state)
    (profiles_list : list ref) : option (result loc * state) :=
  let '(async_session, st0) := new_session st in
  match create_profiles_array profiles_list with
  | Raise e => Some (Raise e, st0)
  | Ok profiles_arrays =>
      match waves fuel self st0 async_session profiles_arrays with
      | None => None
      | Some (Raise e, st') => Some (Raise e, st')
      | Some (Ok _, st') => Some (Ok (get_business_info_list cls self), st')
      end
  end.

End Stage.

End secondary_crawler.

(** ** The services text from the record to the table *)

(** The services text of a record as it reaches the table: cleaned by
    [clean_service] when the record is built, turned into a list by
    [save_to_sql_]. *)
Definition services_cleaning (self : BusinessProfile) : result (list str) :=
  b <- clean_service self ;;
  storage_solution.services_to_list (services b).

(** ** Vocabulary of the statements *)

Module Spec.

(** Services cleaning as the specification words it: the literal label
    ["Services: "] is removed when the text starts with it, and the rest is
    split on [", "], a text without the delimiter giving the empty list. *)
Definition remove_prefix (p s : str) : str :=
  if startswith p s then skipn (List.length p) s else s.

Definition spec_services_cleaning (raw : str) : result (list str) :=
  let t := remove_prefix (lit "Services: ") raw in
  if contains (lit ", ") t then split (lit ", ") t else Ok [].

(** [run] is the first maximal run of decimal digits of [s]: no digit
    comes before it, it is a non-empty string of digits, and what follows
    does not continue it. *)
Definition first_digit_run (s pre run post : str) : Prop :=
  s = pre ++ run ++ post
  /\ existsb is_digit pre = false
  /\ run <> []
  /\ forallb is_digit run = true
  /\ match post with [] => True | c :: _ => is_digit c = false end.

(** The digit run that [re.search] finds in the text, if there is one, has
    no more digits than [int] takes. *)
Definition digit_run_in_range (s : str) : bool :=
  match re_search_digits s with
  | Some m => (List.length m <=? int_max_str_digits)%nat
  | None => true
  end.

Definition reviews_in_range (rv : option str) : bool :=
  match rv with
  | Some s => digit_run_in_range s
  | None => true
  end.

(** A decimal numeral: an optional sign, digits, and optionally a point
    followed by digits. *)
Inductive sign : Type := NoSign | Plus | Minus.

Definition sign_text (sg : sign) : str :=
  match sg with
  | NoSign => []
  | Plus => lit "+"
  | Minus => lit "-"
  end.

Definition is_minus (sg : sign) : bool :=
  match sg with Minus => true | _ => false end.

Definition numeral (sg : sign) (ip fp : str) : str :=
  sign_text sg ++ ip ++
  match fp with
  | [] => []
  | _ :: _ => lit "." ++ fp
  end.

Definition decimal_numeral (s : str) : Prop :=
  exists sg ip fp,
    s = numeral sg ip fp
    /\ ip <> []
    /\ forallb is_digit ip = true
    /\ forallb is_digit fp = true.

(** Alphabetic text: letters only. *)
Definition is_alpha (c : ascii) : bool :=
  ((65 <=? code c)%N && (code c <=? 90)%N)
  || ((97 <=? code c)%N && (code c <=? 122)%N).

(** Two records with the same link, name and contact fields. *)
Definition same_identity (a b : BusinessProfile) : Prop :=
  profile b = profile a /\ business b = business a
  /\ website b = website a /\ phone_number b = phone_number a
  /\ address b = address a.

(** The number of result pages: the result count divided by the page
    size, rounded up. *)
Definition page_count (results_count : Z) : nat :=
  Z.to_nat ((results_count + primary_crawler.RESULTS_PER_PAGE - 1)
            / primary_crawler.RESULTS_PER_PAGE).

(** A batch of exactly [CALL_RATE] links. *)
Definition full_batch (b : list secondary_crawler.ref) : Prop :=
  List.length b = secondary_crawler.CALL_RATE.

End Spec.

(** ** Inputs used by the examples *)

Module Examples.

Import secondary_crawler.

(** Records with one raw field set; the other fields are empty. *)
Definition with_services (raw : str) : BusinessProfile :=
  mkBusinessProfile (lit "p") (lit "b") None None (Some raw) None
    RatingNone ReviewsNone.

Definition with_reviews (raw : str) : BusinessProfile :=
  mkBusinessProfile (lit "p") (lit "b") None None None None
    RatingNone (ReviewsStr raw).

Definition with_rating (raw : str) : BusinessProfile :=
  mkBusinessProfile (lit "p") (lit "b") None None None None
    (RatingStr raw) ReviewsNone.

(** A response with a failure status. *)
Definition rate_limited : response := mkResponse 429 (lit "Too Many Requests").

(** A network that answers every request with [r]. *)
Definition answers (r : response) : nat -> headers -> str -> result response :=
  fun _ _ _ => Ok r.

Definition element (t : string) (cs : list string) (txt : string) : node :=
  mkNode (lit t) (map lit cs) [] (lit txt).

(** A detail page with every marker, and the same page without the
    website element. *)
Definition full_page : list node :=
  [ element "div" ["rgnuSb"; "tZPcob"] "Acme Plumbing";
    element "div" ["Gx8NHe"] "acme.example";
    element "div" ["eigqqc"] "+1 512-555-0100";
    element "div" ["AQrsxc"] "Services: Plumbing, Drain Cleaning";
    element "div" ["hgRN0"] "1 Main St, Austin, TX";
    element "span" ["ZjTWef"; "QoUabe"] "4.8";
    element "span" ["PN9vWe"] "(120)" ]%string.

Definition no_website_page : list node :=
  [ element "div" ["rgnuSb"; "tZPcob"] "Acme Plumbing";
    element "div" ["eigqqc"] "+1 512-555-0100";
    element "div" ["AQrsxc"] "Services: Plumbing, Drain Cleaning";
    element "div" ["hgRN0"] "1 Main St, Austin, TX";
    element "span" ["ZjTWef"; "QoUabe"] "4.8";
    element "span" ["PN9vWe"] "(120)" ]%string.

(** A parser that knows these two documents by name. *)
Definition parser (markup : str) : list node :=
  if str_eqb markup (lit "full") then full_page
  else if str_eqb markup (lit "no-website") then no_website_page
  else [].

(** Profile links: the object [a] is the string ["profile-a"]. *)
Definition link (a : ref) : str := lit "profile-" ++ str_of_int (Z.of_nat a).

(** The same store, except that object 119 is a second copy of the string
    of object 5: one listing met on two result pages. *)
Definition link_with_duplicate (a : ref) : str :=
  if Nat.eqb a 119 then link 5 else link a.

Definition user_agent : nat -> str := fun _ => lit "Mozilla/5.0".

Definition the_class : class_object := mkClass 0.

(** A process in which no list holds anything yet. *)
Definition fresh_state : state := mkState (fun _ => []) 0 0.

End Examples.


(** ** More built-ins: [join] and the regular expressions of headers.py *)

Module PyText.

(** [sep.join(pieces)] *)
Fixpoint join (sep : str) (pieces : list str) : str :=
  match pieces with
  | [] => []
  | [p] => p
  | p :: rest => p ++ sep ++ join sep rest
  end.

(** [\s] of [re] on a [str]: the white space of [str.isspace], which adds
    the separators 0x1C-0x1F to the white space [int] and [float] strip. *)
Definition re_space (c : ascii) : bool :=
  let n := code c in
  ((9 <=? n)%N && (n <=? 13)%N) || ((28 <=? n)%N && (n <=? 32)%N)
  || (n =? 133)%N || (n =? 160)%N.

(** [re.findall(r"(?<=\s)\d+", s)]: the runs of digits that start right
    behind a white-space character, each taken to its end, from left to
    right.  [prev_space] tells whether the previous character was white
    space, [cur] is the match being read, reversed. *)
Fixpoint findall_spaced_digits (prev_space : bool) (cur : option str) (s : str)
  : list str :=
  match s with
  | [] =>
      match cur with
      | Some r => [rev r]
      | None => []
      end
  | c :: s' =>
      match cur with
      | Some r =>
          if is_digit c
          then findall_spaced_digits false (Some (c :: r)) s'
          else rev r :: findall_spaced_digits (re_space c) None s'
      | None =>
          if prev_space && is_digit c
          then findall_spaced_digits false (Some [c]) s'
          else findall_spaced_digits (re_space c) None s'
      end
  end.

Definition re_findall_spaced_digits (s : str) : list str :=
  findall_spaced_digits false None s.

(** The pattern [\&lci\=\d+] matches at the head of [s]. *)
Definition lci_at (s : str) : bool :=
  startswith (lit "&lci=") s
  && match skipn 5 s with
     | d :: _ => is_digit d
     | [] => false
     end.

(** [re.sub(r"\&lci\=\d+", "", s)]: every match, found from left to right
    in the text as it is, is left out.  [skip] counts the characters of a
    matched [&lci=] still to pass over, [digits] tells that the digits of a
    match are being passed over. *)
Fixpoint sub_lci (skip : nat) (digits : bool) (s : str) : str :=
  match s with
  | [] => []
  | c :: s' =>
      match skip with
      | S k => sub_lci k digits s'
      | O =>
          if digits && is_digit c then sub_lci 0 true s'
          else if lci_at s then sub_lci 4 true s'
          else c :: sub_lci 0 false s'
      end
  end.

Definition re_sub_lci (s : str) : str := sub_lci 0 false s.

(** [l[-1]] *)
Definition last_of {A} (l : list A) : result A :=
  match rev l with
  | [] => Raise IndexError
  | x :: _ => Ok x
  end.

End PyText.

Import PyText.

(** ** headers.py *)

Module Headers_Master.

Definition API : str := lit "https://www.google.com/localservices/prolist".

(** The attributes the methods below read and write.  [results_count] has
    no default in the class: it exists once [get_results_count] has set
    it. *)
Record state : Type := mkState {
  search_url : str;
  search_headers : headers;
  results_count : option Z;
  next_page : bool
}.

(** A new object reads the defaults of the class. *)
Definition new : state := mkState [] [] None false.

(** [key in d] and [del d[key]] on a dictionary of headers. *)
Definition has_key (k : str) (d : headers) : bool :=
  existsb (fun kv => str_eqb (fst kv) k) d.

Definition delitem (k : str) (d : headers) : result headers :=
  if has_key k d
  then Ok (filter (fun kv => negb (str_eqb (fst kv) k)) d)
  else Raise KeyError.

(** [__route_intercept__], for a request to [url] whose headers are
    [all_headers]: a request to the API has its URL stored without the offset
    parameter and its headers stored without the cookie. *)
Definition route_intercept (self : state) (url : str) (all_headers : headers)
  : state :=
  if contains API url then
    let stored :=
      match delitem (lit "cookie") all_headers with
      | Ok d => d
      | Raise _ => all_headers
      end in
    mkState (re_sub_lci url) stored (results_count self) (next_page self)
  else self.

(** [self.results_count = int(re.findall(r"(?<=\s)\d+", results_available)[-1])] *)
Definition get_results_count (self : state) (results_available : str)
  : result state :=
  m <- last_of (re_findall_spaced_digits results_available) ;;
  n <- int m ;;
  Ok (mkState (search_url self) (search_headers self) (Some n) (next_page self)).

End Headers_Master.

Module Get_Headers_Subject.

(** [search_input = raw_search_input.split(" in ")];
    [self.search_subject = search_input[0]];
    [self.search_location = search_input[1]] *)
Definition extract_subject_and_location (raw_search_input : str)
  : result (str * str) :=
  search_input <- split (lit " in ") raw_search_input ;;
  search_subject <- getitem search_input 0 ;;
  search_location <- getitem search_input 1 ;;
  Ok (search_subject, search_location).

End Get_Headers_Subject.

(** ** main.py: the search text *)

Module main.

(** [search_subject = f"{subject} in {location}, USA"] *)
Definition search_subject (subject location : str) : str :=
  subject ++ lit " in " ++ location ++ lit ", USA".

End main.

(** ** More inputs for the examples *)

Module MoreExamples.

(** A record as the extractor leaves it, for the link [link]. *)
Definition listing (link name : string) : BusinessProfile :=
  mkBusinessProfile (lit link) (lit name) None None
    (Some (lit "Plumbing, Drains")) None RatingNone ReviewsNone.

(** An entry of a result page with the given [jsdata] attribute. *)
Definition entry (jsdata : string) : node :=
  mkNode (lit "div") []
    [(lit "jscontroller", Some (lit "XHXkqb")); (lit "jsdata", Some (lit jsdata))]
    [].

(** A parser that finds two entries in every page. *)
Definition two_entries : str -> list node :=
  fun _ => [entry "x;id-1;y"; entry "x;id-2"].

(** A parser that finds an entry without a second field. *)
Definition bad_entry : str -> list node :=
  fun _ => [entry "x;id-1;y"; entry "no-field"].

(** A network whose first two requests fail. *)
Definition flaky : nat -> headers -> str -> result response :=
  fun n _ _ =>
    if Nat.ltb n 2 then Raise ConnectionError
    else Ok (mkResponse 200 (lit "page")).

(** A network whose first two waves fail, and that then serves the page
    with every marker. *)
Definition flaky_full : nat -> headers -> str -> result response :=
  fun n _ _ =>
    if Nat.ltb n 2 then Raise ConnectionError
    else Ok (mkResponse 200 (lit "full")).


Definition bootstrap_ok : nat -> str -> result (str * headers * Z * bool * list str) :=
  fun _ _ => Ok (lit "https://www.google.com/localservices/prolist?q", [], 47%Z, false, []).

End MoreExamples.

(** ** The sessions of a retry loop *)

Module Retry.

(** The headers in force at the [j]-th try of a page in [p_handler]: the
    ones the loop was entered with, then those of the latest bootstrap, the
    bootstraps of the run being counted from [b0]. *)
Fixpoint primary_headers
    (run : nat -> str -> result (str * headers * Z * bool * list str))
    (subject : str) (b0 : nat) (session : headers) (j : nat) : headers :=
  match j with
  | O => session
  | S j' =>
      match run (b0 + j') subject with
      | Ok (_, search_headers, _, _, _) => search_headers
      | Raise _ => primary_headers run subject b0 session j'
      end
  end.

(** The headers in force at the [j]-th try of a wave in [s_handler]: the
    ones the loop was entered with, then the secondary headers with the
    latest user agent drawn, the draws of the run being counted from [d0]. *)
Definition secondary_headers (ua_random : nat -> str) (d0 : nat)
    (session : headers) (j : nat) : headers :=
  match j with
  | O => session
  | S j' =>
      secondary_crawler.setitem (lit "User-Agent") (ua_random (d0 + j'))
        secondary_crawler.SECONDARY_STAGE_HEADERS
  end.

(** A network that answers every request with status 200, and pages
    that have every marker of the extractor, with a reviews text whose digit
    run [int] takes. *)
Definition healthy (HTMLParser : str -> list node)
    (session_get : nat -> headers -> str -> result response) : Prop :=
  (forall n h u, exists r, session_get n h u = Ok r /\ status_code r = 200%Z)
  /\ (forall n h u r, session_get n h u = Ok r ->
        forall sel, In sel secondary_crawler.markers ->
                    css_first sel (HTMLParser (response_text r)) <> None)
  /\ (forall n h u r x, session_get n h u = Ok r ->
        css_first secondary_crawler.reviews_sel (HTMLParser (response_text r))
        = Some x ->
        Spec.digit_run_in_range (text x) = true).

End Retry.

(** ** A test for pairwise distinct strings *)

Module Distinct.

Fixpoint distinctb (l : list str) : bool :=
  match l with
  | [] => true
  | x :: l' => negb (existsb (str_eqb x) l') && distinctb l'
  end.

End Distinct.

(** ** Vocabulary of the statements about headers.py *)

Module HeadersSpec.

(** The text has a digit right behind a white-space character. *)
Definition spaced_digit (s : str) : Prop :=
  exists a c d b, s = a ++ c :: d :: b /\ re_space c = true /\ is_digit d = true.

(** The text holds no offset parameter: no [&lci=] followed by a digit. *)
Definition lci_free (s : str) : Prop :=
  forall a b, s = a ++ b -> lci_at b = false.

End HeadersSpec.
(** ** Facts about the built-ins *)

Section Builtins.

Lemma digit_not_space (c : ascii) : is_digit c = true -> is_space c = false.
Proof.
  destruct c as [[] [] [] [] [] [] [] []]; vm_compute; congruence.
Qed.

Lemma digit_not_underscore (c : ascii) : is_digit c = true -> is_underscore c = false.
Proof.
  destruct c as [[] [] [] [] [] [] [] []]; vm_compute; congruence.
Qed.

Lemma digit_not_sign (c : ascii) (s : str) :
  is_digit c = true -> take_sign (c :: s) = (false, c :: s).
Proof.
  destruct c as [[] [] [] [] [] [] [] []]; vm_compute; congruence.
Qed.

Lemma digit_not_dot (c : ascii) : is_digit c = true -> is_dot c = false.
Proof.
  destruct c as [[] [] [] [] [] [] [] []]; vm_compute; congruence.
Qed.

Lemma dropwhile_head {A} (p : A -> bool) (x : A) (l : list A) :
  p x = false -> dropwhile p (x :: l) = x :: l.
Proof. intros H; simpl; now rewrite H. Qed.

Lemma dropwhile_all {A} (p : A -> bool) (l : list A) :
  forallb p l = true -> dropwhile p l = [].
Proof.
  induction l as [|x l IH]; simpl; [reflexivity|].
  intros H; apply andb_prop in H as [Hx Hl]; rewrite Hx; auto.
Qed.

Lemma takewhile_all {A} (p : A -> bool) (l : list A) :
  forallb p l = true -> takewhile p l = l.
Proof.
  induction l as [|x l IH]; simpl; [reflexivity|].
  intros H; apply andb_prop in H as [Hx Hl]; rewrite Hx, IH; auto.
Qed.

Lemma takewhile_app {A} (p : A -> bool) (l r : list A) :
  forallb p l = true ->
  takewhile p (l ++ r) = l ++ takewhile p r.
Proof.
  induction l as [|x l IH]; simpl; [reflexivity|].
  intros H; apply andb_prop in H as [Hx Hl]; rewrite Hx, IH; auto.
Qed.

Lemma dropwhile_app {A} (p : A -> bool) (l r : list A) :
  forallb p l = true ->
  dropwhile p (l ++ r) = dropwhile p r.
Proof.
  induction l as [|x l IH]; simpl; [reflexivity|].
  intros H; apply andb_prop in H as [Hx Hl]; rewrite Hx, IH; auto.
Qed.

(** A text that neither starts nor ends with white space is left alone. *)
Lemma strip_space_id (s : str) :
  (forall c t, s = c :: t -> is_space c = false) ->
  (forall c t, rev s = c :: t -> is_space c = false) ->
  strip_space s = s.
Proof.
  intros Hh Hl. unfold strip_space.
  assert (E1 : dropwhile is_space s = s).
  { destruct s as [|c t]; [reflexivity|].
    apply dropwhile_head. eapply Hh; reflexivity. }
  rewrite E1.
  assert (E2 : dropwhile is_space (rev s) = rev s).
  { destruct (rev s) as [|c t] eqn:E; [reflexivity|].
    apply dropwhile_head. eapply Hl; reflexivity. }
  rewrite E2. apply rev_involutive.
Qed.

Lemma forallb_rev {A} (p : A -> bool) (l : list A) :
  forallb p (rev l) = forallb p l.
Proof.
  induction l as [|x l IH]; simpl; [reflexivity|].
  rewrite forallb_app, IH; simpl. rewrite andb_true_r. apply andb_comm.
Qed.

Lemma strip_space_nospace (s : str) :
  forallb (fun c => negb (is_space c)) s = true -> strip_space s = s.
Proof.
  intros H. apply strip_space_id.
  - intros c t ->. simpl in H. apply andb_prop in H as [H _].
    now apply negb_true_iff.
  - intros c t E. rewrite <- forallb_rev, E in H. simpl in H.
    apply andb_prop in H as [H _]. now apply negb_true_iff.
Qed.

Lemma drop_underscores_none (s : str) :
  forall prev,
    match prev with Some p => is_underscore p = false | None => True end ->
    forallb (fun c => negb (is_underscore c)) s = true ->
    drop_underscores prev s = Some s.
Proof.
  induction s as [|c s IH]; intros prev Hp H; simpl.
  - destruct prev as [p|]; [now rewrite Hp | reflexivity].
  - simpl in H. apply andb_prop in H as [Hc Hs].
    apply negb_true_iff in Hc. rewrite Hc.
    destruct prev as [p|].
    + rewrite Hp. simpl. rewrite (IH (Some c)); auto.
    + rewrite (IH (Some c)); auto.
Qed.

Lemma forallb_impl {A} (p q : A -> bool) (l : list A) :
  (forall x, p x = true -> q x = true) ->
  forallb p l = true -> forallb q l = true.
Proof.
  intros Hpq. induction l as [|x l IH]; simpl; [reflexivity|].
  intros H; apply andb_prop in H as [Hx Hl]. now rewrite Hpq, IH.
Qed.

(** [int] of a non-empty run of digits: the value of the digits when the
    run is within the limit, [ValueError] when it is longer. *)
Lemma int_run (m : str) :
  m <> [] -> forallb is_digit m = true ->
  int m = if (List.length m <=? int_max_str_digits)%nat
          then Ok (digits_val m) else Raise ValueError.
Proof.
  intros Hne Hd. unfold int.
  rewrite strip_space_nospace.
  2:{ eapply forallb_impl; [|exact Hd].
      intros x Hx. now rewrite (digit_not_space x Hx). }
  rewrite (drop_underscores_none m None I).
  2:{ eapply forallb_impl; [|exact Hd].
      intros x Hx. now rewrite (digit_not_underscore x Hx). }
  destruct m as [|c t]; [congruence|].
  pose proof Hd as Hd'. cbn [forallb] in Hd'. apply andb_prop in Hd' as [Hc Ht].
  rewrite (digit_not_sign c t Hc), Hd. reflexivity.
Qed.

Lemma int_digits (m : str) :
  m <> [] -> forallb is_digit m = true ->
  (List.length m <= int_max_str_digits)%nat ->
  int m = Ok (digits_val m).
Proof.
  intros Hne Hd Hlen. rewrite (int_run m Hne Hd).
  apply Nat.leb_le in Hlen. now rewrite Hlen.
Qed.

Lemma int_long_digits (m : str) :
  forallb is_digit m = true ->
  (int_max_str_digits < List.length m)%nat ->
  int m = Raise ValueError.
Proof.
  intros Hd Hlen.
  assert (Hne : m <> []).
  { intros ->. cbn [List.length] in Hlen. lia. }
  rewrite (int_run m Hne Hd).
  apply Nat.leb_gt in Hlen. now rewrite Hlen.
Qed.

(** The limit at work: 4300 digits are read, with or without a sign, 4301
    are not, leading zeros included. *)
Lemma int_limit_examples :
  is_ok (int (repeat "7"%char 4300)) = true
  /\ is_ok (int ("-"%char :: repeat "7"%char 4300)) = true
  /\ int (repeat "7"%char 4301) = Raise ValueError
  /\ int (repeat "0"%char 4301) = Raise ValueError.
Proof. vm_compute. repeat split. Qed.

(** What [re.search(r"\d+", s)] finds is a non-empty run of digits. *)
Lemma re_search_digits_some (s m : str) :
  re_search_digits s = Some m -> m <> [] /\ forallb is_digit m = true.
Proof.
  unfold re_search_digits.
  assert (Hd : forall l c r,
             dropwhile (fun c => negb (is_digit c)) l = c :: r ->
             is_digit c = true).
  { induction l as [|x l IH]; simpl; intros c r E; [discriminate|].
    destruct (is_digit x) eqn:Ex; simpl in E.
    - now inversion E; subst.
    - eauto. }
  assert (Ht : forall l, forallb is_digit (takewhile is_digit l) = true).
  { induction l as [|x l IH]; simpl; [reflexivity|].
    destruct (is_digit x) eqn:Ex; simpl; [now rewrite Ex|reflexivity]. }
  destruct (dropwhile _ s) as [|c r] eqn:E; [discriminate|].
  intros H; inversion H; subst; clear H.
  pose proof (Hd s c r E) as Hc. split.
  - simpl. now rewrite Hc.
  - apply (Ht (c :: r)).
Qed.

(** [float] raises nothing but [ValueError]. *)
Lemma float_raises_ValueError (s : str) (e : exn) :
  float s = Raise e -> e = ValueError.
Proof.
  unfold float.
  destruct (drop_underscores None (strip_space s)) as [t|]; [|congruence].
  destruct (take_sign t) as [neg body].
  destruct (_ || _); [congruence|].
  destruct (str_eqb _ _); [congruence|].
  destruct (parse_number neg body); congruence.
Qed.

End Builtins.

(** ** business_profile_DC.py: the cleaners *)

Section Cleaning.

Lemma take_drop_while {A} (p : A -> bool) (l : list A) :
  takewhile p l ++ dropwhile p l = l.
Proof.
  induction l as [|x l IH]; simpl; [reflexivity|].
  destruct (p x); simpl; [now rewrite IH | reflexivity].
Qed.

Lemma takewhile_forallb {A} (p : A -> bool) (l : list A) :
  forallb p (takewhile p l) = true.
Proof.
  induction l as [|x l IH]; simpl; [reflexivity|].
  destruct (p x) eqn:E; simpl; [now rewrite E | reflexivity].
Qed.

Lemma dropwhile_stops {A} (p : A -> bool) (l : list A) :
  match dropwhile p l with
  | [] => True
  | c :: _ => p c = false
  end.
Proof.
  induction l as [|x l IH]; simpl; [exact I|].
  destruct (p x) eqn:E; [exact IH | exact E].
Qed.

Lemma no_digit_dropwhile (s : str) :
  existsb is_digit s = false ->
  dropwhile (fun c => negb (is_digit c)) s = [].
Proof.
  induction s as [|c s IH]; simpl; [reflexivity|].
  intros H. apply orb_false_iff in H as [Hc Hs]. now rewrite Hc, IH.
Qed.

Lemma some_digit_dropwhile (s : str) :
  existsb is_digit s = true ->
  dropwhile (fun c => negb (is_digit c)) s <> [].
Proof.
  induction s as [|c s IH]; simpl; [discriminate|].
  destruct (is_digit c); simpl; [discriminate | exact IH].
Qed.

(** Every string with a digit splits into a digit-free prefix, its first
    maximal run of digits and a rest that does not continue the run; that run
    is what [re.search] returns. *)
Lemma re_search_digits_first_run (s : str) :
  existsb is_digit s = true ->
  exists pre run post,
    s = pre ++ run ++ post
    /\ existsb is_digit pre = false
    /\ run <> []
    /\ forallb is_digit run = true
    /\ match post with [] => True | c :: _ => is_digit c = false end
    /\ re_search_digits s = Some run.
Proof.
  intros H.
  set (nd := fun c => negb (is_digit c)).
  exists (takewhile nd s), (takewhile is_digit (dropwhile nd s)),
    (dropwhile is_digit (dropwhile nd s)).
  assert (Hsome : re_search_digits s = Some (takewhile is_digit (dropwhile nd s))).
  { unfold re_search_digits. fold nd.
    pose proof (some_digit_dropwhile s H) as Hne. fold nd in Hne.
    destruct (dropwhile nd s); [congruence | reflexivity]. }
  destruct (re_search_digits_some _ _ Hsome) as [Hne Hd].
  repeat split; auto.
  - now rewrite take_drop_while, take_drop_while.
  - pose proof (takewhile_forallb nd s) as Hp.
    induction (takewhile nd s) as [|x l IH]; simpl in *; [reflexivity|].
    apply andb_prop in Hp as [Hx Hl]. unfold nd in Hx.
    apply negb_true_iff in Hx. rewrite Hx. simpl. auto.
  - apply (dropwhile_stops is_digit).
Qed.

Lemma clean_service_ok (self : BusinessProfile) :
  exists b, clean_service self = Ok b
            /\ reviews b = reviews self /\ rating b = rating self.
Proof.
  unfold clean_service.
  destruct (services self) as [s|]; [destruct (truthy s)|]; eauto.
Qed.

Lemma clean_reviews_ok (self : BusinessProfile) :
  (forall n, reviews self <> ReviewsInt n) ->
  (forall s, reviews self = ReviewsStr s -> Spec.digit_run_in_range s = true) ->
  exists b, clean_reviews self = Ok b /\ rating b = rating self.
Proof.
  intros Hraw Hrange. unfold clean_reviews.
  destruct (reviews self) as [|s|n]; [eauto| |exfalso; eapply Hraw; eauto].
  destruct (truthy s); [|eauto].
  specialize (Hrange s eq_refl). unfold Spec.digit_run_in_range in Hrange.
  destruct (re_search_digits s) as [m|] eqn:E; [|eauto].
  destruct (re_search_digits_some _ _ E) as [Hne Hd].
  apply Nat.leb_le in Hrange.
  rewrite (int_digits _ Hne Hd Hrange). simpl. eauto.
Qed.

(** A digit run beyond the limit of [int] makes [clean_reviews] raise:
    nothing catches the [ValueError]. *)
Lemma clean_reviews_long_run (self : BusinessProfile) (s : str) :
  reviews self = ReviewsStr s ->
  Spec.digit_run_in_range s = false ->
  clean_reviews self = Raise ValueError.
Proof.
  intros Hs Hrange. unfold clean_reviews. rewrite Hs.
  unfold Spec.digit_run_in_range in Hrange.
  destruct (re_search_digits s) as [m|] eqn:E; [|discriminate].
  assert (Ht : truthy s = true).
  { destruct s; [discriminate E | reflexivity]. }
  rewrite Ht.
  destruct (re_search_digits_some _ _ E) as [Hne Hd].
  apply Nat.leb_gt in Hrange.
  now rewrite (int_long_digits _ Hd Hrange).
Qed.

Lemma clean_rating_ok (self : BusinessProfile) :
  exists b, clean_rating self = Ok b.
Proof.
  unfold clean_rating.
  destruct (rating self) as [|s|f]; [eauto| |eauto].
  destruct (truthy s); [|eauto].
  destruct (float s) as [f|e] eqn:E; [eauto|].
  rewrite (float_raises_ValueError _ _ E). eauto.
Qed.

End Cleaning.


Import Spec.

(** ** The record model: reviews and totality *)

Lemma first_digit_run_exists (s : str) :
  existsb is_digit s = true ->
  exists pre run post, first_digit_run s pre run post.
Proof.
  intros H.
  destruct (re_search_digits_first_run s H)
    as (pre & run & post & E & Hpre & Hne & Hrun & Hpost & _).
  exists pre, run, post. repeat split; assumption.
Qed.

Lemma no_digit_forallb (l : str) :
  existsb is_digit l = false ->
  forallb (fun c => negb (is_digit c)) l = true.
Proof.
  induction l as [|x l IH]; simpl; [reflexivity|].
  intros H. apply orb_false_iff in H as [Hx Hl]. now rewrite Hx, IH.
Qed.

(** [re.search] returns the first maximal run of digits. *)
Lemma re_search_digits_run (s pre run post : str) :
  first_digit_run s pre run post -> re_search_digits s = Some run.
Proof.
  intros (E & Hpre & Hne & Hrun & Hpost). subst s.
  unfold re_search_digits.
  rewrite dropwhile_app by now apply no_digit_forallb.
  destruct run as [|c r]; [congruence|].
  simpl in Hrun. apply andb_prop in Hrun as [Hc Hr].
  change ((c :: r) ++ post) with (c :: (r ++ post)).
  rewrite dropwhile_head by (now rewrite Hc).
  cbn [takewhile]. rewrite Hc, takewhile_app by assumption.
  destruct post as [|d post]; cbn [takewhile]; rewrite ?Hpost, app_nil_r;
    reflexivity.
Qed.

Lemma clean_service_identity (self b : BusinessProfile) :
  clean_service self = Ok b -> same_identity self b.
Proof.
  unfold clean_service, same_identity.
  destruct (services self) as [s|]; [destruct (truthy s)|];
    intros E; inversion E; subst; simpl; tauto.
Qed.

Lemma clean_reviews_identity (self b : BusinessProfile) :
  clean_reviews self = Ok b -> same_identity self b.
Proof.
  unfold clean_reviews, same_identity.
  destruct (reviews self) as [|s|n].
  - intros E; inversion E; subst; tauto.
  - destruct (truthy s); [|intros E; inversion E; subst; tauto].
    destruct (re_search_digits s) as [m|].
    + destruct (int m) as [n|e]; simpl; intros E; inversion E; subst;
        simpl; tauto.
    + intros E; inversion E; subst; simpl; tauto.
  - destruct (n =? 0)%Z; intros E; inversion E; subst; tauto.
Qed.

Lemma clean_rating_identity (self b : BusinessProfile) :
  clean_rating self = Ok b -> same_identity self b.
Proof.
  unfold clean_rating, same_identity.
  destruct (rating self) as [|s|f].
  - intros E; inversion E; subst; tauto.
  - destruct (truthy s); [|intros E; inversion E; subst; tauto].
    destruct (float s) as [f|[]]; intros E; inversion E; subst; simpl; tauto.
  - intros E; inversion E; subst; tauto.
Qed.

Lemma init_identity (p b : str) (w ph sv ad rt rv : option str)
    (r : BusinessProfile) :
  init p b w ph sv ad rt rv = Ok r ->
  profile r = p /\ business r = b /\ website r = w /\ phone_number r = ph
  /\ address r = ad.
Proof.
  unfold init, post_init. intros E.
  destruct (clean_service _) as [s1|] eqn:E1; [|discriminate].
  cbn [bind] in E.
  destruct (clean_reviews s1) as [s2|] eqn:E2; [|discriminate].
  cbn [bind] in E.
  destruct (clean_service_identity _ _ E1) as (A1 & A2 & A3 & A4 & A5).
  destruct (clean_reviews_identity _ _ E2) as (B1 & B2 & B3 & B4 & B5).
  destruct (clean_rating_identity _ _ E) as (C1 & C2 & C3 & C4 & C5).
  simpl in *. repeat split; congruence.
Qed.

(** The raw reviews field of a fresh record is [None] or a string. *)
Lemma raw_reviews_not_int (rv : option str) (n : Z) :
  of_optional_reviews rv <> ReviewsInt n.
Proof. destruct rv; discriminate. Qed.

(** The constructor returns a record when the digit run of the reviews
    text, if it has one, is within the limit of [int]. *)
Lemma init_returns (p b : str) (w ph sv ad rt rv : option str) :
  reviews_in_range rv = true ->
  exists r, init p b w ph sv ad rt rv = Ok r.
Proof.
  intros Hrange. unfold init, post_init.
  set (self := mkBusinessProfile p b w ph sv ad
                 (of_optional_rating rt) (of_optional_reviews rv)).
  destruct (clean_service_ok self) as (s1 & E1 & R1 & _).
  destruct (clean_reviews_ok s1) as (s2 & E2 & _).
  { intros n. rewrite R1. apply raw_reviews_not_int. }
  { intros s. rewrite R1. cbn [self reviews].
    destruct rv as [s'|]; [|discriminate].
    intros H; inversion H; subst. exact Hrange. }
  destruct (clean_rating_ok s2) as (s3 & E3).
  exists s3. rewrite E1. cbn [bind]. rewrite E2. cbn [bind]. exact E3.
Qed.

(** It raises [ValueError] when the run is longer. *)
Lemma init_raises (p b : str) (w ph sv ad rt rv : option str) :
  reviews_in_range rv = false ->
  init p b w ph sv ad rt rv = Raise ValueError.
Proof.
  intros Hrange. unfold init, post_init.
  set (self := mkBusinessProfile p b w ph sv ad
                 (of_optional_rating rt) (of_optional_reviews rv)).
  destruct (clean_service_ok self) as (s1 & E1 & R1 & _).
  rewrite E1. cbn [bind].
  destruct rv as [s|]; [|discriminate].
  rewrite (clean_reviews_long_run s1 s); [reflexivity | | exact Hrange].
  rewrite R1. reflexivity.
Qed.

(** C9.  Field cleaning is not total.  A reviews text whose digit run has
    4301 digits makes [clean_reviews], and with it the constructor, raise
    [ValueError]: the run goes to [int] outside any [try], where
    [clean_rating] catches the [ValueError] of [float].  And the empty string
    comes out neither as a value nor as [None]: a record built with an empty
    rating and an empty reviews text keeps both texts. *)
Theorem constructor_raises_on_long_digit_run :
  clean_reviews (Examples.with_reviews (repeat "7"%char 4301))
  = Raise ValueError
  /\ init (lit "p") (lit "b") None None None None None
       (Some (repeat "7"%char 4301))
     = Raise ValueError
  /\ init (lit "p") (lit "b") None None None None (Some []) (Some [])
     = Ok (mkBusinessProfile (lit "p") (lit "b") None None None None
             (RatingStr []) (ReviewsStr [])).
Proof. vm_compute. repeat split. Qed.

(** C8.  The empty string has no digit, and [clean_reviews] leaves the
    count as the empty string where its docstring says [None]: the guard
    [if self.reviews:] skips the cleaning.  A text with a digit run of 4301
    digits gives no count either: [int] refuses the run and [clean_reviews]
    raises [ValueError]. *)
Theorem clean_reviews_keeps_empty_string :
  existsb is_digit [] = false
  /\ clean_reviews (Examples.with_reviews []) = Ok (Examples.with_reviews [])
  /\ reviews (Examples.with_reviews []) = ReviewsStr []
  /\ existsb is_digit (repeat "7"%char 4301) = true
  /\ clean_reviews (Examples.with_reviews (repeat "7"%char 4301))
     = Raise ValueError.
Proof. vm_compute. repeat split. Qed.

(** X30.  The count of a raw reviews text.  A text with at least one
    decimal digit has a first maximal run of digits; the count is the integer
    value of that run when the run has at most 4300 digits, and
    [clean_reviews] raises [ValueError] when it has more.  A non-empty text
    with no digit gives [None]; the empty string is skipped by the guard
    [if self.reviews:] and stays the empty string. *)
Theorem clean_reviews_first_digit_run :
  forall (self : BusinessProfile) (s : str),
    reviews self = ReviewsStr s ->
    (existsb is_digit s = true ->
       exists pre run post, first_digit_run s pre run post)
    /\ (forall pre run post,
          first_digit_run s pre run post ->
          clean_reviews self
          = if (List.length run <=? int_max_str_digits)%nat
            then Ok (set_reviews self (ReviewsInt (digits_val run)))
            else Raise ValueError)
    /\ (s <> [] -> existsb is_digit s = false ->
          clean_reviews self = Ok (set_reviews self ReviewsNone))
    /\ (s = [] -> clean_reviews self = Ok self).
Proof.
  intros self s Hs. unfold clean_reviews. rewrite Hs. repeat split.
  - apply first_digit_run_exists.
  - intros pre run post Hrun.
    rewrite (re_search_digits_run _ _ _ _ Hrun).
    destruct Hrun as (E & Hpre & Hne & Hd & Hpost).
    assert (Ht : truthy s = true).
    { subst s. destruct pre; [destruct run; [congruence|]|]; reflexivity. }
    rewrite Ht, (int_run _ Hne Hd).
    destruct (List.length run <=? int_max_str_digits)%nat; reflexivity.
  - intros Hne Hd.
    assert (Ht : truthy s = true) by (destruct s; [congruence | reflexivity]).
    rewrite Ht. unfold re_search_digits. now rewrite (no_digit_dropwhile s Hd).
  - intros ->. reflexivity.
Qed.

(** The reviews text ["1.2K (345 reviews)"] gives 1, the first run, not 345. *)
Lemma clean_reviews_first_digit_run_witness :
  clean_reviews (Examples.with_reviews (lit "1.2K (345 reviews)"))
  = Ok (set_reviews (Examples.with_reviews (lit "1.2K (345 reviews)")) (ReviewsInt 1)).
Proof.
  destruct (clean_reviews_first_digit_run
              (Examples.with_reviews (lit "1.2K (345 reviews)"))
              (lit "1.2K (345 reviews)") eq_refl) as (_ & H & _).
  apply (H [] (lit "1") (lit ".2K (345 reviews)")).
  repeat split; try reflexivity. discriminate.
Defined.

(** ** The record model: rating *)

Section Rating.

Lemma digit_lower_not_name (c : ascii) (t : str) :
  is_digit c = true ->
  str_eqb (map lower (c :: t)) (lit "inf") = false
  /\ str_eqb (map lower (c :: t)) (lit "infinity") = false
  /\ str_eqb (map lower (c :: t)) (lit "nan") = false.
Proof.
  destruct c as [[] [] [] [] [] [] [] []]; cbv; intuition congruence.
Qed.

Lemma sign_chars_plain :
  forall sg,
    forallb (fun c => negb (is_space c)) (sign_text sg) = true
    /\ forallb (fun c => negb (is_underscore c)) (sign_text sg) = true.
Proof. destruct sg; split; reflexivity. Qed.

(** The characters of a numeral are neither white space nor underscores. *)
Lemma numeral_plain (sg : sign) (ip fp : str) :
  forallb is_digit ip = true -> forallb is_digit fp = true ->
  forallb (fun c => negb (is_space c)) (numeral sg ip fp) = true
  /\ forallb (fun c => negb (is_underscore c)) (numeral sg ip fp) = true.
Proof.
  intros Hip Hfp. unfold numeral.
  destruct (sign_chars_plain sg) as [S1 S2].
  assert (D1 : forall l, forallb is_digit l = true ->
                         forallb (fun c => negb (is_space c)) l = true).
  { intros l. apply forallb_impl. intros x Hx. now rewrite (digit_not_space x Hx). }
  assert (D2 : forall l, forallb is_digit l = true ->
                         forallb (fun c => negb (is_underscore c)) l = true).
  { intros l. apply forallb_impl. intros x Hx.
    now rewrite (digit_not_underscore x Hx). }
  rewrite !forallb_app, S1, S2, (D1 _ Hip), (D2 _ Hip).
  destruct fp as [|d fp]; [split; reflexivity|].
  change (lit "." ++ d :: fp) with ("."%char :: d :: fp).
  cbn [forallb]. simpl in Hfp. apply andb_prop in Hfp as [Hd Hf].
  rewrite (digit_not_space d Hd), (digit_not_underscore d Hd).
  rewrite (D1 _ Hf), (D2 _ Hf). split; reflexivity.
Qed.

Lemma take_sign_numeral (sg : sign) (c : ascii) (t : str) :
  is_digit c = true ->
  take_sign (sign_text sg ++ c :: t) = (is_minus sg, c :: t).
Proof.
  intros Hc. destruct sg; [|reflexivity|reflexivity].
  apply (digit_not_sign c t Hc).
Qed.

(** The number parser on the unsigned part of a numeral. *)
Lemma parse_number_numeral (neg : bool) (ip fp : str) :
  ip <> [] -> forallb is_digit ip = true -> forallb is_digit fp = true ->
  parse_number neg (ip ++ match fp with [] => [] | _ :: _ => lit "." ++ fp end)
  = Some (nearest_double neg (digits_val (ip ++ fp))
            (- Z.of_nat (List.length fp))).
Proof.
  intros Hne Hip Hfp. unfold parse_number.
  rewrite takewhile_app, dropwhile_app by assumption.
  destruct fp as [|d fp].
  - cbn [takewhile dropwhile]. rewrite !app_nil_r.
    destruct ip as [|c ip]; [congruence|]. reflexivity.
  - change (lit "." ++ d :: fp) with ("."%char :: d :: fp).
    cbn [takewhile dropwhile].
    change (is_digit "."%char) with false. cbv iota.
    change (is_dot "."%char) with true. cbv iota.
    rewrite takewhile_all, dropwhile_all by assumption.
    rewrite app_nil_r.
    destruct (ip ++ d :: fp) eqn:E.
    + destruct ip; discriminate.
    + reflexivity.
Qed.

(** [float] on a decimal numeral: the double nearest to the decimal it
    denotes. *)
Lemma float_numeral (sg : sign) (ip fp : str) :
  ip <> [] -> forallb is_digit ip = true -> forallb is_digit fp = true ->
  float (numeral sg ip fp)
  = Ok (nearest_double (is_minus sg) (digits_val (ip ++ fp))
          (- Z.of_nat (List.length fp))).
Proof.
  intros Hne Hip Hfp. unfold float.
  destruct (numeral_plain sg _ _ Hip Hfp) as [N1 N2].
  rewrite (strip_space_nospace _ N1).
  rewrite (drop_underscores_none _ None I N2).
  unfold numeral.
  destruct ip as [|c ip]; [congruence|].
  pose proof Hip as Hip'. simpl in Hip'. apply andb_prop in Hip' as [Hc _].
  change ((c :: ip) ++ ?r) with (c :: (ip ++ r)).
  rewrite (take_sign_numeral sg _ _ Hc).
  destruct (digit_lower_not_name c
              (ip ++ match fp with [] => [] | _ :: _ => lit "." ++ fp end) Hc)
    as (E1 & E2 & E3).
  rewrite E1, E2, E3. cbn [orb].
  change (c :: (ip ++ ?r)) with ((c :: ip) ++ r).
  now rewrite parse_number_numeral.
Qed.

(** Underscores behind a prefix that has none: the prefix stays. *)
Lemma drop_underscores_prefix (l r : str) :
  forallb (fun c => negb (is_underscore c)) l = true ->
  forall prev,
    match prev with Some p => is_underscore p = false | None => True end ->
    drop_underscores prev (l ++ r) = None
    \/ exists u, drop_underscores prev (l ++ r) = Some (l ++ u).
Proof.
  induction l as [|x l IH]; intros Hl prev Hp.
  - cbn [app]. destruct (drop_underscores prev r) as [u|]; eauto.
  - cbn [forallb] in Hl. apply andb_prop in Hl as [Hx Hl].
    apply negb_true_iff in Hx.
    assert (E : drop_underscores prev ((x :: l) ++ r)
                = option_map (cons x) (drop_underscores (Some x) (l ++ r))).
    { cbn [app drop_underscores]. rewrite Hx.
      destruct prev as [q|]; [now rewrite Hp | reflexivity]. }
    rewrite E.
    destruct (IH Hl (Some x) Hx) as [->|(u & ->)]; [now left|].
    right. exists u. reflexivity.
Qed.

(** White space is only taken from behind a character that is none. *)
Lemma strip_space_prefix (l : str) (c : ascii) (t : str) :
  (forall d l', l = d :: l' -> is_space d = false) ->
  is_space c = false ->
  exists t', strip_space (l ++ c :: t) = l ++ c :: t'.
Proof.
  intros Hhead Hc. unfold strip_space.
  assert (E1 : dropwhile is_space (l ++ c :: t) = l ++ c :: t).
  { destruct l as [|d l']; cbn [app].
    - now apply dropwhile_head.
    - apply dropwhile_head. eapply Hhead; reflexivity. }
  rewrite E1, rev_app_distr. cbn [rev]. rewrite <- app_assoc. cbn [app].
  set (k := takewhile is_space (rev t)).
  set (u := dropwhile is_space (rev t)).
  assert (Et : rev t = k ++ u) by (symmetry; apply take_drop_while).
  rewrite Et, <- app_assoc, dropwhile_app by apply takewhile_forallb.
  exists (rev u).
  assert (E2 : dropwhile is_space (u ++ c :: rev l) = u ++ c :: rev l).
  { pose proof (dropwhile_stops is_space (rev t)) as Hs. fold u in Hs.
    destruct u as [|y u']; cbn [app].
    - now apply dropwhile_head.
    - now apply dropwhile_head. }
  rewrite E2, rev_app_distr. cbn [rev]. rewrite rev_involutive, <- app_assoc.
  reflexivity.
Qed.

(** [float] rejects a numeral that is followed by a character that cannot
    continue it. *)
Lemma float_numeral_broken (sg : sign) (ip fp : str) (c : ascii) (t : str) :
  ip <> [] -> forallb is_digit ip = true -> forallb is_digit fp = true ->
  is_digit c = false -> is_e c = false ->
  is_underscore c = false -> is_space c = false ->
  (is_dot c = true -> fp <> []) ->
  float (numeral sg ip fp ++ c :: t) = Raise ValueError.
Proof.
  intros Hne Hip Hfp Hc He Hu Hsp Hdot. unfold float.
  destruct (numeral_plain sg _ _ Hip Hfp) as [N1 N2].
  destruct (strip_space_prefix (numeral sg ip fp) c t) as (t' & ->);
    [|exact Hsp|].
  { intros d l' E. rewrite E in N1. cbn [forallb] in N1.
    apply andb_prop in N1 as [N1 _]. now apply negb_true_iff. }
  replace (numeral sg ip fp ++ c :: t')
    with ((numeral sg ip fp ++ [c]) ++ t') by (now rewrite <- app_assoc).
  destruct (drop_underscores_prefix (numeral sg ip fp ++ [c]) t') with (prev := @None ascii)
    as [->|(u & ->)]; [| exact I | reflexivity |].
  { rewrite forallb_app, N2. cbn [forallb]. now rewrite Hu. }
  rewrite <- app_assoc. cbn [app]. unfold numeral.
  destruct ip as [|d ip]; [congruence|].
  pose proof Hip as Hip'. cbn [forallb] in Hip'. apply andb_prop in Hip' as [Hd _].
  rewrite <- !app_assoc.
  change ((d :: ip) ++ ?r) with (d :: (ip ++ r)).
  rewrite (take_sign_numeral sg _ _ Hd).
  destruct (digit_lower_not_name d
              (ip ++ match fp with [] => [] | _ :: _ => lit "." ++ fp end
                  ++ c :: u) Hd)
    as (E1 & E2 & E3).
  rewrite E1, E2, E3. cbn [orb].
  change (d :: (ip ++ ?r)) with ((d :: ip) ++ r).
  unfold parse_number.
  rewrite takewhile_app, dropwhile_app by assumption.
  destruct fp as [|f fp].
  - cbn [app takewhile dropwhile]. rewrite Hc.
    destruct (is_dot c) eqn:Ed; [now exfalso; apply Hdot|].
    rewrite !app_nil_r. cbn [app parse_exponent]. rewrite He. reflexivity.
  - change ((lit "." ++ f :: fp) ++ c :: u) with ("."%char :: ((f :: fp) ++ c :: u)).
    cbn [takewhile dropwhile].
    change (is_digit "."%char) with false. cbv iota.
    change (is_dot "."%char) with true. cbv iota.
    rewrite takewhile_app, dropwhile_app by assumption.
    cbn [takewhile dropwhile]. rewrite Hc, !app_nil_r.
    destruct ((d :: ip) ++ f :: fp) eqn:E; [discriminate|].
    cbn [parse_exponent]. rewrite He. reflexivity.
Qed.

Lemma alpha_plain (c : ascii) :
  is_alpha c = true ->
  is_space c = false /\ is_underscore c = false /\ is_digit c = false
  /\ is_dot c = false /\ forall t, take_sign (c :: t) = (false, c :: t).
Proof.
  destruct c as [[] [] [] [] [] [] [] []]; cbv; intuition congruence.
Qed.

(** [float] rejects alphabetic text, the three names apart. *)
Lemma float_alpha (s : str) :
  s <> [] -> forallb is_alpha s = true ->
  str_eqb (map lower s) (lit "inf") = false ->
  str_eqb (map lower s) (lit "infinity") = false ->
  str_eqb (map lower s) (lit "nan") = false ->
  float s = Raise ValueError.
Proof.
  intros Hne Ha E1 E2 E3. unfold float.
  rewrite strip_space_nospace.
  2:{ eapply forallb_impl; [|exact Ha]. intros x Hx.
      destruct (alpha_plain x Hx) as (-> & _). reflexivity. }
  rewrite (drop_underscores_none s None I).
  2:{ eapply forallb_impl; [|exact Ha]. intros x Hx.
      destruct (alpha_plain x Hx) as (_ & -> & _). reflexivity. }
  destruct s as [|c t]; [congruence|].
  simpl in Ha. apply andb_prop in Ha as [Hc _].
  destruct (alpha_plain c Hc) as (_ & _ & Hd & Hdot & Hsg).
  rewrite Hsg, E1, E2, E3. cbn [orb].
  unfold parse_number. cbn [takewhile dropwhile]. rewrite Hd, Hdot.
  reflexivity.
Qed.

End Rating.

(** C7, as the code has it.  The rating of a raw text that is not empty is
    what Python's [float] makes of it.  A decimal numeral (optionally signed,
    optionally with a fractional part) gives the double nearest to the
    decimal it writes.  Any text that [float] accepts gives that float, and
    any text that [float] rejects gives [None].  [float] rejects alphabetic
    text other than [inf], [infinity] and [nan], and a numeral that is
    followed by a second point or by a character that is neither a digit, a
    point, an exponent letter, an underscore nor white space. *)
Theorem clean_rating_parses :
  forall (self : BusinessProfile) (s : str),
    rating self = RatingStr s ->
    s <> [] ->
    (forall sg ip fp,
        s = numeral sg ip fp -> ip <> [] ->
        forallb is_digit ip = true -> forallb is_digit fp = true ->
        clean_rating self
        = Ok (set_rating self
                (RatingFloat
                   (nearest_double (is_minus sg) (digits_val (ip ++ fp))
                      (- Z.of_nat (List.length fp))))))
    /\ (forall f, float s = Ok f ->
          clean_rating self = Ok (set_rating self (RatingFloat f)))
    /\ (is_ok (float s) = false ->
          clean_rating self = Ok (set_rating self RatingNone))
    /\ (forallb is_alpha s = true ->
          str_eqb (map lower s) (lit "inf") = false ->
          str_eqb (map lower s) (lit "infinity") = false ->
          str_eqb (map lower s) (lit "nan") = false ->
          clean_rating self = Ok (set_rating self RatingNone))
    /\ (forall sg ip fp c t,
          s = numeral sg ip fp ++ c :: t -> ip <> [] ->
          forallb is_digit ip = true -> forallb is_digit fp = true ->
          is_digit c = false -> is_e c = false ->
          is_underscore c = false -> is_space c = false ->
          (is_dot c = true -> fp <> []) ->
          clean_rating self = Ok (set_rating self RatingNone)).
Proof.
  intros self s Hs Hne. unfold clean_rating. rewrite Hs.
  assert (Ht : truthy s = true).
  { destruct s; [congruence | reflexivity]. }
  rewrite Ht. repeat split.
  - intros sg ip fp E Hip Hdi Hdf. subst s. now rewrite float_numeral.
  - intros f E. now rewrite E.
  - intros E. destruct (float s) as [f|e] eqn:F; [discriminate|].
    now rewrite (float_raises_ValueError _ _ F).
  - intros Ha E1 E2 E3. now rewrite (float_alpha _ Hne Ha E1 E2 E3).
  - intros sg ip fp c t E Hip Hdi Hdf Hc He Hu Hsp Hdot. subst s.
    now rewrite (float_numeral_broken sg ip fp c t Hip Hdi Hdf Hc He Hu Hsp Hdot).
Qed.

(** The rating text ["-4.50"] gives the float -4.5, which is
    -5066549580791808 * 2^-50. *)
Lemma clean_rating_parses_witness :
  clean_rating (Examples.with_rating (lit "-4.50"))
  = Ok (set_rating (Examples.with_rating (lit "-4.50"))
          (RatingFloat (FFinite true 5066549580791808 (-50)))).
Proof.
  assert (Hne : lit "-4.50" <> []) by discriminate.
  destruct (clean_rating_parses (Examples.with_rating (lit "-4.50"))
              (lit "-4.50") eq_refl Hne) as (H & _).
  rewrite (H Minus (lit "4") (lit "50")); try reflexivity. discriminate.
Defined.

(** C7 as stated fails in two places.  On alphabetic text: ["nan"] is no
    decimal numeral, and the rating is the float it names, not [None].  And
    on a decimal numeral: a one followed by 400 zeros is beyond the largest
    double, and the rating is infinity, not the number written. *)
Lemma clean_rating_nan_and_overflow :
  ~ (forall s : str,
       ~ decimal_numeral s ->
       exists b, clean_rating (Examples.with_rating s) = Ok b
                 /\ rating b = RatingNone)
  /\ decimal_numeral (lit "1" ++ repeat "0"%char 400)
  /\ clean_rating (Examples.with_rating (lit "1" ++ repeat "0"%char 400))
     = Ok (set_rating (Examples.with_rating (lit "1" ++ repeat "0"%char 400))
             (RatingFloat (FInf false))).
Proof.
  split; [|split].
  - intros H. destruct (H (lit "nan")) as (b & E & Hn).
    + intros (sg & ip & fp & E & Hne & Hip & _).
      destruct ip as [|c ip]; [congruence|].
      simpl in Hip. apply andb_prop in Hip as [Hc _].
      destruct sg; inversion E; subst; discriminate Hc.
    + vm_compute in E. inversion E; subst. discriminate Hn.
  - exists NoSign, (lit "1" ++ repeat "0"%char 400), [].
    split; [vm_compute; reflexivity|].
    split; [discriminate|].
    split; vm_compute; reflexivity.
  - vm_compute. reflexivity.
Qed.

(** The empty string is skipped by the guard and is not turned into
    [None]. *)
Lemma clean_rating_empty_unchanged :
  clean_rating (Examples.with_rating []) = Ok (Examples.with_rating [])
  /\ rating (Examples.with_rating []) <> RatingNone.
Proof. split; [reflexivity | discriminate]. Qed.

(** Texts that [float] rejects, and texts beyond plain decimals that it
    accepts. *)
Lemma float_examples :
  map (fun s => is_ok (float (lit s)))
    ["1.2.3"; "--1"; "1e"; "4,5"; "4.5 stars"; "abc"; "."; ""]%string
  = [false; false; false; false; false; false; false; false]
  /\ map (fun s => float (lit s)) ["inf"; "-Infinity"; "1e3"; " 4.5 "; "4_5"]%string
     = [Ok (FInf false); Ok (FInf true);
        Ok (FFinite false 8796093022208000 (-43));
        Ok (FFinite false 5066549580791808 (-50));
        Ok (FFinite false 6333186975989760 (-47))].
Proof. split; vm_compute; reflexivity. Qed.

(** The rounding of [float]: 4.8 and 0.1 are no doubles and come out as
    their nearest neighbours; 2^53 + 1 lies half way between two doubles and
    goes to the even one; the largest double, and the overflow to infinity
    just beyond it; the smallest subnormal, and the underflow to zero, which
    keeps the sign. *)
Lemma float_rounding_examples :
  map (fun s => float (lit s))
    ["4.8"; "0.1"; "9007199254740993"; "1.7976931348623157e308";
     "1.7976931348623159e308"; "5e-324"; "2e-324"; "-1e-400"; "-0"]%string
  = [Ok (FFinite false 5404319552844595 (-50));
     Ok (FFinite false 7205759403792794 (-56));
     Ok (FFinite false 4503599627370496 1);
     Ok (FFinite false 9007199254740991 971);
     Ok (FInf false);
     Ok (FFinite false 1 (-1074));
     Ok (FZero false);
     Ok (FZero true);
     Ok (FZero true)].
Proof. vm_compute. reflexivity. Qed.

(** ** Services cleaning *)

Section Services.

Import Examples.

(** The two texts the specification gives come out as it says. *)
Lemma services_cleaning_examples :
  services_cleaning (with_services (lit "Services: Plumbing, Drain Cleaning"))
  = Ok [lit "Plumbing"; lit "Drain Cleaning"]
  /\ services_cleaning (with_services (lit "Plumbing")) = Ok [].
Proof. split; reflexivity. Qed.

(** A record without services, or with an empty text, gives the empty
    list. *)
Lemma services_cleaning_absent (self : BusinessProfile) :
  services self = None \/ services self = Some [] ->
  services_cleaning self = Ok [].
Proof.
  unfold services_cleaning, clean_service.
  intros [E|E]; rewrite E; simpl; rewrite E; reflexivity.
Qed.

Lemma lstrip_all (chars l r : str) :
  forallb (fun c => chr_in c chars) l = true ->
  lstrip chars (l ++ r) = lstrip chars r.
Proof. intros H. unfold lstrip. now rewrite dropwhile_app. Qed.

Lemma strip_label (c : ascii) (t : str) (d : ascii) :
  chr_in c (lit "Services: ") = false ->
  chr_in d (lit "Services: ") = false ->
  strip (lit "Services: ") (lit "Services: " ++ (c :: t) ++ [d])
  = (c :: t) ++ [d].
Proof.
  intros Hc Hd. unfold strip.
  rewrite lstrip_all by reflexivity.
  assert (L : lstrip (lit "Services: ") ((c :: t) ++ [d]) = (c :: t) ++ [d]).
  { change ((c :: t) ++ [d]) with (c :: (t ++ [d])).
    apply (dropwhile_head (fun x => chr_in x (lit "Services: "))). exact Hc. }
  rewrite L. unfold rstrip. rewrite rev_app_distr.
  change (rev [d] ++ rev (c :: t)) with (d :: rev (c :: t)).
  unfold lstrip.
  rewrite (dropwhile_head (fun x => chr_in x (lit "Services: "))) by exact Hd.
  rewrite <- (rev_involutive ((c :: t) ++ [d])). f_equal.
  now rewrite rev_app_distr.
Qed.

(** Where the text behind the label neither starts nor ends with one of the
    characters of the label, the code does what the specification says. *)
Lemma services_cleaning_label (c : ascii) (t : str) (d : ascii) :
  chr_in c (lit "Services: ") = false ->
  chr_in d (lit "Services: ") = false ->
  services_cleaning (with_services (lit "Services: " ++ (c :: t) ++ [d]))
  = spec_services_cleaning (lit "Services: " ++ (c :: t) ++ [d]).
Proof.
  intros Hc Hd.
  unfold services_cleaning, clean_service, with_services.
  cbn [services].
  change (truthy (lit "Services: " ++ (c :: t) ++ [d])) with true. cbv iota.
  cbn [bind set_services services].
  rewrite (strip_label c t d Hc Hd).
  reflexivity.
Qed.

End Services.

(** C2.  The code removes from both ends of the services text every
    character that occurs in ["Services: "], where the claim (and the
    docstring of [clean_service]) removes the leading label only: the text
    ["Services: Plumbing, Repairs"] loses the end of its last service. *)
Theorem services_strip_eats_text :
  services_cleaning (Examples.with_services (lit "Services: Plumbing, Repairs"))
  = Ok [lit "Plumbing"; lit "Repa"]
  /\ spec_services_cleaning (lit "Services: Plumbing, Repairs")
     = Ok [lit "Plumbing"; lit "Repairs"].
Proof. split; reflexivity. Qed.

(** ** The offsets of the primary crawler *)

Section Offsets.

Import primary_crawler.

Lemma range_from_length (n : nat) (start step : Z) :
  List.length (range_from n start step) = n.
Proof.
  revert start; induction n as [|n IH]; intros start; simpl; auto.
Qed.

Lemma range_from_nth (n : nat) (start step : Z) (k : nat) :
  (k < n)%nat ->
  nth_error (range_from n start step) k = Some (start + Z.of_nat k * step)%Z.
Proof.
  revert start k; induction n as [|n IH]; intros start k Hk; [lia|].
  destruct k as [|k]; cbn [range_from nth_error].
  - f_equal. change (Z.of_nat 0) with 0%Z. ring.
  - rewrite IH by lia. f_equal. rewrite Nat2Z.inj_succ. ring.
Qed.

(** Without a second page the offsets are 0, 20, 40, ..., the [k]-th being
    [20 * k], and exactly those below the result count. *)
Lemma pages_available_all (results_count : Z) :
  exists pages,
    pages_available false results_count = Ok pages
    /\ List.length pages = page_count results_count
    /\ (forall k, (k < page_count results_count)%nat ->
          nth_error pages k = Some (RESULTS_PER_PAGE * Z.of_nat k)%Z)
    /\ (forall k, (k < page_count results_count)%nat <->
          (RESULTS_PER_PAGE * Z.of_nat k < results_count)%Z).
Proof.
  exists (range0 results_count RESULTS_PER_PAGE). unfold pages_available.
  split; [reflexivity|]. unfold range0. fold (page_count results_count).
  split; [apply range_from_length|]. split.
  - intros k Hk. rewrite range_from_nth by exact Hk. f_equal. lia.
  - intros k. unfold page_count, RESULTS_PER_PAGE.
    pose proof (Z.div_mod (results_count + 20 - 1) 20 ltac:(lia)) as Hdm.
    pose proof (Z.mod_pos_bound (results_count + 20 - 1) 20 ltac:(lia)) as Hb.
    split; intros H.
    + assert (Z.of_nat k < (results_count + 20 - 1) / 20)%Z by lia. lia.
    + assert (Z.of_nat k < (results_count + 20 - 1) / 20)%Z by lia. lia.
Qed.

(** With a second page and more than two pages of results, the first two
    offsets are dropped. *)
Lemma pages_available_skip (results_count : Z) :
  (2 * RESULTS_PER_PAGE < results_count)%Z ->
  pages_available true results_count
  = Ok (skipn 2 (range0 results_count RESULTS_PER_PAGE)).
Proof.
  intros H. unfold pages_available, range0, RESULTS_PER_PAGE in *.
  assert (Hn : (3 <= Z.to_nat ((results_count + 20 - 1) / 20))%nat).
  { assert (3 <= (results_count + 20 - 1) / 20)%Z; [|lia].
    apply Z.div_le_lower_bound; lia. }
  destruct (Z.to_nat ((results_count + 20 - 1) / 20)) as [|[|[|n]]]; try lia.
  reflexivity.
Qed.

Lemma pages_available_47 :
  pages_available false 47 = Ok [0; 20; 40]%Z
  /\ pages_available true 47 = Ok [40]%Z.
Proof. split; reflexivity. Qed.

Lemma pages_available_small (results_count : Z) :
  (results_count <= 2 * RESULTS_PER_PAGE)%Z ->
  pages_available true results_count = Raise ValueError.
Proof.
  intros H. unfold pages_available, range0, RESULTS_PER_PAGE in *.
  assert (Hn : (Z.to_nat ((results_count + 20 - 1) / 20) <= 2)%nat).
  { assert ((results_count + 20 - 1) / 20 < 3)%Z; [|lia].
    apply Z.div_lt_upper_bound; lia. }
  destruct (Z.to_nat ((results_count + 20 - 1) / 20)) as [|[|[|n]]]; try lia;
    reflexivity.
Qed.

End Offsets.

(** C4.  With a second page already loaded and 30 results, the offsets are
    0 and 20, the position of 40 is looked up in them, and [p_handler] raises
    [ValueError] before any request, where the claim drops the first two
    offsets and leaves the empty sequence. *)
Theorem p_handler_second_page_30 :
  primary_crawler.pages_available false 30 = Ok [0; 20]%Z
  /\ primary_crawler.pages_available true 30 = Raise ValueError
  /\ forall HTMLParser session_get run fuel search_url search_headers st subject,
       primary_crawler.p_handler HTMLParser session_get run fuel search_url
         search_headers st true 30 subject
       = Some (Raise ValueError).
Proof. repeat split. Qed.

(** C10.  With a second page already loaded and at most 40 results,
    the offset 40 is not among the offsets, the lookup of its position
    raises [ValueError], and so does [p_handler], whatever the fuel, the
    network and the parser. *)
Theorem p_handler_second_page_raises :
  forall (results_count : Z),
    (results_count <= 2 * primary_crawler.RESULTS_PER_PAGE)%Z ->
    ~ In (2 * primary_crawler.RESULTS_PER_PAGE)%Z
        (range0 results_count primary_crawler.RESULTS_PER_PAGE)
    /\ primary_crawler.pages_available true results_count = Raise ValueError
    /\ forall HTMLParser session_get run fuel search_url search_headers st subject,
         primary_crawler.p_handler HTMLParser session_get run fuel search_url
           search_headers st true results_count subject
         = Some (Raise ValueError).
Proof.
  intros results_count H. split; [|split].
  - unfold range0, primary_crawler.RESULTS_PER_PAGE in *.
    assert (Hn : (Z.to_nat ((results_count + 20 - 1) / 20) <= 2)%nat).
    { assert ((results_count + 20 - 1) / 20 < 3)%Z; [|lia].
      apply Z.div_lt_upper_bound; lia. }
    destruct (Z.to_nat ((results_count + 20 - 1) / 20)) as [|[|[|n]]]; try lia;
      simpl; intuition lia.
  - now apply pages_available_small.
  - intros. unfold primary_crawler.p_handler.
    now rewrite pages_available_small.
Qed.

Lemma p_handler_second_page_raises_witness :
  primary_crawler.pages_available true 40 = Raise ValueError.
Proof.
  apply (p_handler_second_page_raises 40). vm_compute. discriminate.
Defined.

(** ** The two fetch operations *)

Section Fetch.

Variable session_get : nat -> headers -> str -> result response.

(** The primary fetch returns the text of whatever response it gets; the
    status is not looked at. *)
Lemma fetch_search_pages_any_status (n : nat) (session : headers) (url : str)
    (r : response) :
  session_get n session url = Ok r ->
  primary_crawler.fetch_search_pages session_get n session url
  = Ok (response_text r).
Proof.
  intros E. unfold primary_crawler.fetch_search_pages. now rewrite E.
Qed.

(** Both fetches raise when the request itself fails. *)
Lemma fetch_raises_on_network_error (deref : secondary_crawler.ref -> str)
    (n : nat) (session : headers) (p : secondary_crawler.ref) (e : exn) :
  session_get n session (deref p) = Raise e ->
  primary_crawler.fetch_search_pages session_get n session (deref p) = Raise e
  /\ secondary_crawler.fetch_businesses deref session_get n session p = Raise e.
Proof.
  intros E.
  unfold primary_crawler.fetch_search_pages, secondary_crawler.fetch_businesses.
  now rewrite E.
Qed.

(** The secondary fetch raises on every status other than 200, and
    returns the text and the link on 200. *)
Lemma fetch_businesses_status (deref : secondary_crawler.ref -> str)
    (n : nat) (session : headers) (p : secondary_crawler.ref) (r : response) :
  session_get n session (deref p) = Ok r ->
  secondary_crawler.fetch_businesses deref session_get n session p
  = if (status_code r =? 200)%Z then Ok (response_text r, p)
    else Raise (Exception "Connection error!").
Proof.
  intros E. unfold secondary_crawler.fetch_businesses. rewrite E. simpl.
  now destruct (status_code r =? 200)%Z.
Qed.

End Fetch.

(** C6.  On a response with status 429 the secondary fetch raises, and
    the primary fetch returns the text of the response as if it were a
    result page: [fetch_search_pages] has no status test, and the loop of
    [p_handler] goes on after one request, without a retry. *)
Theorem fetch_search_pages_ignores_status :
  forall (n : nat) (session : headers) (url : str),
    primary_crawler.fetch_search_pages
      (Examples.answers Examples.rate_limited) n session url
    = Ok (lit "Too Many Requests")
    /\ (forall run st subject,
          primary_crawler.fetch_page (Examples.answers Examples.rate_limited)
            run 1 st session url subject
          = Some (Ok (lit "Too Many Requests", session,
                      primary_crawler.mkState
                        (S (primary_crawler.requests st))
                        (primary_crawler.bootstraps st)
                        (primary_crawler.profiles_list st))))
    /\ (forall (deref : secondary_crawler.ref -> str) (p : secondary_crawler.ref),
          secondary_crawler.fetch_businesses deref
            (Examples.answers Examples.rate_limited) n session p
          = Raise (Exception "Connection error!")).
Proof. intros; repeat split. Qed.

(** ** The profile extractor *)

Section Extractor.

Import secondary_crawler.

Variable deref : ref -> str.
Variable HTMLParser : str -> list node.

(** A marker without a match makes [css_first] return [None], and the
    [.text()] call on it raises [AttributeError]: no record is built. *)
Lemma extract_missing_marker (source_code : str) (p : ref) (sel : selector) :
  In sel markers ->
  css_first sel (HTMLParser source_code) = None ->
  extract deref HTMLParser source_code p = Raise AttributeError.
Proof.
  intros Hin Hnone. unfold extract.
  destruct (css_first business_sel (HTMLParser source_code)) eqn:E1;
  destruct (css_first website_sel (HTMLParser source_code)) eqn:E2;
  destruct (css_first phone_number_sel (HTMLParser source_code)) eqn:E3;
  destruct (css_first services_sel (HTMLParser source_code)) eqn:E4;
  destruct (css_first address_sel (HTMLParser source_code)) eqn:E5;
  destruct (css_first rating_sel (HTMLParser source_code)) eqn:E6;
  destruct (css_first reviews_sel (HTMLParser source_code)) eqn:E7;
  try reflexivity.
  exfalso. unfold markers in Hin. simpl in Hin.
  repeat (destruct Hin as [<-|Hin]; [congruence|]). exact Hin.
Qed.

(** With every marker matched, and a reviews text whose digit run [int]
    takes, a record is built, carrying the link and the name as they are. *)
Lemma extract_all_present (source_code : str) (p : ref) :
  (forall sel, In sel markers ->
               css_first sel (HTMLParser source_code) <> None) ->
  (forall n, css_first reviews_sel (HTMLParser source_code) = Some n ->
             digit_run_in_range (text n) = true) ->
  exists d, extract deref HTMLParser source_code p = Ok d
            /\ profile d = deref p
            /\ text_of (css_first business_sel (HTMLParser source_code))
               = Ok (business d).
Proof.
  intros Hall Hrange. unfold extract.
  assert (H : forall sel, In sel markers ->
                exists n, css_first sel (HTMLParser source_code) = Some n).
  { intros sel Hin. specialize (Hall sel Hin).
    destruct (css_first sel (HTMLParser source_code)) as [n|]; [eauto|congruence]. }
  destruct (H business_sel) as [n1 ->]; [simpl; tauto|].
  destruct (H website_sel) as [n2 ->]; [simpl; tauto|].
  destruct (H phone_number_sel) as [n3 ->]; [simpl; tauto|].
  destruct (H services_sel) as [n4 ->]; [simpl; tauto|].
  destruct (H address_sel) as [n5 ->]; [simpl; tauto|].
  destruct (H rating_sel) as [n6 ->]; [simpl; tauto|].
  destruct (H reviews_sel) as [n7 E7]; [simpl; tauto|].
  rewrite E7. cbn [text_of bind].
  destruct (init_returns (deref p) (text n1) (Some (text n2))
              (Some (text n3)) (Some (text n4)) (Some (text n5))
              (Some (text n6)) (Some (text n7))) as (r & Er).
  { exact (Hrange n7 E7). }
  rewrite Er. cbn [bind]. exists (asdict r). split; [reflexivity|].
  destruct (init_identity _ _ _ _ _ _ _ _ _ Er) as (I1 & I2 & _).
  unfold asdict. now rewrite I1, I2.
Qed.

(** With every marker matched and a reviews text whose digit run is
    beyond the limit of [int], the constructor raises and so does the
    extractor. *)
Lemma extract_long_run (source_code : str) (p : ref) (x : node) :
  (forall sel, In sel markers ->
               css_first sel (HTMLParser source_code) <> None) ->
  css_first reviews_sel (HTMLParser source_code) = Some x ->
  digit_run_in_range (text x) = false ->
  extract deref HTMLParser source_code p = Raise ValueError.
Proof.
  intros Hall Hx Hrange. unfold extract.
  assert (H : forall sel, In sel markers ->
                exists n, css_first sel (HTMLParser source_code) = Some n).
  { intros sel Hin. specialize (Hall sel Hin).
    destruct (css_first sel (HTMLParser source_code)) as [n|]; [eauto|congruence]. }
  destruct (H business_sel) as [n1 ->]; [simpl; tauto|].
  destruct (H website_sel) as [n2 ->]; [simpl; tauto|].
  destruct (H phone_number_sel) as [n3 ->]; [simpl; tauto|].
  destruct (H services_sel) as [n4 ->]; [simpl; tauto|].
  destruct (H address_sel) as [n5 ->]; [simpl; tauto|].
  destruct (H rating_sel) as [n6 ->]; [simpl; tauto|].
  rewrite Hx. cbn [text_of bind].
  rewrite init_raises; [reflexivity | exact Hrange].
Qed.

End Extractor.

(** C1.  On a detail page that has every marker but the website element,
    the extractor raises [AttributeError] instead of a record with no
    website: nothing is appended to the list, and the exception leaves
    [s_handler], which does not catch it. *)
Theorem extract_without_website_raises :
  css_first secondary_crawler.website_sel
    (Examples.parser (lit "no-website")) = None
  /\ secondary_crawler.extract Examples.link Examples.parser
       (lit "no-website") 1
     = Raise AttributeError
  /\ (let '(r, st) :=
        secondary_crawler.get_business_data Examples.link Examples.parser
          Examples.the_class secondary_crawler.new_instance
          Examples.fresh_state [(lit "no-website", 1)] in
      r = Raise AttributeError /\ secondary_crawler.lists st 0 = [])
  /\ match
       secondary_crawler.s_handler Examples.link Examples.parser
         (Examples.answers (mkResponse 200 (lit "no-website")))
         Examples.user_agent Examples.the_class 1
         secondary_crawler.new_instance Examples.fresh_state [1]
     with
     | Some (r, _) => r = Raise AttributeError
     | None => False
     end.
Proof. vm_compute. repeat split. Qed.

(** ** The record list of the secondary stage *)

(** C3.  Two instances of [Secondary_Stage] in one process: the second
    one is fresh and is handed one link, and the list it returns is the list
    of the class, which still holds the record of the first run. *)
Theorem s_handler_returns_class_list :
  match
    secondary_crawler.s_handler Examples.link Examples.parser
      (Examples.answers (mkResponse 200 (lit "full")))
      Examples.user_agent Examples.the_class 1
      secondary_crawler.new_instance Examples.fresh_state [1]
  with
  | Some (Ok l1, st1) =>
      map profile (secondary_crawler.lists st1 l1) = [Examples.link 1]
      /\ match
           secondary_crawler.s_handler Examples.link Examples.parser
             (Examples.answers (mkResponse 200 (lit "full")))
             Examples.user_agent Examples.the_class 1
             secondary_crawler.new_instance st1 [2]
         with
         | Some (Ok l2, st2) =>
             l2 = l1
             /\ map profile (secondary_crawler.lists st2 l2)
                = [Examples.link 1; Examples.link 2]
         | _ => False
         end
  | _ => False
  end.
Proof. vm_compute. repeat split. Qed.

(** ** Batches *)

(** C5.  121 links of which two are the same string (one listing met on
    two result pages): [profiles_list.index(profile)] finds the first copy,
    the cut after the 120th link is missed, and the only batch has 121 links,
    one more than [CALL_RATE]. *)
Theorem create_profiles_array_duplicate :
  secondary_crawler.create_profiles_array Examples.link_with_duplicate
    (seq 0 121)
  = Ok [seq 0 121]
  /\ (secondary_crawler.CALL_RATE < List.length (seq 0 121))%nat
  /\ Examples.link_with_duplicate 119 = Examples.link_with_duplicate 5.
Proof.
  split; [vm_compute; reflexivity|].
  split; [vm_compute; lia | vm_compute; reflexivity].
Qed.

(** With 250 distinct links the batches have 120, 120 and 10 links and
    keep the order. *)
Lemma create_profiles_array_250 :
  secondary_crawler.create_profiles_array Examples.link (seq 0 250)
  = Ok [seq 0 120; seq 120 120; seq 240 10].
Proof. vm_compute. reflexivity. Qed.

(** ** Batches of pairwise distinct links *)

Section Batches.

Import secondary_crawler.

Variable deref : ref -> str.

Lemma str_eqb_eq (a b : str) : str_eqb a b = true <-> a = b.
Proof.
  revert b; induction a as [|x a IH]; intros [|y b]; simpl;
    try (split; [discriminate | congruence]); try tauto.
  rewrite andb_true_iff. unfold chr_eqb. rewrite Ascii.eqb_eq, IH.
  split; [intros [-> ->]; reflexivity | intros E; inversion E; auto].
Qed.

Lemma eq_refl_ (x : ref) : eq_ deref x x = true.
Proof. unfold eq_. now rewrite Nat.eqb_refl. Qed.

Lemma eq_distinct (x y : ref) :
  deref x <> deref y -> eq_ deref x y = false.
Proof.
  intros H. unfold eq_. apply orb_false_iff. split.
  - apply Nat.eqb_neq. intros ->. now apply H.
  - destruct (str_eqb (deref x) (deref y)) eqn:E; [|reflexivity].
    apply str_eqb_eq in E. contradiction.
Qed.

(** [index] finds an element behind a prefix that holds no equal one. *)
Lemma index_from_prefix {A} (eqb : A -> A -> bool) (x : A) (done rest : list A) :
  forall i,
    (forall y, In y done -> eqb y x = false) ->
    eqb x x = true ->
    index_from eqb i x (done ++ x :: rest) = Ok (i + List.length done).
Proof.
  induction done as [|y done IH]; intros i Hd Hx; simpl.
  - rewrite Hx. f_equal. lia.
  - rewrite (Hd y) by (left; reflexivity).
    rewrite IH; [f_equal; lia | | exact Hx].
    intros z Hz. apply Hd. now right.
Qed.

Variable profiles_list : list ref.
Hypothesis distinct : NoDup (map deref profiles_list).

Lemma index_position (done : list ref) (x : ref) (rest : list ref) :
  profiles_list = done ++ x :: rest ->
  index (eq_ deref) x profiles_list = Ok (List.length done).
Proof.
  intros E. unfold index. rewrite E.
  rewrite index_from_prefix; [reflexivity| |apply eq_refl_].
  intros y Hy. apply eq_distinct.
  rewrite E, map_app in distinct. simpl in distinct.
  apply NoDup_remove_2 in distinct.
  intros Heq. apply distinct. apply in_or_app. left.
  rewrite <- Heq. now apply in_map.
Qed.

Lemma last_item_app (l : list ref) (z : ref) : last_item (l ++ [z]) = Ok z.
Proof. unfold last_item. now rewrite rev_app_distr. Qed.

Lemma last_is_last (done : list ref) (x : ref) :
  profiles_list = done ++ [x] ->
  exists z, last_item profiles_list = Ok z /\ is_ x z = true.
Proof.
  intros E. exists x. rewrite E, last_item_app. split; [reflexivity|].
  apply Nat.eqb_refl.
Qed.

Lemma inner_is_not_last (done : list ref) (x y : ref) (rest : list ref) :
  profiles_list = done ++ x :: y :: rest ->
  exists z, last_item profiles_list = Ok z /\ is_ x z = false.
Proof.
  intros E.
  destruct (@exists_last _ (y :: rest)) as (l & z & El); [discriminate|].
  exists z. split.
  - rewrite E, El.
    change (done ++ x :: l ++ [z]) with (done ++ (x :: l) ++ [z]).
    rewrite app_assoc. apply last_item_app.
  - apply Nat.eqb_neq. intros ->.
    rewrite E, map_app in distinct. simpl in distinct.
    apply NoDup_remove_2 in distinct. apply distinct.
    apply in_or_app. right. change (In (deref z) (map deref (y :: rest))).
    apply in_map. rewrite El. apply in_or_app. right. now left.
Qed.

Lemma concat_full_length (arrays : list (list ref)) :
  Forall full_batch arrays ->
  List.length (List.concat arrays) = (List.length arrays * CALL_RATE)%nat.
Proof.
  induction 1 as [|b arrays Hb _ IH]; simpl; [reflexivity|].
  rewrite length_app, IH, Hb. reflexivity.
Qed.

(** The cut test of the loop at the link behind [arrays] and [sub_list]. *)
Lemma cut_test (arrays : list (list ref)) (sub_list : list ref) :
  Forall full_batch arrays ->
  (List.length sub_list < CALL_RATE)%nat ->
  Nat.eqb ((List.length (List.concat arrays ++ sub_list) + 1) mod CALL_RATE) 0
  = Nat.eqb (List.length sub_list + 1) CALL_RATE.
Proof.
  intros Hf Hs. rewrite length_app, (concat_full_length _ Hf).
  replace (List.length arrays * CALL_RATE + List.length sub_list + 1)%nat
    with ((List.length sub_list + 1) + List.length arrays * CALL_RATE)%nat by lia.
  rewrite Nat.Div0.mod_add.
  destruct (Nat.eqb_spec (List.length sub_list + 1) CALL_RATE) as [E|E].
  - rewrite E, Nat.Div0.mod_same. reflexivity.
  - rewrite Nat.mod_small by lia. apply Nat.eqb_neq. lia.
Qed.

(** One turn of the loop. *)
Lemma split_loop_step (l rest : list ref) (x : ref)
    (arrays : list (list ref)) (sub_list : list ref) :
  split_loop deref l (x :: rest) arrays sub_list
  = (i <- index (eq_ deref) x l ;;
     if Nat.eqb ((i + 1) mod CALL_RATE) 0
     then split_loop deref l rest (arrays ++ [sub_list ++ [x]]) []
     else
       z <- last_item l ;;
       if is_ x z
       then split_loop deref l rest (arrays ++ [sub_list ++ [x]]) []
       else split_loop deref l rest arrays (sub_list ++ [x])).
Proof. reflexivity. Qed.

(** The loop, started on a link with links left behind it: full batches,
    then a last batch that is not empty, in the order of the list. *)
Lemma split_loop_distinct (rest : list ref) :
  forall (x : ref) (done : list ref) (arrays : list (list ref)) (sub_list : list ref),
    profiles_list = done ++ x :: rest ->
    done = List.concat arrays ++ sub_list ->
    Forall full_batch arrays ->
    (List.length sub_list < CALL_RATE)%nat ->
    exists batches final,
      split_loop deref profiles_list (x :: rest) arrays sub_list
      = Ok (batches ++ [final])
      /\ Forall full_batch batches
      /\ (0 < List.length final <= CALL_RATE)%nat
      /\ List.concat (batches ++ [final]) = profiles_list.
Proof.
  induction rest as [|y rest IH]; intros x done arrays sub_list E Ed Hf Hs.
  - exists arrays, (sub_list ++ [x]).
    assert (R : split_loop deref profiles_list [x] arrays sub_list
                = Ok (arrays ++ [sub_list ++ [x]])).
    { rewrite split_loop_step. rewrite (index_position done x [] E). cbn [bind].
      destruct (Nat.eqb ((List.length done + 1) mod CALL_RATE) 0); [reflexivity|].
      destruct (last_is_last done x E) as (z & -> & Hz). cbn [bind].
      now rewrite Hz. }
    rewrite R. split; [reflexivity|]. split; [exact Hf|]. split.
    + rewrite length_app. simpl. lia.
    + rewrite concat_app. simpl. rewrite app_nil_r, E, Ed.
      now rewrite app_assoc.
  - rewrite split_loop_step. rewrite (index_position done x (y :: rest) E).
    cbn [bind].
    rewrite Ed, (cut_test arrays sub_list Hf Hs).
    assert (E' : profiles_list = (done ++ [x]) ++ y :: rest).
    { rewrite E, <- app_assoc. reflexivity. }
    destruct (Nat.eqb_spec (List.length sub_list + 1) CALL_RATE) as [Hc|Hc].
    + apply (IH y (done ++ [x]) (arrays ++ [sub_list ++ [x]]) []); auto.
      * rewrite concat_app. simpl. rewrite !app_nil_r, Ed.
        now rewrite app_assoc.
      * apply Forall_app. split; [exact Hf|]. constructor; [|constructor].
        unfold full_batch. rewrite length_app. simpl. exact Hc.
      * unfold CALL_RATE. simpl. lia.
    + destruct (inner_is_not_last done x y rest E) as (z & -> & Hz).
      cbn [bind]. rewrite Hz.
      apply (IH y (done ++ [x]) arrays (sub_list ++ [x])); auto.
      * rewrite Ed. now rewrite app_assoc.
      * rewrite length_app. simpl. lia.
Qed.

(** For pairwise distinct links [create_profiles_array] does what C5
    says: contiguous batches in the order of the list, all of [CALL_RATE]
    links except the last, which has at most [CALL_RATE]. *)
Lemma create_profiles_array_distinct :
  exists batches final,
    create_profiles_array deref profiles_list = Ok (batches ++ [final])
    /\ Forall full_batch batches
    /\ (List.length final <= CALL_RATE)%nat
    /\ List.concat (batches ++ [final]) = profiles_list.
Proof.
  unfold create_profiles_array.
  destruct (Nat.leb_spec (List.length profiles_list) CALL_RATE) as [Hl|Hl].
  - exists [], profiles_list. repeat split; auto.
    simpl. now rewrite app_nil_r.
  - assert (Hex : exists x rest, profiles_list = x :: rest).
    { clear distinct. destruct profiles_list as [|x rest]; [simpl in Hl; lia|].
      eauto. }
    destruct Hex as (x & rest & E).
    destruct (split_loop_distinct rest x [] [] []) as (bs & f & R & Hf & Hn & Hc);
      auto.
    + unfold CALL_RATE. simpl. lia.
    + rewrite <- E in R. exists bs, f. repeat split; auto; lia.
Qed.

End Batches.

(** ** The record list across runs *)

Section Accumulation.

Import secondary_crawler.

Variable deref : ref -> str.
Variable HTMLParser : str -> list node.
Variable session_get : nat -> headers -> str -> result response.
Variable ua_random : nat -> str.
Variable cls : class_object.

(** Every instance reads the list of the class. *)
Lemma new_instance_reads_class :
  get_business_info_list cls new_instance = class_business_info_list cls.
Proof. reflexivity. Qed.

Lemma extract_profile (source_code : str) (p : ref) (d : dict) :
  extract deref HTMLParser source_code p = Ok d -> profile d = deref p.
Proof.
  unfold extract.
  destruct (text_of (css_first business_sel _)); [|discriminate].
  destruct (text_of (css_first website_sel _)); [|discriminate].
  destruct (text_of (css_first phone_number_sel _)); [|discriminate].
  destruct (text_of (css_first services_sel _)); [|discriminate].
  destruct (text_of (css_first address_sel _)); [|discriminate].
  destruct (text_of (css_first rating_sel _)); [|discriminate].
  destruct (text_of (css_first reviews_sel _)); [|discriminate].
  cbn [bind].
  destruct (init _ _ _ _ _ _ _ _) as [b|] eqn:E; [|discriminate].
  cbn [bind]. intros H; inversion H; subst. unfold asdict.
  destruct (init_identity _ _ _ _ _ _ _ _ _ E) as (Hp & _). exact Hp.
Qed.

(** [get_business_data] only appends to the list the instance reads: what
    it held stays in front, and after a return the records behind it are
    those of the responses, in order. *)
Lemma get_business_data_appends (self : instance)
    (responses_list : list (str * ref)) :
  forall (st st' : state) (r : result unit),
    get_business_data deref HTMLParser cls self st responses_list = (r, st') ->
    exists ds,
      lists st' (get_business_info_list cls self)
      = lists st (get_business_info_list cls self) ++ ds
      /\ attempts st' = attempts st /\ draws st' = draws st
      /\ (r = Ok tt -> map profile ds = map deref (map snd responses_list)).
Proof.
  induction responses_list as [|[source_code p] rest IH]; intros st st' r H.
  - simpl in H. inversion H; subst. exists []. rewrite app_nil_r. auto.
  - cbn [get_business_data] in H.
    destruct (extract deref HTMLParser source_code p) as [d|e] eqn:E.
    + destruct (IH _ _ _ H) as (ds & Hl & Ha & Hd & Hp).
      exists (d :: ds). unfold append in Hl, Ha, Hd. cbn [lists attempts draws] in *.
      rewrite Nat.eqb_refl in Hl. rewrite <- app_assoc in Hl.
      repeat split; auto.
      intros Hr. cbn [map]. rewrite (Hp Hr). f_equal.
      exact (extract_profile _ _ _ E).
    + inversion H; subst. exists []. rewrite app_nil_r.
      repeat split; auto. discriminate.
Qed.

Lemma gather_links (n : nat) (session : headers) (batch : list ref) :
  forall rs, gather deref session_get n session batch = Ok rs ->
             map snd rs = batch.
Proof.
  induction batch as [|p batch IH]; intros rs H; simpl in H.
  - inversion H. reflexivity.
  - unfold fetch_businesses in H.
    destruct (session_get n session (deref p)) as [resp|]; [|discriminate].
    cbn [bind] in H.
    destruct (negb (status_code resp =? 200)%Z); [discriminate|].
    cbn [bind] in H.
    destruct (gather deref session_get n session batch) as [rs'|]; [|discriminate].
    cbn [bind] in H. inversion H; subst. simpl. f_equal. now apply IH.
Qed.

(** A wave leaves the lists alone and returns one response per link of the
    batch, in the order of the batch. *)
Lemma wave_responses (fuel : nat) :
  forall (st : state) (session : headers) (batch : list ref) rs session' st',
    wave deref session_get ua_random fuel st session batch
    = Some (rs, session', st') ->
    lists st' = lists st /\ map snd rs = batch.
Proof.
  induction fuel as [|fuel IH]; intros st session batch rs session' st' H;
    [discriminate|].
  cbn [wave] in H.
  destruct (gather deref session_get (attempts st) session batch) as [rl|e] eqn:G.
  - inversion H; subst. split; [reflexivity|]. eapply gather_links; eauto.
  - unfold new_session in H. cbn [lists attempts draws] in H.
    destruct (IH _ _ _ _ _ _ H) as [Hl Hs]. split; [exact Hl | exact Hs].
Qed.

Lemma waves_append (fuel : nat) (self : instance)
    (profiles_arrays : list (list ref)) :
  forall (st st' : state) (session : headers) (r : result unit),
    waves deref HTMLParser session_get ua_random cls fuel self st session
      profiles_arrays = Some (r, st') ->
    exists ds,
      lists st' (get_business_info_list cls self)
      = lists st (get_business_info_list cls self) ++ ds
      /\ (r = Ok tt -> map profile ds = map deref (List.concat profiles_arrays)).
Proof.
  induction profiles_arrays as [|batch rest IH]; intros st st' session r H.
  - simpl in H. inversion H; subst. exists []. rewrite app_nil_r. auto.
  - cbn [waves] in H.
    destruct (wave deref session_get ua_random fuel st session batch)
      as [[[rs session'] st1]|] eqn:W; [|discriminate].
    destruct (wave_responses _ _ _ _ _ _ _ W) as [Hl Hs].
    destruct (get_business_data deref HTMLParser cls self st1 rs)
      as [r1 st2] eqn:G.
    destruct (get_business_data_appends _ _ _ _ _ G) as (ds1 & Hl1 & _ & _ & Hp1).
    rewrite Hl in Hl1.
    destruct r1 as [[]|e].
    + destruct (IH _ _ _ _ H) as (ds2 & Hl2 & Hp2).
      exists (ds1 ++ ds2). rewrite Hl2, Hl1, <- app_assoc. split; [reflexivity|].
      intros Hr. cbn [List.concat].
      rewrite (map_app profile), (map_app deref).
      rewrite (Hp1 eq_refl), (Hp2 Hr), Hs. reflexivity.
    + inversion H; subst. exists ds1. split; [exact Hl1 | discriminate].
Qed.

(** What a call of [s_handler] returns is the list the instance reads --
    for a fresh instance the list of the class -- holding what it held before
    the call, followed by the records of the links of the call, batch after
    batch. *)
Lemma s_handler_accumulates (fuel : nat) (self : instance) (st st' : state)
    (profiles_list : list ref) (l : loc) :
  s_handler deref HTMLParser session_get ua_random cls fuel self st profiles_list
  = Some (Ok l, st') ->
  l = get_business_info_list cls self
  /\ exists profiles_arrays ds,
       create_profiles_array deref profiles_list = Ok profiles_arrays
       /\ lists st' l = lists st l ++ ds
       /\ map profile ds = map deref (List.concat profiles_arrays).
Proof.
  unfold s_handler, new_session. intros H.
  destruct (create_profiles_array deref profiles_list) as [arrays|e] eqn:C;
    [|discriminate].
  match type of H with
  | match ?w with _ => _ end = _ => destruct w as [[r st1]|] eqn:W; [|discriminate]
  end.
  destruct r as [[]|e]; [|discriminate].
  inversion H; subst. split; [reflexivity|].
  destruct (waves_append _ _ _ _ _ _ _ W) as (ds & Hl & Hp).
  exists arrays, ds. cbn [lists] in Hl. auto.
Qed.

(** On a process whose class list is still empty, the list returned holds
    exactly the records of the call. *)
Lemma s_handler_first_run (fuel : nat) (self : instance) (st st' : state)
    (profiles_list : list ref) (l : loc) :
  lists st (get_business_info_list cls self) = [] ->
  s_handler deref HTMLParser session_get ua_random cls fuel self st profiles_list
  = Some (Ok l, st') ->
  exists profiles_arrays,
    create_profiles_array deref profiles_list = Ok profiles_arrays
    /\ map profile (lists st' l) = map deref (List.concat profiles_arrays).
Proof.
  intros He H.
  destruct (s_handler_accumulates _ _ _ _ _ _ H) as (-> & arrays & ds & C & Hl & Hp).
  exists arrays. rewrite Hl, He. auto.
Qed.

End Accumulation.

(** ** More on the record model *)

Section RecordModel.

Lemma digit_val_nonneg (c : ascii) : is_digit c = true -> (0 <= digit_val c)%Z.
Proof.
  unfold is_digit, digit_val. intros H. apply andb_prop in H as [H _].
  apply N.leb_le in H. apply N2Z.inj_le in H. change (Z.of_N 48) with 48%Z in H.
  lia.
Qed.

Lemma digits_val_from_nonneg (ds : str) :
  forall acc,
    (0 <= acc)%Z -> forallb is_digit ds = true ->
    (0 <= fold_left (fun a c => 10 * a + digit_val c)%Z ds acc)%Z.
Proof.
  induction ds as [|c ds IH]; intros acc Ha Hd; cbn [fold_left]; [exact Ha|].
  cbn [forallb] in Hd. apply andb_prop in Hd as [Hc Hds].
  apply IH; [|exact Hds]. pose proof (digit_val_nonneg c Hc). lia.
Qed.

Lemma digits_val_nonneg (ds : str) :
  forallb is_digit ds = true -> (0 <= digits_val ds)%Z.
Proof. intros H. apply digits_val_from_nonneg; [lia | exact H]. Qed.

(** What [clean_reviews] makes of a raw reviews field. *)
Lemma clean_reviews_shape (self b : BusinessProfile) :
  (forall n, reviews self <> ReviewsInt n) ->
  clean_reviews self = Ok b ->
  reviews b = ReviewsNone \/ reviews b = ReviewsStr []
  \/ exists n, (0 <= n)%Z /\ reviews b = ReviewsInt n.
Proof.
  intros Hraw. unfold clean_reviews.
  destruct (reviews self) as [|s|n] eqn:E.
  - intros H; inversion H; subst. now left.
  - destruct s as [|c s].
    + intros H; inversion H; subst. right; left. exact E.
    + cbn [truthy].
      destruct (re_search_digits (c :: s)) as [m|] eqn:R.
      * destruct (re_search_digits_some _ _ R) as [Hne Hd].
        rewrite (int_run _ Hne Hd).
        destruct (List.length m <=? int_max_str_digits)%nat; [|discriminate].
        cbn [bind]. intros H; inversion H; subst. right; right.
        exists (digits_val m). split; [now apply digits_val_nonneg | reflexivity].
      * intros H; inversion H; subst. now left.
  - exfalso. now apply (Hraw n).
Qed.

(** What [clean_rating] makes of a rating field. *)
Lemma clean_rating_shape (self b : BusinessProfile) :
  clean_rating self = Ok b ->
  (rating b = RatingNone \/ rating b = RatingStr []
   \/ exists f, rating b = RatingFloat f)
  /\ reviews b = reviews self /\ services b = services self.
Proof.
  unfold clean_rating.
  destruct (rating self) as [|s|f] eqn:E.
  - intros H; inversion H; subst. auto.
  - destruct s as [|c s].
    + intros H; inversion H; subst. auto.
    + cbn [truthy]. destruct (float (c :: s)) as [f|[]];
        intros H; inversion H; subst; simpl; eauto 6.
  - intros H; inversion H; subst. eauto 6.
Qed.

Lemma clean_reviews_keeps_services (self b : BusinessProfile) :
  clean_reviews self = Ok b -> services b = services self.
Proof.
  unfold clean_reviews.
  destruct (reviews self) as [|s|n].
  - intros H; inversion H; reflexivity.
  - destruct (truthy s); [|intros H; inversion H; reflexivity].
    destruct (re_search_digits s) as [m|].
    + destruct (int m); cbn [bind]; intros H; inversion H; reflexivity.
    + intros H; inversion H; reflexivity.
  - destruct (n =? 0)%Z; intros H; inversion H; reflexivity.
Qed.

(** [strip] takes characters of the set off both ends and nothing else. *)
Lemma strip_decomposition (chars s : str) :
  exists l r,
    s = l ++ strip chars s ++ r
    /\ forallb (fun c => chr_in c chars) l = true
    /\ forallb (fun c => chr_in c chars) r = true
    /\ match strip chars s with
       | [] => True
       | c :: _ => chr_in c chars = false
       end
    /\ match rev (strip chars s) with
       | [] => True
       | c :: _ => chr_in c chars = false
       end.
Proof.
  set (p := fun c => chr_in c chars).
  set (u := dropwhile p s).
  set (v := dropwhile p (rev u)).
  assert (Et : strip chars s = rev v) by reflexivity.
  assert (Eu : u = rev v ++ rev (takewhile p (rev u))).
  { rewrite <- rev_app_distr. unfold v. rewrite take_drop_while.
    now rewrite rev_involutive. }
  exists (takewhile p s), (rev (takewhile p (rev u))).
  rewrite Et. repeat split.
  - rewrite <- Eu. unfold u. now rewrite take_drop_while.
  - apply takewhile_forallb.
  - rewrite forallb_rev. apply takewhile_forallb.
  - destruct (rev v) as [|c t] eqn:Ev; [exact I|].
    pose proof (dropwhile_stops p s) as Hs. fold u in Hs.
    rewrite Eu in Hs. exact Hs.
  - rewrite rev_involutive. apply (dropwhile_stops p (rev u)).
Qed.

End RecordModel.

(** X1.  When the digit run of the reviews text, if it has one, has at
    most 4300 digits, the constructor returns a record; the link, the name,
    the website, the phone number and the address are exactly as they were
    passed, and the services text is the one passed with
    [str.strip("Services: ")] applied: cleaning never touches another field.
    When the run is longer the constructor raises [ValueError]. *)
Theorem constructor_keeps_other_fields :
  forall (p b : str) (w ph sv ad rt rv : option str),
    (reviews_in_range rv = true ->
     exists r,
       init p b w ph sv ad rt rv = Ok r
       /\ profile r = p /\ business r = b /\ website r = w
       /\ phone_number r = ph /\ address r = ad
       /\ services r = option_map (strip (lit "Services: ")) sv)
    /\ (reviews_in_range rv = false ->
        init p b w ph sv ad rt rv = Raise ValueError).
Proof.
  intros p b w ph sv ad rt rv. split; [|apply init_raises].
  intros Hrange.
  destruct (init_returns p b w ph sv ad rt rv Hrange) as (r & E).
  exists r. split; [exact E|].
  destruct (init_identity _ _ _ _ _ _ _ _ _ E) as (I1 & I2 & I3 & I4 & I5).
  repeat split; auto.
  unfold init, post_init in E.
  destruct (clean_service _) as [s1|] eqn:E1; [|discriminate]. cbn [bind] in E.
  destruct (clean_reviews s1) as [s2|] eqn:E2; [|discriminate]. cbn [bind] in E.
  destruct (clean_rating_shape _ _ E) as (_ & _ & ->).
  rewrite (clean_reviews_keeps_services _ _ E2).
  unfold clean_service in E1. cbn [services] in E1.
  destruct sv as [[|c s]|]; inversion E1; subst; reflexivity.
Qed.

Lemma constructor_keeps_other_fields_witness :
  exists r,
    init (lit "link") (lit "Acme") (Some (lit "acme.example")) None
      (Some (lit "Services: Tree Service")) None (Some (lit "4.8"))
      (Some (lit "(120)"))
    = Ok r
    /\ profile r = lit "link" /\ business r = lit "Acme"
    /\ website r = Some (lit "acme.example")
    /\ phone_number r = None /\ address r = None
    /\ services r
       = option_map (strip (lit "Services: ")) (Some (lit "Services: Tree Service")).
Proof.
  refine (proj1 (constructor_keeps_other_fields (lit "link") (lit "Acme")
                   (Some (lit "acme.example")) None
                   (Some (lit "Services: Tree Service")) None
                   (Some (lit "4.8")) (Some (lit "(120)"))) _).
  vm_compute. reflexivity.
Defined.

(** X2.  When the constructor returns -- and it does when the digit run of
    the reviews text has at most 4300 digits -- the review count is [None],
    the empty string or an integer that is not negative, and the rating is
    [None], the empty string or a float: raw text that is not empty never
    survives, and a sign in front of the digits never makes the count
    negative. *)
Theorem constructor_cleans_reviews_and_rating :
  forall (p b : str) (w ph sv ad rt rv : option str),
    reviews_in_range rv = true ->
    exists r,
      init p b w ph sv ad rt rv = Ok r
      /\ (reviews r = ReviewsNone \/ reviews r = ReviewsStr []
          \/ exists n, (0 <= n)%Z /\ reviews r = ReviewsInt n)
      /\ (rating r = RatingNone \/ rating r = RatingStr []
          \/ exists f, rating r = RatingFloat f).
Proof.
  intros p b w ph sv ad rt rv Hrange.
  destruct (init_returns p b w ph sv ad rt rv Hrange) as (r & E).
  exists r. split; [exact E|].
  unfold init, post_init in E.
  destruct (clean_service _) as [s1|] eqn:E1; [|discriminate]. cbn [bind] in E.
  destruct (clean_reviews s1) as [s2|] eqn:E2; [|discriminate]. cbn [bind] in E.
  destruct (clean_rating_shape _ _ E) as (Hr & Hv & _).
  split; [|exact Hr]. rewrite Hv.
  apply (clean_reviews_shape s1 s2); [|exact E2].
  destruct (clean_service_ok
              (mkBusinessProfile p b w ph sv ad
                 (of_optional_rating rt) (of_optional_reviews rv)))
    as (s1' & E1' & R1 & _).
  rewrite E1 in E1'. inversion E1'; subst s1'.
  intros n. rewrite R1. apply raw_reviews_not_int.
Qed.

Lemma constructor_cleans_reviews_and_rating_witness :
  exists r,
    init (lit "link") (lit "Acme") None None None None (Some (lit "4.8"))
      (Some (lit "-120 reviews"))
    = Ok r
    /\ (reviews r = ReviewsNone \/ reviews r = ReviewsStr []
        \/ exists n, (0 <= n)%Z /\ reviews r = ReviewsInt n)
    /\ (rating r = RatingNone \/ rating r = RatingStr []
        \/ exists f, rating r = RatingFloat f).
Proof.
  refine (constructor_cleans_reviews_and_rating (lit "link") (lit "Acme")
            None None None None (Some (lit "4.8")) (Some (lit "-120 reviews")) _).
  vm_compute. reflexivity.
Defined.

(** X3.  [clean_service] takes off both ends of the services text the
    characters that occur in ["Services: "] and nothing else: the text is the
    cleaned text between two strings of such characters, and the cleaned text
    neither starts nor ends with one. *)
Theorem clean_service_strips_both_ends :
  forall (self : BusinessProfile) (s : str),
    services self = Some s ->
    exists l t r,
      clean_service self = Ok (set_services self (Some t))
      /\ s = l ++ t ++ r
      /\ forallb (fun c => chr_in c (lit "Services: ")) l = true
      /\ forallb (fun c => chr_in c (lit "Services: ")) r = true
      /\ match t with [] => True | c :: _ => chr_in c (lit "Services: ") = false end
      /\ match rev t with [] => True | c :: _ => chr_in c (lit "Services: ") = false end.
Proof.
  intros self s Hs.
  destruct (strip_decomposition (lit "Services: ") s) as (l & r & E & Hl & Hr & Hh & Ht).
  exists l, (strip (lit "Services: ") s), r.
  repeat split; auto.
  unfold clean_service. rewrite Hs.
  destruct s as [|c s]; [|reflexivity].
  destruct self; simpl in *; subst; reflexivity.
Qed.

Lemma clean_service_strips_both_ends_witness :
  exists l t r,
    clean_service (Examples.with_services (lit "Services: Tree Service"))
    = Ok (set_services (Examples.with_services (lit "Services: Tree Service"))
            (Some t))
    /\ lit "Services: Tree Service" = l ++ t ++ r
    /\ forallb (fun c => chr_in c (lit "Services: ")) l = true
    /\ forallb (fun c => chr_in c (lit "Services: ")) r = true
    /\ match t with [] => True | c :: _ => chr_in c (lit "Services: ") = false end
    /\ match rev t with [] => True | c :: _ => chr_in c (lit "Services: ") = false end.
Proof.
  apply (clean_service_strips_both_ends
           (Examples.with_services (lit "Services: Tree Service"))
           (lit "Services: Tree Service") eq_refl).
Defined.

(** X4.  Running [__post_init__] on a record whose review count is
    already an integer other than zero raises [TypeError]: [re.search] is
    handed the integer.  Cleaning cannot be applied twice. *)
Theorem post_init_twice_raises :
  forall (r : BusinessProfile) (n : Z),
    reviews r = ReviewsInt n -> n <> 0%Z ->
    post_init r = Raise TypeError.
Proof.
  intros r n Hr Hn. unfold post_init.
  destruct (clean_service_ok r) as (s1 & E1 & R1 & _).
  rewrite E1. cbn [bind]. unfold clean_reviews. rewrite R1, Hr.
  destruct (Z.eqb_spec n 0); [contradiction | reflexivity].
Qed.

Lemma post_init_twice_raises_witness :
  exists r,
    init (lit "p") (lit "b") None None None None None (Some (lit "(120)")) = Ok r
    /\ post_init r = Raise TypeError.
Proof.
  eexists. split; [reflexivity|].
  apply (post_init_twice_raises _ 120); [reflexivity | discriminate].
Defined.

(** ** [split] and [join] *)

Section SplitFacts.

Variable sep : str.
Hypothesis sep_not_empty : sep <> [].

Lemma startswith_app (p r : str) : startswith p (p ++ r) = true.
Proof.
  induction p as [|x p IH]; simpl; [reflexivity|].
  unfold chr_eqb. now rewrite Ascii.eqb_refl, IH.
Qed.

Lemma startswith_prefix (p s : str) :
  startswith p s = true -> exists r, s = p ++ r.
Proof.
  revert s; induction p as [|x p IH]; intros s H; simpl in H.
  - exists s. reflexivity.
  - destruct s as [|y s]; [discriminate|].
    apply andb_prop in H as [Hx Hp]. unfold chr_eqb in Hx.
    apply Ascii.eqb_eq in Hx. subst y.
    destruct (IH s Hp) as (r & ->). exists r. reflexivity.
Qed.

Lemma startswith_longer (p s t : str) :
  startswith p s = true -> startswith p (s ++ t) = true.
Proof.
  intros H. destruct (startswith_prefix p s H) as (r & ->).
  rewrite <- app_assoc. apply startswith_app.
Qed.

(** [contains] says whether the text has a tail that starts with [p]. *)
Lemma contains_false (p s : str) :
  contains p s = false <->
  forall a b, s = a ++ b -> startswith p b = false.
Proof.
  induction s as [|c s IH]; simpl.
  - rewrite orb_false_r. split.
    + intros H a b E. symmetry in E. apply app_eq_nil in E as [_ ->]. exact H.
    + intros H. apply (H [] []). reflexivity.
  - rewrite orb_false_iff, IH. split.
    + intros [H0 H] a b E. destruct a as [|x a].
      * simpl in E. subst b. exact H0.
      * inversion E; subst. eapply H; reflexivity.
    + intros H. split.
      * apply (H [] (c :: s)). reflexivity.
      * intros a b E. apply (H (c :: a) b). now rewrite E.
Qed.

Lemma contains_true (p s : str) :
  contains p s = true -> exists a b, s = a ++ p ++ b.
Proof.
  induction s as [|c s IH]; simpl; intros H.
  - rewrite orb_false_r in H. destruct (startswith_prefix _ _ H) as (r & E).
    exists [], r. exact E.
  - apply orb_prop in H as [H|H].
    + destruct (startswith_prefix _ _ H) as (r & E). exists [], r. exact E.
    + destruct (IH H) as (a & b & ->). exists (c :: a), b. reflexivity.
Qed.

(** The characters of a matched separator are passed over. *)
Lemma split_scan_skip (t : str) :
  forall cur s,
    split_scan sep (List.length t) cur (t ++ s) = split_scan sep 0 cur s.
Proof.
  induction t as [|c t IH]; intros cur s; [reflexivity|].
  cbn [List.length app split_scan]. apply IH.
Qed.

(** The scan at a separator and at another character. *)
Lemma split_scan_match (cur s : str) :
  split_scan sep 0 cur (sep ++ s) = rev cur :: split_scan sep 0 [] s.
Proof.
  pose proof (startswith_app sep s) as H.
  pose proof (split_scan_skip (tl sep) [] s) as K.
  destruct sep as [|c t]; [congruence|].
  cbn [tl] in K. cbn [app] in *. cbn [split_scan]. rewrite H. f_equal.
  replace (List.length (c :: t) - 1)%nat with (List.length t)
    by (cbn [List.length]; lia).
  exact K.
Qed.

Lemma split_scan_other (cur : str) (c : ascii) (s : str) :
  startswith sep (c :: s) = false ->
  split_scan sep 0 cur (c :: s) = split_scan sep 0 (c :: cur) s.
Proof. intros H. cbn [split_scan]. now rewrite H. Qed.

Lemma split_scan_cases (cur s : str) :
  (s = [] /\ split_scan sep 0 cur s = [rev cur])
  \/ (exists s', s = sep ++ s'
                 /\ split_scan sep 0 cur s = rev cur :: split_scan sep 0 [] s')
  \/ (exists c s', s = c :: s' /\ startswith sep s = false
                   /\ split_scan sep 0 cur s = split_scan sep 0 (c :: cur) s').
Proof.
  destruct s as [|c s]; [left; split; reflexivity|].
  destruct (startswith sep (c :: s)) eqn:H.
  - right; left. destruct (startswith_prefix _ _ H) as (r & E).
    exists r. split; [exact E|]. rewrite E. apply split_scan_match.
  - right; right. exists c, s. repeat split; auto.
    now apply split_scan_other.
Qed.

Lemma sep_length : (0 < List.length sep)%nat.
Proof. destruct sep; [congruence | simpl; lia]. Qed.

Lemma split_scan_not_empty (cur s : str) : split_scan sep 0 cur s <> [].
Proof.
  revert cur; induction s as [|c s IH]; intros cur; [discriminate|].
  destruct (split_scan_cases cur (c :: s)) as [[E _]|[(s' & _ & ->)|(c' & s' & E & _ & ->)]];
    [discriminate | discriminate |].
  inversion E; subst. apply IH.
Qed.

Lemma join_cons (p : str) (rest : list str) :
  rest <> [] -> PyText.join sep (p :: rest) = p ++ sep ++ PyText.join sep rest.
Proof. destruct rest; [congruence | reflexivity]. Qed.

(** Joining the pieces with the separator gives the text back. *)
Lemma join_split_scan (n : nat) :
  forall s cur,
    (List.length s <= n)%nat ->
    PyText.join sep (split_scan sep 0 cur s) = rev cur ++ s.
Proof.
  induction n as [|n IH]; intros s cur Hn.
  - destruct s; [|simpl in Hn; lia]. simpl. now rewrite app_nil_r.
  - destruct (split_scan_cases cur s)
      as [[-> ->]|[(s' & -> & ->)|(c & s' & -> & _ & ->)]].
    + simpl. now rewrite app_nil_r.
    + rewrite join_cons by apply split_scan_not_empty.
      rewrite IH; [reflexivity|].
      rewrite length_app in Hn. pose proof sep_length. lia.
    + rewrite IH by (simpl in Hn; lia). simpl. now rewrite <- app_assoc.
Qed.

(** No piece holds the separator. *)
Lemma split_scan_pieces (n : nat) :
  forall s cur,
    (List.length s <= n)%nat ->
    (forall a b, rev cur = a ++ b -> b <> [] -> startswith sep (b ++ s) = false) ->
    Forall (fun p => contains sep p = false) (split_scan sep 0 cur s).
Proof.
  assert (Hpiece : forall cur s,
             (forall a b, rev cur = a ++ b -> b <> [] ->
                          startswith sep (b ++ s) = false) ->
             contains sep (rev cur) = false).
  { intros cur s H. apply contains_false. intros a b E.
    destruct b as [|x b].
    - destruct sep; [congruence | reflexivity].
    - destruct (startswith sep (x :: b)) eqn:S; [|reflexivity].
      rewrite <- (H a (x :: b) E ltac:(discriminate)).
      symmetry. now apply startswith_longer. }
  induction n as [|n IH]; intros s cur Hn Hinv.
  - destruct s; [|simpl in Hn; lia]. simpl. constructor; [|constructor].
    now apply (Hpiece cur []).
  - destruct (split_scan_cases cur s)
      as [[-> ->]|[(s' & -> & ->)|(c & s' & -> & Hno & ->)]].
    + constructor; [|constructor]. now apply (Hpiece cur []).
    + constructor; [now apply (Hpiece cur (sep ++ s'))|].
      apply IH.
      * rewrite length_app in Hn. pose proof sep_length. lia.
      * intros a b E Hb. simpl in E. symmetry in E.
        apply app_eq_nil in E as [_ ->]. congruence.
    + apply IH; [simpl in Hn; lia|].
      intros a b E Hb. cbn [rev] in E.
      destruct (@exists_last _ b Hb) as (b' & x & ->).
      rewrite app_assoc in E. apply app_inj_tail in E as [E ->].
      rewrite <- app_assoc. cbn [app].
      destruct b' as [|y b'].
      * simpl. exact Hno.
      * apply (Hinv a (y :: b') E). discriminate.
Qed.

(** A text that holds the separator gives at least two pieces, a text
    that does not gives itself. *)
Lemma split_scan_two (s : str) :
  forall cur,
    contains sep s = true -> (2 <= List.length (split_scan sep 0 cur s))%nat.
Proof.
  induction s as [|c s IH]; intros cur H.
  - simpl in H. rewrite orb_false_r in H. destruct sep; [congruence|discriminate].
  - destruct (split_scan_cases cur (c :: s))
      as [[E _]|[(s' & _ & ->)|(c' & s' & E & Hno & ->)]].
    + discriminate.
    + pose proof (split_scan_not_empty [] s').
      destruct (split_scan sep 0 [] s'); [congruence | simpl; lia].
    + inversion E; subst. apply IH.
      simpl in H. rewrite Hno in H. exact H.
Qed.

Lemma split_scan_none (s : str) :
  forall cur,
    contains sep s = false -> split_scan sep 0 cur s = [rev cur ++ s].
Proof.
  induction s as [|c s IH]; intros cur H.
  - simpl. now rewrite app_nil_r.
  - simpl in H. apply orb_false_iff in H as [H0 H].
    rewrite split_scan_other by exact H0. rewrite IH by exact H.
    simpl. now rewrite <- app_assoc.
Qed.

End SplitFacts.

(** ** storage_solution.py *)

Section Storage.

Import storage_solution.

Lemma comma_space_not_empty : lit ", " <> [].
Proof. discriminate. Qed.

Lemma in_seen (p : str) (seen : list str) :
  existsb (str_eqb p) seen = true <-> In p seen.
Proof.
  rewrite existsb_exists. split.
  - intros (x & Hx & E). apply str_eqb_eq in E. now subst.
  - intros H. exists p. split; [exact H | now apply str_eqb_eq].
Qed.

(** [drop_duplicates]: the profiles kept are those of the list that were
    not seen, each once. *)
Lemma drop_duplicates_profiles (l : list BusinessProfile) :
  forall seen,
    NoDup (map profile (drop_duplicates seen l))
    /\ forall p, In p (map profile (drop_duplicates seen l))
                 <-> In p (map profile l) /\ ~ In p seen.
Proof.
  induction l as [|b l IH]; intros seen; simpl.
  - split; [constructor | intros p; tauto].
  - destruct (existsb (str_eqb (profile b)) seen) eqn:E.
    + apply in_seen in E. destruct (IH seen) as [Hn Hi]. split; [exact Hn|].
      intros p. rewrite Hi. split; [tauto|].
      intros [[<-|H] Hs]; [contradiction | tauto].
    + assert (Hns : ~ In (profile b) seen).
      { intros H. apply in_seen in H. congruence. }
      destruct (IH (profile b :: seen)) as [Hn Hi]. split.
      * simpl. constructor; [|exact Hn].
        rewrite Hi. simpl. tauto.
      * intros p. simpl. rewrite Hi. simpl.
        destruct (list_eq_dec ascii_dec (profile b) p) as [Heq|Hne].
        -- split; [intros _|intros _; now left].
           split; [now left | now rewrite <- Heq].
        -- split; [intros [H|[H1 H2]]; [contradiction|tauto] |].
           intros [[H|H] Hs]; [contradiction|]. right. tauto.
Qed.

(** The first record of a profile is the one kept. *)
Lemma drop_duplicates_first (pre : list BusinessProfile) (b : BusinessProfile)
    (post : list BusinessProfile) :
  forall seen,
    ~ In (profile b) seen ->
    ~ In (profile b) (map profile pre) ->
    In b (drop_duplicates seen (pre ++ b :: post)).
Proof.
  induction pre as [|x pre IH]; intros seen Hs Hp; simpl.
  - destruct (existsb (str_eqb (profile b)) seen) eqn:E.
    + apply in_seen in E. contradiction.
    + now left.
  - simpl in Hp.
    destruct (existsb (str_eqb (profile x)) seen).
    + apply IH; tauto.
    + right. apply IH; [|tauto]. simpl. intros [H|H]; [|contradiction].
      apply Hp. now left.
Qed.

Lemma services_to_list_returns (x : option str) :
  exists l, services_to_list x = Ok l.
Proof.
  unfold services_to_list. destruct (contains _ _); eauto.
  unfold split. cbn [lit list_ascii_of_string]. eauto.
Qed.

(** The rows of a list of records: one per record, in order, with the
    fields of the record and the two tags. *)
Lemma to_rows_returns (subject location : str) (l : list BusinessProfile) :
  exists rows,
    to_rows subject location l = Ok rows
    /\ map row_profile rows = map profile l
    /\ Forall (fun r => row_business_type r = subject
                        /\ row_location r = location) rows
    /\ forall b, In b l ->
         exists sv, services_to_list (services b) = Ok sv
                    /\ In (mkRow (profile b) (business b) (website b)
                             (phone_number b) sv (address b)
                             subject location) rows.
Proof.
  induction l as [|b l (rows & E & Hp & Ht & Hin)].
  - exists []. simpl. repeat split; auto. intros b [].
  - destruct (services_to_list_returns (services b)) as (sv & Es).
    exists (mkRow (profile b) (business b) (website b) (phone_number b) sv
              (address b) subject location :: rows).
    cbn [to_rows]. unfold to_row. rewrite Es. cbn [bind]. rewrite E. cbn [bind].
    repeat split.
    + simpl. now rewrite Hp.
    + constructor; [split; reflexivity | exact Ht].
    + intros b' [<-|H].
      * exists sv. split; [exact Es | now left].
      * destruct (Hin b' H) as (sv' & Es' & Hr). exists sv'. split; [exact Es'|].
        now right.
Qed.

End Storage.

(** X5.  [save_to_sql_] on a list that is not empty appends to the table,
    behind the rows it had, one row for every distinct profile of the list:
    the new rows have pairwise distinct profiles, their profiles are exactly
    those of the list, and each carries the subject and the location as
    tags. *)
Theorem save_to_sql_appends_distinct_rows :
  forall (table : list storage_solution.row) (b : BusinessProfile)
         (results_list : list BusinessProfile) (location subject : str),
  exists new_rows,
    storage_solution.save_to_sql_ table (b :: results_list) location subject
    = Ok (table ++ new_rows)
    /\ NoDup (map storage_solution.row_profile new_rows)
    /\ (forall p, In p (map storage_solution.row_profile new_rows)
                  <-> In p (map profile (b :: results_list)))
    /\ Forall (fun r => storage_solution.row_business_type r = subject
                        /\ storage_solution.row_location r = location)
         new_rows.
Proof.
  intros table b results_list location subject.
  unfold storage_solution.save_to_sql_.
  destruct (to_rows_returns subject location
              (storage_solution.drop_duplicates [] (b :: results_list)))
    as (rows & E & Hp & Ht & _).
  exists rows. rewrite E. cbn [bind]. split; [reflexivity|].
  destruct (drop_duplicates_profiles (b :: results_list) []) as [Hn Hi].
  rewrite Hp. repeat split; auto.
  - intros H. apply Hi in H. tauto.
  - intros H. apply Hi. split; [exact H | intros []].
Qed.

(** X6.  Where several records have the same profile, the row written is
    the one of the first of them: a record with no earlier record of its
    profile has its own name, website, phone number, address and services
    list in the table, with the two tags.  (The [rating] and [reviews]
    cells, which pandas converts to the type of their column, are not part
    of the row.) *)
Theorem save_to_sql_keeps_first_record :
  forall (table : list storage_solution.row)
         (pre : list BusinessProfile) (b : BusinessProfile)
         (post : list BusinessProfile) (location subject : str),
    ~ In (profile b) (map profile pre) ->
    exists rows sv,
      storage_solution.save_to_sql_ table (pre ++ b :: post) location subject
      = Ok rows
      /\ storage_solution.services_to_list (services b) = Ok sv
      /\ In (storage_solution.mkRow (profile b) (business b) (website b)
               (phone_number b) sv (address b) subject location) rows.
Proof.
  intros table pre b post location subject Hfirst.
  unfold storage_solution.save_to_sql_.
  destruct (to_rows_returns subject location
              (storage_solution.drop_duplicates [] (pre ++ b :: post)))
    as (rows & E & _ & _ & Hin).
  destruct (Hin b) as (sv & Es & Hr).
  { apply drop_duplicates_first; [intros [] | exact Hfirst]. }
  exists (table ++ rows), sv.
  destruct (pre ++ b :: post) eqn:El; [destruct pre; discriminate|].
  rewrite E. cbn [bind]. repeat split; auto.
  apply in_or_app. now right.
Qed.

Lemma save_to_sql_keeps_first_record_witness :
  exists rows sv,
    storage_solution.save_to_sql_ []
      ([MoreExamples.listing "a" "Acme"] ++
       MoreExamples.listing "b" "Best Drains"
       :: [MoreExamples.listing "b" "Best Drains (again)"])
      (lit "Austin, TX") (lit "plumber")
    = Ok rows
    /\ storage_solution.services_to_list
         (services (MoreExamples.listing "b" "Best Drains")) = Ok sv
    /\ In (storage_solution.mkRow (lit "b") (lit "Best Drains") None None sv
             None (lit "plumber") (lit "Austin, TX"))
         rows.
Proof.
  apply (save_to_sql_keeps_first_record []
           [MoreExamples.listing "a" "Acme"]
           (MoreExamples.listing "b" "Best Drains")
           [MoreExamples.listing "b" "Best Drains (again)"]).
  intros [H|[]]. discriminate H.
Defined.

(** X7.  The services list written to the table and the cleaned text
    determine each other: when the text holds [", "], the list has at least
    two items, none of them holds [", "], and joining them with [", "] gives
    the text back; when it does not, the list is empty. *)
Theorem services_list_joins_back :
  forall (x : option str),
  exists l,
    storage_solution.services_to_list x = Ok l
    /\ if contains (lit ", ") (storage_solution.str_of_cell x)
       then PyText.join (lit ", ") l = storage_solution.str_of_cell x
            /\ Forall (fun p => contains (lit ", ") p = false) l
            /\ (2 <= List.length l)%nat
       else l = [].
Proof.
  intros x. unfold storage_solution.services_to_list.
  set (t := storage_solution.str_of_cell x).
  destruct (contains (lit ", ") t) eqn:C.
  - exists (split_scan (lit ", ") 0 [] t). split; [reflexivity|].
    split; [|split].
    + now rewrite (join_split_scan (lit ", ") comma_space_not_empty
                     (List.length t) t []).
    + apply (split_scan_pieces (lit ", ") comma_space_not_empty
               (List.length t) t []); [lia|].
      intros a b E Hb. simpl in E. symmetry in E.
      apply app_eq_nil in E as [_ ->]. congruence.
    + now apply split_scan_two; [apply comma_space_not_empty|].
  - exists []. split; reflexivity.
Qed.

(** ** More on the primary crawler *)

Section PrimaryMore.

Import primary_crawler.

Variable HTMLParser : str -> list node.
Variable session_get : nat -> headers -> str -> result response.
Variable run : nat -> str -> result (str * headers * Z * bool * list str).

Lemma semicolon_not_empty : lit ";" <> [].
Proof. discriminate. Qed.

(** The first piece of a text whose first separator is at a known
    place. *)
Lemma split_scan_first (sep a b : str) :
  sep <> [] ->
  forall cur,
    (forall a1 a2, a = a1 ++ a2 -> a2 <> [] ->
                   startswith sep (a2 ++ sep ++ b) = false) ->
    split_scan sep 0 cur (a ++ sep ++ b)
    = (rev cur ++ a) :: split_scan sep 0 [] b.
Proof.
  intros Hsep. induction a as [|c a IH]; intros cur H.
  - cbn [app]. rewrite app_nil_r. now apply split_scan_match.
  - cbn [app]. rewrite split_scan_other.
    + rewrite IH.
      * cbn [rev]. now rewrite <- app_assoc.
      * intros a1 a2 E Ha2. apply (H (c :: a1) a2); [now rewrite E | exact Ha2].
    + apply (H [] (c :: a)); [reflexivity | discriminate].
Qed.

Lemma no_semicolon_start (a2 : str) (rest : str) :
  a2 <> [] -> contains (lit ";") a2 = false ->
  startswith (lit ";") (a2 ++ rest) = false.
Proof.
  intros Hne Hc. destruct a2 as [|c a2]; [congruence|].
  simpl in Hc. apply orb_false_iff in Hc as [Hc _].
  cbn [lit list_ascii_of_string startswith app] in *.
  rewrite andb_true_r in Hc. now rewrite andb_true_r.
Qed.

Lemma contains_suffix (p a1 a2 : str) :
  contains p (a1 ++ a2) = false -> contains p a2 = false.
Proof.
  intros H. apply contains_false. intros a b E.
  rewrite contains_false in H. apply (H (a1 ++ a) b).
  now rewrite E, app_assoc.
Qed.

(** The first two fields of a text cut at semicolons. *)
Lemma split_semicolon_fields (f0 f1 rest : str) :
  contains (lit ";") f0 = false ->
  contains (lit ";") f1 = false ->
  rest = [] \/ (exists r, rest = lit ";" ++ r) ->
  exists more, split (lit ";") (f0 ++ lit ";" ++ f1 ++ rest) = Ok (f0 :: f1 :: more).
Proof.
  intros H0 H1 Hrest.
  change (split (lit ";") (f0 ++ lit ";" ++ f1 ++ rest))
    with (Ok (split_scan (lit ";") 0 [] (f0 ++ lit ";" ++ f1 ++ rest))).
  rewrite (split_scan_first (lit ";") f0 (f1 ++ rest) semicolon_not_empty []).
  2:{ intros a1 a2 E Ha2. apply no_semicolon_start; [exact Ha2|].
      subst f0. eapply contains_suffix; eauto. }
  destruct Hrest as [->|(r & ->)].
  - rewrite app_nil_r, split_scan_none by exact H1. eauto.
  - rewrite (split_scan_first (lit ";") f1 r semicolon_not_empty []).
    + eauto.
    + intros a1 a2 E Ha2. apply no_semicolon_start; [exact Ha2|].
      subst f1. eapply contains_suffix; eauto.
Qed.

Lemma profile_ids_length (ns : list node) :
  forall ids, profile_ids ns = Ok ids ->
              Forall2 (fun n id => profile_id n = Ok id) ns ids.
Proof.
  induction ns as [|n ns IH]; intros ids H; simpl in H.
  - inversion H. constructor.
  - destruct (profile_id n) as [p|] eqn:E; [|discriminate]. cbn [bind] in H.
    destruct (profile_ids ns) as [ps|]; [|discriminate]. cbn [bind] in H.
    inversion H; subst. constructor; [exact E | now apply IH].
Qed.

Lemma profile_ids_fails (ns : list node) (n : node) :
  In n ns -> is_ok (profile_id n) = false -> is_ok (profile_ids ns) = false.
Proof.
  induction ns as [|m ns IH]; intros Hin Hbad; [destruct Hin|].
  simpl. destruct Hin as [->|Hin].
  - destruct (profile_id n); [discriminate | reflexivity].
  - destruct (profile_id m); [|reflexivity]. cbn [bind].
    specialize (IH Hin Hbad). destruct (profile_ids ns); [discriminate|reflexivity].
Qed.


(** A step of the retry sequence. *)
Lemma primary_headers_shift (subject : str) (b0 : nat) (session : headers)
    (v : str * headers * Z * bool * list str) (j : nat) :
  run b0 subject = Ok v ->
  Retry.primary_headers run subject b0 session (S j)
  = Retry.primary_headers run subject (S b0)
      (let '(_, h, _, _, _) := v in h) j.
Proof.
  intros E. induction j as [|j IH].
  - cbn [Retry.primary_headers]. rewrite Nat.add_0_r, E. reflexivity.
  - cbn [Retry.primary_headers] in *.
    replace (b0 + S j)%nat with (S b0 + j)%nat by lia.
    destruct (run (S b0 + j) subject) as [[[[[u h] c] np] pages]|]; [reflexivity|].
    exact IH.
Qed.

(** [k] failed tries, each followed by a bootstrap that works, then a try
    that works. *)
Lemma fetch_page_retries (k : nat) :
  forall st session url subject resp,
    (forall j, (j < k)%nat ->
       (exists e, session_get (requests st + j)
                    (Retry.primary_headers run subject (bootstraps st) session j)
                    url = Raise e)
       /\ exists v, run (bootstraps st + j) subject = Ok v) ->
    session_get (requests st + k)
      (Retry.primary_headers run subject (bootstraps st) session k) url
    = Ok resp ->
    forall fuel, (k < fuel)%nat ->
      fetch_page session_get run fuel st session url subject
      = Some (Ok (response_text resp,
                  Retry.primary_headers run subject (bootstraps st) session k,
                  mkState (requests st + k + 1) (bootstraps st + k)
                    (profiles_list st))).
Proof.
  induction k as [|k IH]; intros st session url subject resp Hfail Hok fuel Hfuel.
  - destruct fuel as [|fuel]; [lia|]. cbn [fetch_page].
    unfold fetch_search_pages. rewrite Nat.add_0_r in Hok.
    cbn [Retry.primary_headers] in *. rewrite Hok. cbn [bind].
    replace (requests st + 0 + 1)%nat with (S (requests st)) by lia.
    rewrite Nat.add_0_r. reflexivity.
  - destruct fuel as [|fuel]; [lia|]. cbn [fetch_page].
    unfold fetch_search_pages.
    destruct (Hfail 0%nat ltac:(lia)) as ((e & E0) & (v & Ev)).
    rewrite Nat.add_0_r in E0, Ev. cbn [Retry.primary_headers] in E0.
    rewrite E0. cbn [bind]. rewrite Ev.
    destruct v as [[[[u h] c] np] pages].
    cbn [requests bootstraps profiles_list].
    rewrite (IH (mkState (S (requests st)) (S (bootstraps st)) (profiles_list st))
               h url subject resp).
    + cbn [requests bootstraps profiles_list].
      rewrite (primary_headers_shift subject (bootstraps st) session _ k Ev).
      replace (requests st + S k + 1)%nat with (S (requests st) + k + 1)%nat by lia.
      replace (bootstraps st + S k)%nat with (S (bootstraps st) + k)%nat by lia.
      reflexivity.
    + intros j Hj. cbn [requests bootstraps].
      destruct (Hfail (S j) ltac:(lia)) as ((e' & E') & (v' & Ev')).
      rewrite (primary_headers_shift subject (bootstraps st) session _ j Ev) in E'.
      split.
      * exists e'. replace (S (requests st) + j)%nat with (requests st + S j)%nat by lia.
        exact E'.
      * exists v'. replace (S (bootstraps st) + j)%nat with (bootstraps st + S j)%nat by lia.
        exact Ev'.
    + cbn [requests bootstraps].
      rewrite (primary_headers_shift subject (bootstraps st) session _ k Ev) in Hok.
      replace (S (requests st) + k)%nat with (requests st + S k)%nat by lia.
      exact Hok.
    + lia.
Qed.

(** The crawl of the pages on a network that answers every request, with
    a parser whose entries are well formed: the [k]-th offset is fetched by
    the [k]-th request of the crawl, with the headers the crawl started with,
    and the ids of its answer are appended. *)
Lemma crawl_pages_returns (fuel : nat) (search_url subject : str)
    (pages : list Z) :
  (forall n h u, exists r, session_get n h u = Ok r) ->
  (forall text, is_ok (profile_ids (css profile_selector (HTMLParser text))) = true) ->
  (0 < fuel)%nat ->
  forall st session,
  exists pieces,
    crawl_pages HTMLParser session_get run fuel search_url st session pages subject
    = Some (Ok (mkState (requests st + List.length pages) (bootstraps st)
                  (profiles_list st ++ List.concat pieces)))
    /\ List.length pieces = List.length pages
    /\ forall k page,
         nth_error pages k = Some page ->
         exists r ids,
           session_get (requests st + k) session
             (search_url ++ lit "&lci=" ++ str_of_int page) = Ok r
           /\ profile_ids (css profile_selector (HTMLParser (response_text r)))
              = Ok ids
           /\ nth_error pieces k = Some ids.
Proof.
  intros Hnet Hparse Hfuel. destruct fuel as [|fuel]; [lia|].
  induction pages as [|page pages IH]; intros st session.
  - exists []. cbn [crawl_pages List.length List.concat].
    rewrite Nat.add_0_r, app_nil_r.
    split; [destruct st; reflexivity|]. split; [reflexivity|].
    intros k page H. destruct k; discriminate H.
  - cbn [crawl_pages fetch_page]. unfold fetch_search_pages.
    destruct (Hnet (requests st) session
                (search_url ++ lit "&lci=" ++ str_of_int page)) as (r & Er).
    rewrite Er. cbn [bind]. unfold get_business_profiles.
    pose proof (Hparse (response_text r)) as Hp.
    destruct (profile_ids (css profile_selector (HTMLParser (response_text r))))
      as [ids|] eqn:Eids; [|discriminate].
    cbn [bind requests bootstraps profiles_list].
    destruct (IH (mkState (S (requests st)) (bootstraps st) (profiles_list st ++ ids))
                session) as (pieces & E & Hlen & Hk).
    rewrite E. exists (ids :: pieces).
    cbn [requests bootstraps profiles_list List.length List.concat] in *.
    rewrite app_assoc.
    replace (requests st + S (List.length pages))%nat
      with (S (requests st) + List.length pages)%nat by lia.
    split; [reflexivity|]. split; [now rewrite Hlen|].
    intros k page' H. destruct k as [|k].
    + cbn [nth_error] in H. inversion H; subst page'.
      exists r, ids. rewrite Nat.add_0_r. auto.
    + cbn [nth_error] in H. destruct (Hk k page' H) as (r' & ids' & G1 & G2 & G3).
      exists r', ids'.
      replace (requests st + S k)%nat with (S (requests st) + k)%nat by lia.
      auto.
Qed.

End PrimaryMore.

(** X8.  The profile id of a listing entry is the second field of its
    [jsdata] attribute cut at semicolons.  An entry without the attribute
    raises [KeyError], and one whose [jsdata] holds no semicolon raises
    [IndexError]. *)
Theorem profile_id_second_field :
  forall (n : node),
    (html.lookup (lit "jsdata") (attributes n) = None ->
     primary_crawler.profile_id n = Raise KeyError)
    /\ (forall jsdata,
          html.lookup (lit "jsdata") (attributes n) = Some (Some jsdata) ->
          (contains (lit ";") jsdata = false ->
           primary_crawler.profile_id n = Raise IndexError)
          /\ (forall f0 f1 rest,
                jsdata = f0 ++ lit ";" ++ f1 ++ rest ->
                contains (lit ";") f0 = false ->
                contains (lit ";") f1 = false ->
                rest = [] \/ (exists r, rest = lit ";" ++ r) ->
                primary_crawler.profile_id n = Ok f1)).
Proof.
  intros n. unfold primary_crawler.profile_id, html.attribute. split.
  - intros ->. reflexivity.
  - intros jsdata ->. cbn [bind]. split.
    + intros H.
      change (split (lit ";") jsdata) with (Ok (split_scan (lit ";") 0 [] jsdata)).
      rewrite (split_scan_none (lit ";") jsdata [] H). reflexivity.
    + intros f0 f1 rest -> H0 H1 Hrest.
      destruct (split_semicolon_fields f0 f1 rest H0 H1 Hrest) as (more & ->).
      reflexivity.
Qed.

Lemma profile_id_second_field_witness :
  primary_crawler.profile_id (MoreExamples.entry "x;id-1;y") = Ok (lit "id-1").
Proof.
  destruct (profile_id_second_field (MoreExamples.entry "x;id-1;y")) as [_ H].
  destruct (H (lit "x;id-1;y") eq_refl) as [_ H2].
  apply (H2 (lit "x") (lit "id-1") (lit ";y")); try reflexivity.
  right. exists (lit "y"). reflexivity.
Defined.

(** X9.  [get_business_profiles] only appends: when it returns, the ids
    collected before are still in front, followed by one id for every listing
    entry of the page, in the order of the page; the counters of the crawl
    are untouched. *)
Theorem get_business_profiles_appends :
  forall (HTMLParser : str -> list node) (st st' : primary_crawler.state)
         (response_text : str),
    primary_crawler.get_business_profiles HTMLParser st response_text = Ok st' ->
    exists ids,
      primary_crawler.profiles_list st' = primary_crawler.profiles_list st ++ ids
      /\ Forall2 (fun n id => primary_crawler.profile_id n = Ok id)
           (css primary_crawler.profile_selector (HTMLParser response_text)) ids
      /\ primary_crawler.requests st' = primary_crawler.requests st
      /\ primary_crawler.bootstraps st' = primary_crawler.bootstraps st.
Proof.
  intros HTMLParser st st' response_text. unfold primary_crawler.get_business_profiles.
  destruct (primary_crawler.profile_ids _) as [ids|] eqn:E; [|discriminate].
  cbn [bind]. intros H; inversion H; subst. exists ids.
  repeat split; auto. now apply profile_ids_length.
Qed.

Lemma get_business_profiles_appends_witness :
  exists ids,
    [lit "id-0"; lit "id-1"; lit "id-2"] = [lit "id-0"] ++ ids
    /\ Forall2 (fun n id => primary_crawler.profile_id n = Ok id)
         (css primary_crawler.profile_selector (MoreExamples.two_entries (lit "page")))
         ids
    /\ 3%nat = 3%nat /\ 1%nat = 1%nat.
Proof.
  exact (get_business_profiles_appends MoreExamples.two_entries
           (primary_crawler.mkState 3 1 [lit "id-0"])
           (primary_crawler.mkState 3 1 [lit "id-0"; lit "id-1"; lit "id-2"])
           (lit "page") eq_refl).
Defined.

(** X10.  One listing entry without a usable [jsdata] is enough for
    [get_business_profiles] to raise: no id of the page is collected. *)
Theorem get_business_profiles_one_bad_entry :
  forall (HTMLParser : str -> list node) (st : primary_crawler.state)
         (response_text : str) (n : node),
    In n (css primary_crawler.profile_selector (HTMLParser response_text)) ->
    is_ok (primary_crawler.profile_id n) = false ->
    is_ok (primary_crawler.get_business_profiles HTMLParser st response_text)
    = false.
Proof.
  intros HTMLParser st response_text n Hin Hbad.
  unfold primary_crawler.get_business_profiles.
  pose proof (profile_ids_fails _ n Hin Hbad) as H.
  destruct (primary_crawler.profile_ids _); [discriminate | reflexivity].
Qed.

Lemma get_business_profiles_one_bad_entry_witness :
  is_ok (primary_crawler.get_business_profiles MoreExamples.bad_entry
           (primary_crawler.mkState 0 0 []) (lit "page")) = false.
Proof.
  apply (get_business_profiles_one_bad_entry MoreExamples.bad_entry _ _
           (MoreExamples.entry "no-field")).
  - right. left. reflexivity.
  - reflexivity.
Defined.

(** X11.  Without a second page the offsets of [p_handler] are 0, 20, 40,
    ...: the [k]-th is [20 * k], there are as many as pages of results, and
    an offset is among them exactly when it is below the result count. *)
Theorem offsets_without_second_page :
  forall (results_count : Z),
  exists pages,
    primary_crawler.pages_available false results_count = Ok pages
    /\ List.length pages = page_count results_count
    /\ (forall k, (k < page_count results_count)%nat ->
          nth_error pages k
          = Some (primary_crawler.RESULTS_PER_PAGE * Z.of_nat k)%Z)
    /\ (forall k, (k < page_count results_count)%nat <->
          (primary_crawler.RESULTS_PER_PAGE * Z.of_nat k < results_count)%Z).
Proof. exact pages_available_all. Qed.

(** X12.  With a second page already loaded and more than 40 results,
    the offsets are those of the result count without the first two. *)
Theorem offsets_after_second_page :
  forall (results_count : Z),
    (2 * primary_crawler.RESULTS_PER_PAGE < results_count)%Z ->
    primary_crawler.pages_available true results_count
    = Ok (skipn 2 (range0 results_count primary_crawler.RESULTS_PER_PAGE)).
Proof. exact pages_available_skip. Qed.

Lemma offsets_after_second_page_witness :
  primary_crawler.pages_available true 95 = Ok [40; 60; 80]%Z.
Proof.
  apply (offsets_after_second_page 95). reflexivity.
Defined.



(** X14.  A page whose first [k] requests fail, each failure being
    followed by a bootstrap that works, and whose next request is answered:
    the fetch returns the text of that answer after [k + 1] requests and [k]
    bootstraps, with the headers of the last bootstrap in force, still on the
    URL it started with, and the ids collected are untouched. *)
Theorem fetch_page_retries_until_answered :
  forall (session_get : nat -> headers -> str -> result response)
         (run : nat -> str -> result (str * headers * Z * bool * list str))
         (k : nat) (st : primary_crawler.state) (session : headers)
         (url subject : str) (resp : response),
    (forall j, (j < k)%nat ->
       (exists e, session_get (primary_crawler.requests st + j)
                    (Retry.primary_headers run subject
                       (primary_crawler.bootstraps st) session j)
                    url = Raise e)
       /\ exists v, run (primary_crawler.bootstraps st + j) subject = Ok v) ->
    session_get (primary_crawler.requests st + k)
      (Retry.primary_headers run subject (primary_crawler.bootstraps st) session k)
      url
    = Ok resp ->
    forall fuel, (k < fuel)%nat ->
      primary_crawler.fetch_page session_get run fuel st session url subject
      = Some (Ok (response_text resp,
                  Retry.primary_headers run subject
                    (primary_crawler.bootstraps st) session k,
                  primary_crawler.mkState
                    (primary_crawler.requests st + k + 1)
                    (primary_crawler.bootstraps st + k)
                    (primary_crawler.profiles_list st))).
Proof.
  intros session_get run k. apply fetch_page_retries.
Qed.

Lemma fetch_page_retries_until_answered_witness :
  primary_crawler.fetch_page MoreExamples.flaky MoreExamples.bootstrap_ok 3
    (primary_crawler.mkState 0 0 []) [(lit "user-agent", lit "first")]
    (lit "https://www.google.com/localservices/prolist?q&lci=0")
    (lit "dentist in Austin, TX, USA")
  = Some (Ok (lit "page", [], primary_crawler.mkState 3 2 [])).
Proof.
  apply (fetch_page_retries_until_answered MoreExamples.flaky
           MoreExamples.bootstrap_ok 2 (primary_crawler.mkState 0 0 [])
           [(lit "user-agent", lit "first")] _ _ (mkResponse 200 (lit "page"))).
  - intros j Hj. split.
    + exists ConnectionError. destruct j as [|[|j]]; [reflexivity | reflexivity | lia].
    + eexists. reflexivity.
  - reflexivity.
  - lia.
Defined.

(** X15.  On a network that answers every request, with pages whose
    entries are well formed, [p_handler] returns as soon as it has fuel for
    one try: it makes one request per offset and no bootstrap, the [k]-th
    request asking for the [k]-th offset with the headers it was given, and
    it returns the ids it was started with followed by the ids of the answers,
    page after page. *)
Theorem p_handler_returns_on_healthy_network :
  forall (HTMLParser : str -> list node)
         (session_get : nat -> headers -> str -> result response)
         (run : nat -> str -> result (str * headers * Z * bool * list str))
         (fuel : nat) (search_url : str) (search_headers : headers)
         (st : primary_crawler.state) (next_page : bool) (results_count : Z)
         (subject : str),
    (forall n h u, exists r, session_get n h u = Ok r) ->
    (forall text,
        is_ok (primary_crawler.profile_ids
                 (css primary_crawler.profile_selector (HTMLParser text))) = true) ->
    (0 < fuel)%nat ->
    next_page = false \/ (2 * primary_crawler.RESULTS_PER_PAGE < results_count)%Z ->
    exists pages pieces,
      primary_crawler.pages_available next_page results_count = Ok pages
      /\ primary_crawler.p_handler HTMLParser session_get run fuel search_url
           search_headers st next_page results_count subject
         = Some (Ok (primary_crawler.profiles_list st ++ List.concat pieces,
                     primary_crawler.mkState
                       (primary_crawler.requests st + List.length pages)
                       (primary_crawler.bootstraps st)
                       (primary_crawler.profiles_list st ++ List.concat pieces)))
      /\ List.length pieces = List.length pages
      /\ forall k page,
           nth_error pages k = Some page ->
           exists r ids,
             session_get (primary_crawler.requests st + k) search_headers
               (search_url ++ lit "&lci=" ++ str_of_int page) = Ok r
             /\ primary_crawler.profile_ids
                  (css primary_crawler.profile_selector
                     (HTMLParser (response_text r)))
                = Ok ids
             /\ nth_error pieces k = Some ids.
Proof.
  intros HTMLParser session_get run fuel search_url search_headers st next_page
    results_count subject Hnet Hparse Hfuel Hpages.
  assert (Hp : exists pages,
             primary_crawler.pages_available next_page results_count = Ok pages).
  { destruct Hpages as [->|H].
    - eexists. reflexivity.
    - destruct next_page; [|eexists; reflexivity].
      rewrite (pages_available_skip results_count H). eauto. }
  destruct Hp as (pages & Hp).
  destruct (crawl_pages_returns HTMLParser session_get run fuel search_url
              subject pages Hnet Hparse Hfuel st search_headers)
    as (pieces & E & Hlen & Hk).
  exists pages, pieces. split; [exact Hp|].
  split; [|split; [exact Hlen | exact Hk]].
  unfold primary_crawler.p_handler. rewrite Hp, E. reflexivity.
Qed.

Lemma p_handler_returns_on_healthy_network_witness :
  exists pages pieces,
    primary_crawler.pages_available false 47 = Ok pages
    /\ primary_crawler.p_handler MoreExamples.two_entries
         (Examples.answers (mkResponse 200 (lit "page")))
         MoreExamples.bootstrap_ok 1
         (lit "https://www.google.com/localservices/prolist?q") []
         (primary_crawler.mkState 0 0 []) false 47
         (lit "dentist in Austin, TX, USA")
       = Some (Ok ([] ++ List.concat pieces,
                   primary_crawler.mkState (0 + List.length pages) 0
                     ([] ++ List.concat pieces)))
    /\ List.length pieces = List.length pages
    /\ forall k page,
         nth_error pages k = Some page ->
         exists r ids,
           Examples.answers (mkResponse 200 (lit "page")) (0 + k)%nat []
             (lit "https://www.google.com/localservices/prolist?q"
              ++ lit "&lci=" ++ str_of_int page) = Ok r
           /\ primary_crawler.profile_ids
                (css primary_crawler.profile_selector
                   (MoreExamples.two_entries (response_text r)))
              = Ok ids
           /\ nth_error pieces k = Some ids.
Proof.
  apply (p_handler_returns_on_healthy_network MoreExamples.two_entries
           (Examples.answers (mkResponse 200 (lit "page")))
           MoreExamples.bootstrap_ok 1
           (lit "https://www.google.com/localservices/prolist?q") []
           (primary_crawler.mkState 0 0 []) false 47
           (lit "dentist in Austin, TX, USA")).
  - intros n h u. eexists. reflexivity.
  - intros text. reflexivity.
  - lia.
  - left. reflexivity.
Defined.

(** ** More on the secondary stage *)

Section SecondaryMore.

Import secondary_crawler.

Variable deref : ref -> str.

Lemma distinctb_sound (l : list str) :
  Distinct.distinctb l = true -> NoDup l.
Proof.
  induction l as [|x l IH]; simpl; intros H; [constructor|].
  apply andb_prop in H as [Hx Hl]. constructor; [|now apply IH].
  intros Hin. apply negb_true_iff in Hx.
  assert (existsb (str_eqb x) l = true); [|congruence].
  apply existsb_exists. exists x. split; [exact Hin | now apply str_eqb_eq].
Qed.

(** [index] finds every link of the list. *)
Lemma index_from_found (x : ref) (l : list ref) :
  forall i, In x l -> exists j, index_from (eq_ deref) i x l = Ok j.
Proof.
  induction l as [|y l IH]; intros i Hin; [destruct Hin|].
  simpl. destruct (eq_ deref y x) eqn:E; [eauto|].
  destruct Hin as [->|Hin]; [|now apply IH].
  rewrite eq_refl_ in E. discriminate.
Qed.

Lemma last_item_last (done : list ref) (x : ref) :
  last_item (done ++ [x]) = Ok x.
Proof. apply last_item_app. Qed.

Lemma last_item_some (l : list ref) :
  l <> [] -> exists z, last_item l = Ok z.
Proof.
  intros H. destruct (@exists_last _ l H) as (l' & z & ->).
  exists z. apply last_item_app.
Qed.

(** The loop never loses a link: whatever the strings behind the links,
    the batches it returns hold, in order, the batches made so far, the links
    of the batch in the making and the links still to visit. *)
Lemma split_loop_keeps (profiles_list : list ref) (rest : list ref) :
  forall (x : ref) (done : list ref) (arrays : list (list ref)) (sub_list : list ref),
    profiles_list = done ++ x :: rest ->
    Forall (fun b => b <> []) arrays ->
    exists batches,
      split_loop deref profiles_list (x :: rest) arrays sub_list = Ok batches
      /\ List.concat batches = List.concat arrays ++ sub_list ++ x :: rest
      /\ Forall (fun b => b <> []) batches.
Proof.
  assert (Hflush : forall arrays sub_list x,
             Forall (fun b : list ref => b <> []) arrays ->
             Forall (fun b : list ref => b <> []) (arrays ++ [sub_list ++ [x]])).
  { intros arrays sub_list x H. apply Forall_app. split; [exact H|].
    constructor; [|constructor]. destruct sub_list; discriminate. }
  assert (Hcat : forall arrays sub_list x (tl : list ref),
             List.concat (arrays ++ [sub_list ++ [x]]) ++ [] ++ tl
             = List.concat arrays ++ sub_list ++ x :: tl).
  { intros. rewrite concat_app. simpl. rewrite app_nil_r, <- !app_assoc.
    reflexivity. }
  induction rest as [|y rest IH]; intros x done arrays sub_list E Hne.
  - assert (R : split_loop deref profiles_list [x] arrays sub_list
                = Ok (arrays ++ [sub_list ++ [x]])).
    { rewrite split_loop_step.
      destruct (index_from_found x profiles_list 0) as (i & Hi).
      { rewrite E. apply in_or_app. right. now left. }
      unfold index. rewrite Hi. cbn [bind].
      destruct (Nat.eqb ((i + 1) mod CALL_RATE) 0); [reflexivity|].
      rewrite E, last_item_last. cbn [bind]. unfold is_.
      now rewrite Nat.eqb_refl. }
    exists (arrays ++ [sub_list ++ [x]]). split; [exact R|]. split.
    + rewrite <- (Hcat arrays sub_list x []). now rewrite app_nil_r.
    + now apply Hflush.
  - rewrite split_loop_step.
    destruct (index_from_found x profiles_list 0) as (i & Hi).
    { rewrite E. apply in_or_app. right. now left. }
    unfold index. rewrite Hi. cbn [bind].
    assert (E' : profiles_list = (done ++ [x]) ++ y :: rest).
    { rewrite E, <- app_assoc. reflexivity. }
    destruct (last_item_some profiles_list) as (z & ->).
    { rewrite E. destruct done; discriminate. }
    cbn [bind].
    destruct (Nat.eqb ((i + 1) mod CALL_RATE) 0); [|destruct (is_ x z)].
    + destruct (IH y (done ++ [x]) (arrays ++ [sub_list ++ [x]]) [] E'
                  (Hflush _ _ _ Hne)) as (bs & R & Hc & Hn).
      exists bs. rewrite R, Hc. repeat split; auto.
    + destruct (IH y (done ++ [x]) (arrays ++ [sub_list ++ [x]]) [] E'
                  (Hflush _ _ _ Hne)) as (bs & R & Hc & Hn).
      exists bs. rewrite R, Hc. repeat split; auto.
    + destruct (IH y (done ++ [x]) arrays (sub_list ++ [x]) E' Hne)
        as (bs & R & Hc & Hn).
      exists bs. rewrite R, Hc. repeat split; auto.
      now rewrite <- !app_assoc.
Qed.

Lemma create_profiles_array_keeps (profiles_list : list ref) :
  exists batches,
    create_profiles_array deref profiles_list = Ok batches
    /\ List.concat batches = profiles_list
    /\ (profiles_list <> [] -> Forall (fun b => b <> []) batches).
Proof.
  unfold create_profiles_array.
  destruct (Nat.leb (List.length profiles_list) CALL_RATE).
  - exists [profiles_list]. simpl. rewrite app_nil_r. repeat split; auto.
  - destruct profiles_list as [|x rest].
    + exists []. repeat split; auto; congruence.
    + destruct (split_loop_keeps (x :: rest) rest x [] [] [] eq_refl
                  (Forall_nil _)) as (bs & R & Hc & Hn).
      exists bs. rewrite R. repeat split; auto.
Qed.

End SecondaryMore.

(** X16.  [create_profiles_array] never loses, repeats or reorders a link,
    whatever the links: it returns batches whose concatenation is the list it
    was given, and none of them is empty unless the list is. *)
Theorem create_profiles_array_keeps_every_link :
  forall (deref : secondary_crawler.ref -> str)
         (profiles_list : list secondary_crawler.ref),
  exists batches,
    secondary_crawler.create_profiles_array deref profiles_list = Ok batches
    /\ List.concat batches = profiles_list
    /\ (profiles_list <> [] -> Forall (fun b => b <> []) batches).
Proof. exact create_profiles_array_keeps. Qed.

(** X17.  For links that are pairwise distinct strings the batches are
    contiguous and in order, all of [CALL_RATE] = 120 links except the last
    one, which has at most 120. *)
Theorem create_profiles_array_of_distinct_links :
  forall (deref : secondary_crawler.ref -> str)
         (profiles_list : list secondary_crawler.ref),
    NoDup (map deref profiles_list) ->
    exists batches final,
      secondary_crawler.create_profiles_array deref profiles_list
      = Ok (batches ++ [final])
      /\ Forall full_batch batches
      /\ (List.length final <= secondary_crawler.CALL_RATE)%nat
      /\ List.concat (batches ++ [final]) = profiles_list.
Proof. exact create_profiles_array_distinct. Qed.

Lemma create_profiles_array_of_distinct_links_witness :
  exists batches final,
    secondary_crawler.create_profiles_array Examples.link (seq 0 250)
    = Ok (batches ++ [final])
    /\ Forall full_batch batches
    /\ (List.length final <= secondary_crawler.CALL_RATE)%nat
    /\ List.concat (batches ++ [final]) = seq 0 250.
Proof.
  apply (create_profiles_array_of_distinct_links Examples.link (seq 0 250)).
  apply distinctb_sound. vm_compute. reflexivity.
Defined.

(** ** Waves, records and runs of the secondary stage *)

Section Waves.

Import secondary_crawler.

Variable deref : ref -> str.
Variable HTMLParser : str -> list node.
Variable session_get : nat -> headers -> str -> result response.
Variable ua_random : nat -> str.
Variable cls : class_object.

(** The state after the records [ds] were appended to the list at [l]. *)
Lemma append_all_lists (l : loc) (ds : list dict) :
  forall st,
    let st' := fold_left (fun s d => append s l d) ds st in
    lists st' l = lists st l ++ ds
    /\ (forall l', l' <> l -> lists st' l' = lists st l')
    /\ attempts st' = attempts st /\ draws st' = draws st.
Proof.
  induction ds as [|d ds IH]; intros st; cbn [fold_left]; cbv zeta.
  - rewrite app_nil_r. auto.
  - specialize (IH (append st l d)). cbv zeta in IH.
    destruct IH as (H1 & H2 & H3 & H4).
    assert (A1 : lists (append st l d) l = lists st l ++ [d]).
    { unfold append. cbn [lists]. now rewrite Nat.eqb_refl. }
    assert (A2 : forall l', l' <> l -> lists (append st l d) l' = lists st l').
    { intros l' Hl'. unfold append. cbn [lists].
      apply Nat.eqb_neq in Hl'. now rewrite Hl'. }
    rewrite H1, H3, H4, A1, <- app_assoc. repeat split; auto.
    intros l' Hl'. rewrite (H2 l' Hl'). now apply A2.
Qed.

(** [get_business_data] on responses that all give a record, followed by
    anything. *)
Lemma get_business_data_prefix (self : instance)
    (good : list (str * ref)) (ds : list dict) :
  Forall2 (fun rp d => extract deref HTMLParser (fst rp) (snd rp) = Ok d) good ds ->
  forall st tail,
    get_business_data deref HTMLParser cls self st (good ++ tail)
    = get_business_data deref HTMLParser cls self
        (fold_left (fun s d => append s (get_business_info_list cls self) d) ds st)
        tail.
Proof.
  induction 1 as [|[source_code p] d good ds Hd _ IH]; intros st tail;
    [reflexivity|].
  cbn [app get_business_data fold_left]. cbn [fst snd] in Hd. rewrite Hd.
  apply IH.
Qed.

Lemma gather_fails (n : nat) (session : headers) (batch : list ref) :
  batch <> [] ->
  (forall p, is_ok (fetch_businesses deref session_get n session p) = false) ->
  is_ok (gather deref session_get n session batch) = false.
Proof.
  intros Hne H. destruct batch as [|p batch]; [congruence|].
  cbn [gather]. specialize (H p).
  destruct (fetch_businesses deref session_get n session p); [discriminate|].
  reflexivity.
Qed.

(** A wave that fails at every try never returns. *)
Lemma wave_down (fuel : nat) (batch : list ref) :
  (forall n h, is_ok (gather deref session_get n h batch) = false) ->
  forall st session,
    wave deref session_get ua_random fuel st session batch = None.
Proof.
  intros H. induction fuel as [|fuel IH]; intros st session; [reflexivity|].
  cbn [wave]. specialize (H (attempts st) session).
  destruct (gather deref session_get (attempts st) session batch);
    [discriminate|].
  unfold new_session. apply IH.
Qed.

Lemma secondary_headers_shift (d0 : nat) (session : headers) (j : nat) :
  Retry.secondary_headers ua_random d0 session (S j)
  = Retry.secondary_headers ua_random (S d0)
      (setitem (lit "User-Agent") (ua_random d0) SECONDARY_STAGE_HEADERS) j.
Proof.
  destruct j as [|j]; unfold Retry.secondary_headers.
  - now rewrite Nat.add_0_r.
  - now replace (d0 + S j)%nat with (S d0 + j)%nat by lia.
Qed.

(** [k] failed tries of a wave, then a try in which every fetch works. *)
Lemma wave_retries (k : nat) :
  forall st session batch rs,
    (forall j, (j < k)%nat ->
       is_ok (gather deref session_get (attempts st + j)
                (Retry.secondary_headers ua_random (draws st) session j) batch)
       = false) ->
    gather deref session_get (attempts st + k)
      (Retry.secondary_headers ua_random (draws st) session k) batch
    = Ok rs ->
    forall fuel, (k < fuel)%nat ->
      wave deref session_get ua_random fuel st session batch
      = Some (rs, Retry.secondary_headers ua_random (draws st) session k,
              mkState (lists st) (attempts st + k + 1) (draws st + k)).
Proof.
  induction k as [|k IH]; intros st session batch rs Hfail Hok fuel Hfuel.
  - destruct fuel as [|fuel]; [lia|]. cbn [wave].
    rewrite Nat.add_0_r in Hok. cbn [Retry.secondary_headers] in *.
    rewrite Hok.
    replace (attempts st + 0 + 1)%nat with (S (attempts st)) by lia.
    now rewrite Nat.add_0_r.
  - destruct fuel as [|fuel]; [lia|]. cbn [wave].
    pose proof (Hfail 0%nat ltac:(lia)) as H0.
    rewrite Nat.add_0_r in H0. cbn [Retry.secondary_headers] in H0.
    destruct (gather deref session_get (attempts st) session batch);
      [discriminate|].
    unfold new_session. cbn [lists attempts draws].
    rewrite (IH (mkState (lists st) (S (attempts st)) (S (draws st)))
               (setitem (lit "User-Agent") (ua_random (draws st))
                  SECONDARY_STAGE_HEADERS) batch rs).
    + cbn [lists attempts draws]. rewrite secondary_headers_shift.
      replace (attempts st + S k + 1)%nat with (S (attempts st) + k + 1)%nat by lia.
      replace (draws st + S k)%nat with (S (draws st) + k)%nat by lia.
      reflexivity.
    + intros j Hj. cbn [attempts draws].
      pose proof (Hfail (S j) ltac:(lia)) as H.
      rewrite secondary_headers_shift in H.
      now replace (S (attempts st) + j)%nat with (attempts st + S j)%nat by lia.
    + cbn [attempts draws]. rewrite secondary_headers_shift in Hok.
      now replace (S (attempts st) + k)%nat with (attempts st + S k)%nat by lia.
    + lia.
Qed.

Lemma healthy_wave (self : instance) (batch : list ref) (fuel : nat) :
  Retry.healthy HTMLParser session_get -> (0 < fuel)%nat ->
  forall st session,
  exists ds st',
    wave deref session_get ua_random fuel st session batch
    = Some (map (fun p => (match session_get (attempts st) session (deref p) with
                           | Ok r => response_text r
                           | Raise _ => []
                           end, p)) batch,
            session, mkState (lists st) (S (attempts st)) (draws st))
    /\ get_business_data deref HTMLParser cls self
         (mkState (lists st) (S (attempts st)) (draws st))
         (map (fun p => (match session_get (attempts st) session (deref p) with
                         | Ok r => response_text r
                         | Raise _ => []
                         end, p)) batch)
       = (Ok tt, st')
    /\ lists st' (get_business_info_list cls self)
       = lists st (get_business_info_list cls self) ++ ds
    /\ map profile ds = map deref batch
    /\ attempts st' = S (attempts st) /\ draws st' = draws st.
Proof.
  intros (Hnet & Hparse & Hrange) Hfuel st session.
  destruct fuel as [|fuel]; [lia|].
  set (rs := map (fun p => (match session_get (attempts st) session (deref p) with
                            | Ok r => response_text r
                            | Raise _ => []
                            end, p)) batch).
  assert (G : gather deref session_get (attempts st) session batch = Ok rs).
  { subst rs. induction batch as [|p batch IHb]; [reflexivity|].
    cbn [gather map]. unfold fetch_businesses.
    destruct (Hnet (attempts st) session (deref p)) as (r & -> & Es).
    cbn [bind]. rewrite Es. cbn [negb Z.eqb Pos.eqb bind]. rewrite IHb.
    reflexivity. }
  assert (X : exists ds,
             Forall2 (fun rp d => extract deref HTMLParser (fst rp) (snd rp) = Ok d)
               rs ds).
  { subst rs. clear G. induction batch as [|p batch IHb].
    - exists []. constructor.
    - destruct IHb as (ds & Hds).
      destruct (Hnet (attempts st) session (deref p)) as (r & Er & _).
      destruct (extract_all_present deref HTMLParser (response_text r) p)
        as (d & Ed & _).
      { intros sel Hsel. eapply Hparse; eauto. }
      { intros x Hx. eapply Hrange; eauto. }
      exists (d :: ds). cbn [map]. rewrite Er. constructor; [exact Ed | exact Hds]. }
  destruct X as (ds & Hds).
  set (st1 := mkState (lists st) (S (attempts st)) (draws st)).
  exists ds, (fold_left (fun s d => append s (get_business_info_list cls self) d) ds st1).
  cbn [wave]. rewrite G. split; [reflexivity|].
  pose proof (get_business_data_prefix self rs ds Hds st1 []) as P.
  rewrite app_nil_r in P. cbn [get_business_data] in P.
  split; [exact P|].
  destruct (append_all_lists (get_business_info_list cls self) ds st1)
    as (L1 & _ & L3 & L4).
  cbv zeta in *. repeat split; auto.
  assert (Hs : map snd rs = batch).
  { subst rs. rewrite map_map. cbn [snd]. apply map_id. }
  rewrite <- Hs. clear - Hds.
  induction Hds as [|[t p] d rs ds Hd _ IH]; [reflexivity|].
  cbn [map snd]. rewrite IH. f_equal.
  cbn [fst snd] in Hd. exact (extract_profile deref HTMLParser t p d Hd).
Qed.

Lemma healthy_waves (self : instance) (fuel : nat)
    (profiles_arrays : list (list ref)) :
  Retry.healthy HTMLParser session_get -> (0 < fuel)%nat ->
  forall st session,
  exists ds st',
    waves deref HTMLParser session_get ua_random cls fuel self st session
      profiles_arrays = Some (Ok tt, st')
    /\ lists st' (get_business_info_list cls self)
       = lists st (get_business_info_list cls self) ++ ds
    /\ map profile ds = map deref (List.concat profiles_arrays)
    /\ attempts st' = (attempts st + List.length profiles_arrays)%nat
    /\ draws st' = draws st.
Proof.
  intros Hh Hfuel.
  induction profiles_arrays as [|batch rest IH]; intros st session.
  - exists [], st. cbn [waves List.concat List.length map].
    rewrite app_nil_r, Nat.add_0_r. auto.
  - destruct (healthy_wave self batch fuel Hh Hfuel st session)
      as (ds1 & st1 & W & G & L1 & P1 & A1 & D1).
    destruct (IH st1 session) as (ds2 & st2 & W2 & L2 & P2 & A2 & D2).
    exists (ds1 ++ ds2), st2.
    cbn [waves]. rewrite W, G, W2.
    split; [reflexivity|].
    rewrite L2, L1, <- app_assoc.
    cbn [List.concat List.length].
    rewrite (map_app profile), (map_app deref), P1, P2, A2, A1, D2, D1.
    repeat split; auto; lia.
Qed.

End Waves.

(** X18.  [get_business_data] stops at the first response that gives no
    record and raises its exception, and what it appended before stays: the
    list holds what it held, followed by the records of the responses in front
    of the failing one; the responses behind it are not looked at, and no
    other list changes. *)
Theorem get_business_data_keeps_records_before_failure :
  forall (deref : secondary_crawler.ref -> str) (HTMLParser : str -> list node)
         (cls : secondary_crawler.class_object) (self : secondary_crawler.instance)
         (good : list (str * secondary_crawler.ref)) (ds : list secondary_crawler.dict)
         (bad : str * secondary_crawler.ref)
         (rest : list (str * secondary_crawler.ref)) (e : exn)
         (st : secondary_crawler.state),
    Forall2 (fun rp d =>
               secondary_crawler.extract deref HTMLParser (fst rp) (snd rp) = Ok d)
      good ds ->
    secondary_crawler.extract deref HTMLParser (fst bad) (snd bad) = Raise e ->
    exists st',
      secondary_crawler.get_business_data deref HTMLParser cls self st
        (good ++ bad :: rest) = (Raise e, st')
      /\ secondary_crawler.lists st' (secondary_crawler.get_business_info_list cls self)
         = secondary_crawler.lists st (secondary_crawler.get_business_info_list cls self)
           ++ ds
      /\ forall l, l <> secondary_crawler.get_business_info_list cls self ->
                   secondary_crawler.lists st' l = secondary_crawler.lists st l.
Proof.
  intros deref HTMLParser cls self good ds [source_code p] rest e st Hgood Hbad.
  exists (fold_left
            (fun s d => secondary_crawler.append s
                          (secondary_crawler.get_business_info_list cls self) d)
            ds st).
  rewrite (get_business_data_prefix deref HTMLParser cls self good ds Hgood).
  cbn [secondary_crawler.get_business_data]. cbn [fst snd] in Hbad. rewrite Hbad.
  destruct (append_all_lists (secondary_crawler.get_business_info_list cls self) ds st)
    as (L1 & L2 & _).
  cbv zeta in *. auto.
Qed.

Lemma get_business_data_keeps_records_before_failure_witness :
  exists d st',
    secondary_crawler.extract Examples.link Examples.parser (lit "full") 1 = Ok d
    /\ secondary_crawler.get_business_data Examples.link Examples.parser
         Examples.the_class secondary_crawler.new_instance Examples.fresh_state
         ([(lit "full", 1)] ++ (lit "no-website", 2) :: [(lit "full", 3)])
       = (Raise AttributeError, st')
    /\ secondary_crawler.lists st' 0 = [] ++ [d].
Proof.
  assert (H : exists d,
             secondary_crawler.extract Examples.link Examples.parser (lit "full") 1
             = Ok d) by (eexists; reflexivity).
  destruct H as (d & Hd). exists d.
  destruct (get_business_data_keeps_records_before_failure
              Examples.link Examples.parser Examples.the_class
              secondary_crawler.new_instance [(lit "full", 1)] [d]
              (lit "no-website", 2) [(lit "full", 3)] AttributeError
              Examples.fresh_state) as (st' & G & L & _).
  - constructor; [exact Hd | constructor].
  - reflexivity.
  - exists st'. repeat split; auto.
Defined.

(** X19.  A wave whose first [k] tries fail and whose next try has every
    fetch answered with 200 returns the responses of that try alone, one per
    link and in the order of the batch; it has made [k + 1] tries and drawn
    [k] user agents, the last one being in force, and no list has changed. *)
Theorem wave_retries_until_answered :
  forall (deref : secondary_crawler.ref -> str)
         (session_get : nat -> headers -> str -> result response)
         (ua_random : nat -> str) (k : nat) (st : secondary_crawler.state)
         (session : headers) (batch : list secondary_crawler.ref)
         (rs : list (str * secondary_crawler.ref)),
    (forall j, (j < k)%nat ->
       is_ok (secondary_crawler.gather deref session_get
                (secondary_crawler.attempts st + j)
                (Retry.secondary_headers ua_random (secondary_crawler.draws st)
                   session j) batch)
       = false) ->
    secondary_crawler.gather deref session_get (secondary_crawler.attempts st + k)
      (Retry.secondary_headers ua_random (secondary_crawler.draws st) session k)
      batch
    = Ok rs ->
    forall fuel, (k < fuel)%nat ->
      secondary_crawler.wave deref session_get ua_random fuel st session batch
      = Some (rs,
              Retry.secondary_headers ua_random (secondary_crawler.draws st)
                session k,
              secondary_crawler.mkState (secondary_crawler.lists st)
                (secondary_crawler.attempts st + k + 1)
                (secondary_crawler.draws st + k))
      /\ map snd rs = batch.
Proof.
  intros deref session_get ua_random k st session batch rs Hfail Hok fuel Hfuel.
  split.
  - now apply wave_retries.
  - eapply gather_links; eauto.
Qed.

Lemma wave_retries_until_answered_witness :
  secondary_crawler.wave Examples.link MoreExamples.flaky Examples.user_agent 3
    Examples.fresh_state [] [1; 2]
  = Some ([(lit "page", 1); (lit "page", 2)],
          Retry.secondary_headers Examples.user_agent 0 [] 2,
          secondary_crawler.mkState (secondary_crawler.lists Examples.fresh_state)
            (0 + 2 + 1) (0 + 2))
  /\ map snd [(lit "page", 1); (lit "page", 2)] = [1; 2].
Proof.
  apply (wave_retries_until_answered Examples.link MoreExamples.flaky
           Examples.user_agent 2 Examples.fresh_state [] [1; 2]).
  - intros j Hj. destruct j as [|[|j]]; [reflexivity | reflexivity | lia].
  - reflexivity.
  - lia.
Defined.

(** X20.  The retry loop of [s_handler] has no bound: while every fetch
    fails -- the request itself or a status other than 200 -- a call with at
    least one link never returns, whatever the fuel. *)
Theorem s_handler_never_gives_up :
  forall (deref : secondary_crawler.ref -> str) (HTMLParser : str -> list node)
         (session_get : nat -> headers -> str -> result response)
         (ua_random : nat -> str) (cls : secondary_crawler.class_object)
         (self : secondary_crawler.instance) (st : secondary_crawler.state)
         (profiles_list : list secondary_crawler.ref),
    (forall n h p,
        is_ok (secondary_crawler.fetch_businesses deref session_get n h p) = false) ->
    profiles_list <> [] ->
    forall fuel,
      secondary_crawler.s_handler deref HTMLParser session_get ua_random cls
        fuel self st profiles_list = None.
Proof.
  intros deref HTMLParser session_get ua_random cls self st profiles_list
    Hdown Hne fuel.
  unfold secondary_crawler.s_handler, secondary_crawler.new_session.
  destruct (create_profiles_array_keeps deref profiles_list)
    as (batches & -> & Hc & Hn).
  specialize (Hn Hne).
  destruct batches as [|batch rest].
  - simpl in Hc. congruence.
  - cbn [secondary_crawler.waves]. inversion Hn; subst.
    rewrite (wave_down deref session_get ua_random fuel batch); [reflexivity|].
    intros n h. apply gather_fails; auto.
Qed.

Lemma s_handler_never_gives_up_witness :
  secondary_crawler.s_handler Examples.link Examples.parser
    (Examples.answers Examples.rate_limited) Examples.user_agent
    Examples.the_class 1000 secondary_crawler.new_instance Examples.fresh_state
    [1; 2; 3]
  = None.
Proof.
  apply (s_handler_never_gives_up Examples.link Examples.parser
           (Examples.answers Examples.rate_limited)).
  - intros n h p. reflexivity.
  - discriminate.
Defined.

(** X21.  On a network that answers every request with 200, with pages
    that have every marker and a reviews text whose digit run has at most
    4300 digits, [s_handler] returns as soon as it has fuel for one try per
    wave: it returns the list the instance reads, holding what it held before
    followed by one record per link, in the order of the links; it makes one
    try per batch and draws one user agent. *)
Theorem s_handler_returns_on_healthy_network :
  forall (deref : secondary_crawler.ref -> str) (HTMLParser : str -> list node)
         (session_get : nat -> headers -> str -> result response)
         (ua_random : nat -> str) (cls : secondary_crawler.class_object)
         (fuel : nat) (self : secondary_crawler.instance)
         (st : secondary_crawler.state)
         (profiles_list : list secondary_crawler.ref),
    Retry.healthy HTMLParser session_get ->
    (0 < fuel)%nat ->
    exists batches ds st',
      secondary_crawler.create_profiles_array deref profiles_list = Ok batches
      /\ secondary_crawler.s_handler deref HTMLParser session_get ua_random cls
           fuel self st profiles_list
         = Some (Ok (secondary_crawler.get_business_info_list cls self), st')
      /\ secondary_crawler.lists st' (secondary_crawler.get_business_info_list cls self)
         = secondary_crawler.lists st (secondary_crawler.get_business_info_list cls self)
           ++ ds
      /\ map profile ds = map deref profiles_list
      /\ secondary_crawler.attempts st'
         = (secondary_crawler.attempts st + List.length batches)%nat
      /\ secondary_crawler.draws st' = S (secondary_crawler.draws st).
Proof.
  intros deref HTMLParser session_get ua_random cls fuel self st profiles_list
    Hh Hfuel.
  destruct (create_profiles_array_keeps deref profiles_list)
    as (batches & C & Hc & _).
  unfold secondary_crawler.s_handler, secondary_crawler.new_session.
  rewrite C.
  destruct (healthy_waves deref HTMLParser session_get ua_random cls self fuel
              batches Hh Hfuel
              (secondary_crawler.mkState (secondary_crawler.lists st)
                 (secondary_crawler.attempts st) (S (secondary_crawler.draws st)))
              (secondary_crawler.setitem (lit "User-Agent")
                 (ua_random (secondary_crawler.draws st))
                 secondary_crawler.SECONDARY_STAGE_HEADERS))
    as (ds & st' & W & L & P & A & D).
  exists batches, ds, st'. rewrite W.
  cbn [secondary_crawler.lists secondary_crawler.attempts secondary_crawler.draws] in *.
  rewrite Hc in P. repeat split; auto.
Qed.

Lemma s_handler_returns_on_healthy_network_witness :
  exists batches ds st',
    secondary_crawler.create_profiles_array Examples.link [1; 2; 3] = Ok batches
    /\ secondary_crawler.s_handler Examples.link Examples.parser
         (Examples.answers (mkResponse 200 (lit "full"))) Examples.user_agent
         Examples.the_class 1 secondary_crawler.new_instance
         Examples.fresh_state [1; 2; 3]
       = Some (Ok 0%nat, st')
    /\ secondary_crawler.lists st' 0 = [] ++ ds
    /\ map profile ds = map Examples.link [1; 2; 3]
    /\ secondary_crawler.attempts st' = (0 + List.length batches)%nat
    /\ secondary_crawler.draws st' = 1%nat.
Proof.
  apply (s_handler_returns_on_healthy_network Examples.link Examples.parser
           (Examples.answers (mkResponse 200 (lit "full"))) Examples.user_agent
           Examples.the_class 1 secondary_crawler.new_instance
           Examples.fresh_state [1; 2; 3]).
  - split; [|split].
    + intros n h u. eexists. split; reflexivity.
    + intros n h u r E sel Hsel. inversion E; subst.
      unfold secondary_crawler.markers in Hsel. simpl in Hsel.
      repeat (destruct Hsel as [<-|Hsel]; [discriminate|]). destruct Hsel.
    + intros n h u r x E Hx. inversion E; subst.
      vm_compute in Hx. inversion Hx; subst. reflexivity.
  - lia.
Defined.

(** X22.  Whatever the network and however many waves were retried, when
    [s_handler] returns a list it is the list the instance reads, holding
    what it held before the call followed by one record for every link of
    every batch, in order: failed waves leave nothing behind. *)
Theorem s_handler_appends_the_records_of_the_call :
  forall (deref : secondary_crawler.ref -> str) (HTMLParser : str -> list node)
         (session_get : nat -> headers -> str -> result response)
         (ua_random : nat -> str) (cls : secondary_crawler.class_object)
         (fuel : nat) (self : secondary_crawler.instance)
         (st st' : secondary_crawler.state)
         (profiles_list : list secondary_crawler.ref) (l : secondary_crawler.loc),
    secondary_crawler.s_handler deref HTMLParser session_get ua_random cls fuel
      self st profiles_list = Some (Ok l, st') ->
    l = secondary_crawler.get_business_info_list cls self
    /\ exists ds,
         secondary_crawler.lists st' l = secondary_crawler.lists st l ++ ds
         /\ map profile ds = map deref profiles_list.
Proof.
  intros deref HTMLParser session_get ua_random cls fuel self st st'
    profiles_list l H.
  destruct (s_handler_accumulates deref HTMLParser session_get ua_random cls
              fuel self st st' profiles_list l H)
    as (El & arrays & ds & C & L & P).
  split; [exact El|]. exists ds. split; [exact L|].
  destruct (create_profiles_array_keeps deref profiles_list)
    as (batches & C' & Hc & _).
  rewrite C in C'. inversion C'; subst batches. now rewrite <- Hc.
Qed.

Lemma s_handler_appends_the_records_of_the_call_witness :
  exists st',
    secondary_crawler.s_handler Examples.link Examples.parser
      MoreExamples.flaky_full Examples.user_agent Examples.the_class 3
      secondary_crawler.new_instance Examples.fresh_state [1; 2]
    = Some (Ok 0%nat, st')
    /\ exists ds,
         secondary_crawler.lists st' 0 = [] ++ ds
         /\ map profile ds = map Examples.link [1; 2].
Proof.
  assert (H : exists st',
             secondary_crawler.s_handler Examples.link Examples.parser
               MoreExamples.flaky_full Examples.user_agent Examples.the_class 3
               secondary_crawler.new_instance Examples.fresh_state [1; 2]
             = Some (Ok 0%nat, st')) by (eexists; reflexivity).
  destruct H as (st' & H). exists st'. split; [exact H|].
  apply (s_handler_appends_the_records_of_the_call _ _ _ _ _ _ _ _ _ _ _ H).
Defined.

(** X23.  The extractor raises [AttributeError] as soon as one of the
    seven markers has no match.  When all seven have one, it builds a record,
    which carries the link it was called with, if the digit run of the
    reviews text has at most 4300 digits, and raises the [ValueError] of
    [int] if the run is longer. *)
Theorem extract_needs_every_marker :
  forall (deref : secondary_crawler.ref -> str) (HTMLParser : str -> list node)
         (source_code : str) (p : secondary_crawler.ref),
    ((forall sel, In sel secondary_crawler.markers ->
                  css_first sel (HTMLParser source_code) <> None) ->
     forall x,
       css_first secondary_crawler.reviews_sel (HTMLParser source_code) = Some x ->
       if digit_run_in_range (text x)
       then exists d, secondary_crawler.extract deref HTMLParser source_code p = Ok d
                      /\ profile d = deref p
       else secondary_crawler.extract deref HTMLParser source_code p
            = Raise ValueError)
    /\ ((exists sel, In sel secondary_crawler.markers
                     /\ css_first sel (HTMLParser source_code) = None) ->
        secondary_crawler.extract deref HTMLParser source_code p
        = Raise AttributeError).
Proof.
  intros deref HTMLParser source_code p. split.
  - intros H x Hx. destruct (digit_run_in_range (text x)) eqn:R.
    + destruct (extract_all_present deref HTMLParser source_code p H)
        as (d & E & Hp & _).
      { intros n Hn. rewrite Hx in Hn. inversion Hn; subst. exact R. }
      eauto.
    + exact (extract_long_run deref HTMLParser source_code p x H Hx R).
  - intros (sel & Hin & Hnone).
    exact (extract_missing_marker deref HTMLParser source_code p sel Hin Hnone).
Qed.

Lemma extract_needs_every_marker_witness :
  secondary_crawler.extract Examples.link Examples.parser (lit "no-website") 7
  = Raise AttributeError.
Proof.
  destruct (extract_needs_every_marker Examples.link Examples.parser
              (lit "no-website") 7) as [_ H].
  apply H. exists secondary_crawler.website_sel. split.
  - right. left. reflexivity.
  - reflexivity.
Defined.

(** ** headers.py *)

Section ResultsCount.

Import HeadersSpec.

Lemma space_not_digit (c : ascii) : re_space c = true -> is_digit c = false.
Proof.
  destruct c as [[] [] [] [] [] [] [] []]; vm_compute; congruence.
Qed.

(** A match being read always comes out. *)
Lemma findall_reading (s : str) :
  forall ps r, findall_spaced_digits ps (Some r) s <> [].
Proof.
  induction s as [|c s IH]; intros ps r; cbn [findall_spaced_digits].
  - discriminate.
  - destruct (is_digit c); [apply IH | discriminate].
Qed.

(** Without a digit behind white space there is no match. *)
Lemma findall_none (s : str) :
  forall ps,
    (ps = true -> match s with [] => True | d :: _ => is_digit d = false end) ->
    ~ spaced_digit s ->
    findall_spaced_digits ps None s = [].
Proof.
  induction s as [|c s IH]; intros ps Hhead Hno; [reflexivity|].
  cbn [findall_spaced_digits].
  assert (E : ps && is_digit c = false).
  { destruct ps; [|reflexivity]. simpl. now apply Hhead. }
  rewrite E. apply IH.
  - intros Hsp. destruct s as [|d s]; [exact I|].
    destruct (is_digit d) eqn:Hd; [|reflexivity].
    exfalso. apply Hno. exists [], c, d, s. auto.
  - intros (a & x & d & b & Es & Hx & Hd). apply Hno.
    exists (c :: a), x, d, b. rewrite Es. auto.
Qed.

(** With one there is a match. *)
Lemma findall_some (s : str) :
  forall ps,
    (ps = true /\ match s with [] => False | d :: _ => is_digit d = true end)
    \/ spaced_digit s ->
    findall_spaced_digits ps None s <> [].
Proof.
  induction s as [|c s IH]; intros ps H.
  - destruct H as [[_ []]|(a & x & d & b & E & _)].
    destruct a; discriminate.
  - cbn [findall_spaced_digits].
    destruct (ps && is_digit c) eqn:E; [apply findall_reading|].
    apply IH. destruct H as [[-> Hc]|(a & x & d & b & Es & Hx & Hd)].
    + simpl in E. congruence.
    + destruct a as [|y a].
      * inversion Es; subst. left. split; [exact Hx | exact Hd].
      * inversion Es; subst. right. exists a, x, d, b. auto.
Qed.

(** Every match is a non-empty run of digits. *)
Lemma findall_digits (s : str) :
  forall ps cur,
    match cur with
    | Some r => r <> [] /\ forallb is_digit r = true
    | None => True
    end ->
    Forall (fun m => m <> [] /\ forallb is_digit m = true)
      (findall_spaced_digits ps cur s).
Proof.
  assert (Hrev : forall r, r <> [] /\ forallb is_digit r = true ->
                           rev r <> [] /\ forallb is_digit (rev r) = true).
  { intros r [Hne Hd]. split.
    - intros E. apply Hne. rewrite <- (rev_involutive r), E. reflexivity.
    - now rewrite forallb_rev. }
  induction s as [|c s IH]; intros ps cur Hcur; cbn [findall_spaced_digits].
  - destruct cur as [r|]; [|constructor].
    constructor; [now apply Hrev | constructor].
  - destruct cur as [r|].
    + destruct (is_digit c) eqn:Hc.
      * apply IH. destruct Hcur as [_ Hd]. split; [discriminate|].
        simpl. now rewrite Hc, Hd.
      * constructor; [now apply Hrev | now apply IH].
    + destruct (ps && is_digit c) eqn:E.
      * apply IH. apply andb_prop in E as [_ Hc]. split; [discriminate|].
        simpl. now rewrite Hc.
      * now apply IH.
Qed.

(** Behind a white-space character the scan starts afresh. *)
Lemma findall_behind_space (a : str) (ws : ascii) (rest : str) :
  re_space ws = true ->
  forall ps cur,
  exists ms,
    findall_spaced_digits ps cur (a ++ ws :: rest)
    = ms ++ findall_spaced_digits true None rest.
Proof.
  intros Hws. pose proof (space_not_digit ws Hws) as Hnd.
  induction a as [|c a IH]; intros ps cur; cbn [app findall_spaced_digits].
  - destruct cur as [r|].
    + rewrite Hnd, Hws. exists [rev r]. reflexivity.
    + rewrite Hnd, andb_false_r, Hws. exists []. reflexivity.
  - destruct cur as [r|].
    + destruct (is_digit c).
      * apply IH.
      * destruct (IH (re_space c) None) as (ms & ->).
        exists (rev r :: ms). reflexivity.
    + destruct (ps && is_digit c); apply IH.
Qed.

(** A run of digits being read is read to its end. *)
Lemma findall_run (run : str) :
  forallb is_digit run = true ->
  forall r post,
    findall_spaced_digits false (Some r) (run ++ post)
    = findall_spaced_digits false (Some (rev run ++ r)) post.
Proof.
  induction run as [|d run IH]; intros Hd r post; [reflexivity|].
  simpl in Hd. apply andb_prop in Hd as [H0 H1].
  cbn [app findall_spaced_digits]. rewrite H0, IH by exact H1.
  cbn [rev]. now rewrite <- app_assoc.
Qed.

(** The last match of a text that ends with a spaced run and a rest
    without one. *)
Lemma findall_last (pre : str) (ws : ascii) (run post : str) :
  re_space ws = true ->
  run <> [] -> forallb is_digit run = true ->
  match post with [] => True | c :: _ => is_digit c = false end ->
  ~ spaced_digit post ->
  last_of (re_findall_spaced_digits (pre ++ ws :: run ++ post)) = Ok run.
Proof.
  intros Hws Hne Hd Hpost Hno. unfold re_findall_spaced_digits.
  destruct (findall_behind_space pre ws (run ++ post) Hws false None) as (ms & ->).
  assert (E : findall_spaced_digits true None (run ++ post) = [run]).
  { destruct run as [|d run]; [congruence|].
    simpl in Hd. apply andb_prop in Hd as [H0 H1].
    cbn [app findall_spaced_digits]. rewrite H0. cbn [andb].
    rewrite findall_run by exact H1.
    destruct post as [|c post]; cbn [findall_spaced_digits].
    - rewrite rev_app_distr, rev_involutive. reflexivity.
    - rewrite Hpost, rev_app_distr, rev_involutive. cbn [rev app]. f_equal.
      apply findall_none.
      + intros Hc. destruct post as [|x post]; [exact I|].
        destruct (is_digit x) eqn:Hx; [|reflexivity].
        exfalso. apply Hno. exists [], c, x, post. auto.
      + intros (a & x & y & b & Es & Hx & Hy). apply Hno.
        exists (c :: a), x, y, b. rewrite Es. auto. }
  rewrite E. unfold last_of. rewrite rev_app_distr. reflexivity.
Qed.

Lemma last_of_in {A} (l : list A) (x : A) : last_of l = Ok x -> In x l.
Proof.
  unfold last_of. destruct (rev l) as [|y t] eqn:E; [discriminate|].
  intros H; inversion H; subst. apply in_rev. rewrite E. now left.
Qed.

Lemma last_of_nonempty {A} (l : list A) : l <> [] -> exists x, last_of l = Ok x.
Proof.
  intros H. destruct (@exists_last _ l H) as (l' & x & ->).
  exists x. unfold last_of. now rewrite rev_app_distr.
Qed.

End ResultsCount.

(** X24.  [get_results_count] stores the value of the last run of digits
    that starts right behind a white-space character: for a text that ends
    with such a run, of at most 4300 digits, and a rest without one, the
    count is the value of that run. *)
Theorem get_results_count_last_spaced_number :
  forall (self : Headers_Master.state) (pre : str) (ws : ascii) (run post : str),
    re_space ws = true ->
    run <> [] -> forallb is_digit run = true ->
    (List.length run <= int_max_str_digits)%nat ->
    match post with [] => True | c :: _ => is_digit c = false end ->
    ~ HeadersSpec.spaced_digit post ->
    Headers_Master.get_results_count self (pre ++ ws :: run ++ post)
    = Ok (Headers_Master.mkState (Headers_Master.search_url self)
            (Headers_Master.search_headers self) (Some (digits_val run))
            (Headers_Master.next_page self)).
Proof.
  intros self pre ws run post Hws Hne Hd Hlen Hpost Hno.
  unfold Headers_Master.get_results_count.
  rewrite (findall_last pre ws run post Hws Hne Hd Hpost Hno). cbn [bind].
  rewrite (int_digits run Hne Hd Hlen). reflexivity.
Qed.

Lemma get_results_count_last_spaced_number_witness :
  Headers_Master.get_results_count Headers_Master.new
    (lit "Showing results 21 - 40 of" ++ " "%char :: lit "35" ++ lit "</span>")
  = Ok (Headers_Master.mkState [] [] (Some 35%Z) false).
Proof.
  apply (get_results_count_last_spaced_number Headers_Master.new
           (lit "Showing results 21 - 40 of") " "%char (lit "35") (lit "</span>"));
    try reflexivity.
  - discriminate.
  - vm_compute. lia.
  - intros (a & c & d & b & E & Hc & Hd).
    destruct a as [|a0 [|a1 [|a2 [|a3 [|a4 [|a5 [|a6 a]]]]]]];
      inversion E; subst; try discriminate.
    destruct a; discriminate.
Defined.

(** X25.  [get_results_count] finds a number exactly when some digit of
    the text comes right behind a white-space character.  It then reads the
    last such run of digits: when the run has at most 4300 digits it stores
    its value, which is never negative, and when the run is longer [int]
    raises [ValueError].  Without such a digit -- as for a text that is a
    number alone -- it raises [IndexError]. *)
Theorem get_results_count_needs_spaced_digit :
  forall (self : Headers_Master.state) (s : str),
    (HeadersSpec.spaced_digit s ->
     exists m,
       last_of (re_findall_spaced_digits s) = Ok m
       /\ m <> [] /\ forallb is_digit m = true
       /\ (0 <= digits_val m)%Z
       /\ Headers_Master.get_results_count self s
          = if (List.length m <=? int_max_str_digits)%nat
            then Ok (Headers_Master.mkState (Headers_Master.search_url self)
                       (Headers_Master.search_headers self)
                       (Some (digits_val m))
                       (Headers_Master.next_page self))
            else Raise ValueError)
    /\ (~ HeadersSpec.spaced_digit s ->
        Headers_Master.get_results_count self s = Raise IndexError).
Proof.
  intros self s. unfold Headers_Master.get_results_count. split.
  - intros H.
    assert (Hne : re_findall_spaced_digits s <> []).
    { apply findall_some. now right. }
    destruct (last_of_nonempty _ Hne) as (m & Hm). rewrite Hm. cbn [bind].
    pose proof (findall_digits s false None I) as Hall.
    rewrite Forall_forall in Hall.
    destruct (Hall m (last_of_in _ _ Hm)) as [Hmne Hmd].
    exists m. repeat split; auto.
    + now apply digits_val_nonneg.
    + rewrite (int_run m Hmne Hmd).
      destruct (List.length m <=? int_max_str_digits)%nat; reflexivity.
  - intros H. unfold re_findall_spaced_digits.
    rewrite findall_none; [reflexivity | discriminate | exact H].
Qed.

Lemma get_results_count_needs_spaced_digit_witness :
  Headers_Master.get_results_count Headers_Master.new (lit "35")
  = Raise IndexError.
Proof.
  destruct (get_results_count_needs_spaced_digit Headers_Master.new (lit "35"))
    as [_ H].
  apply H. intros (a & c & d & b & E & Hc & Hd).
  destruct a as [|a0 [|a1 a]]; inversion E; subst; try discriminate.
  destruct a; discriminate.
Defined.

Section RouteIntercept.

Import HeadersSpec.

Lemma contains_app (p a b : str) :
  contains p a = true -> contains p (a ++ b) = true.
Proof.
  intros H. destruct (contains_true p a H) as (x & y & ->).
  destruct (contains p ((x ++ p ++ y) ++ b)) eqn:E; [reflexivity|].
  rewrite contains_false in E.
  specialize (E x (p ++ y ++ b)).
  rewrite <- !app_assoc in E. rewrite startswith_app in E.
  specialize (E eq_refl). discriminate E.
Qed.

(** No match starts in a text without the parameter and runs into a
    parameter put behind it. *)
Lemma lci_at_no_crossing (b rest : str) :
  b <> [] -> lci_at b = false ->
  lci_at (b ++ lit "&lci=" ++ rest) = false.
Proof.
  intros Hne Hb.
  assert (F : forall x y, chr_eqb x y = false -> forall r, chr_eqb x y && r = false)
    by (intros x y -> r; reflexivity).
  destruct b as [|b0 [|b1 [|b2 [|b3 [|b4 [|b5 b]]]]]]; [congruence|..];
    unfold lci_at in *;
    cbn [app lit list_ascii_of_string startswith skipn] in *.
  - rewrite (F "l"%char "&"%char eq_refl), andb_false_r. reflexivity.
  - rewrite (F "c"%char "&"%char eq_refl), !andb_false_r. reflexivity.
  - rewrite (F "i"%char "&"%char eq_refl), !andb_false_r. reflexivity.
  - rewrite (F "="%char "&"%char eq_refl), !andb_false_r. reflexivity.
  - change (is_digit "&"%char) with false. now rewrite andb_false_r.
  - exact Hb.
Qed.

(** Text without the parameter is copied. *)
Lemma sub_lci_copies (base : str) :
  forall rest,
    (forall a b, base = a ++ b -> b <> [] -> lci_at (b ++ rest) = false) ->
    sub_lci 0 false (base ++ rest) = base ++ sub_lci 0 false rest.
Proof.
  induction base as [|c base IH]; intros rest H; [reflexivity|].
  cbn [app sub_lci andb].
  pose proof (H [] (c :: base) eq_refl ltac:(discriminate)) as H0.
  cbn [app] in H0. rewrite H0. f_equal. apply IH.
  intros a b E Hb. apply (H (c :: a) b); [now rewrite E | exact Hb].
Qed.

(** The digits of a match are dropped. *)
Lemma sub_lci_digits (ds : str) :
  forallb is_digit ds = true -> sub_lci 0 true ds = [].
Proof.
  induction ds as [|d ds IH]; intros H; [reflexivity|].
  simpl in H. apply andb_prop in H as [H0 H1].
  cbn [sub_lci andb]. rewrite H0. now apply IH.
Qed.

Lemma sub_lci_parameter (ds : str) :
  ds <> [] -> forallb is_digit ds = true ->
  sub_lci 0 false (lit "&lci=" ++ ds) = [].
Proof.
  intros Hne Hd. destruct ds as [|d ds]; [congruence|].
  pose proof Hd as Hd'. simpl in Hd'. apply andb_prop in Hd' as [H0 H1].
  cbn [lit list_ascii_of_string app sub_lci andb].
  assert (L : lci_at ("&"%char :: "l"%char :: "c"%char :: "i"%char :: "="%char
                      :: d :: ds) = true).
  { unfold lci_at. cbn [lit list_ascii_of_string startswith skipn].
    rewrite H0. reflexivity. }
  rewrite L, H0. now apply sub_lci_digits.
Qed.

Lemma re_sub_lci_offset (base ds : str) :
  lci_free base -> ds <> [] -> forallb is_digit ds = true ->
  re_sub_lci (base ++ lit "&lci=" ++ ds) = base
  /\ re_sub_lci base = base.
Proof.
  intros Hfree Hne Hd. unfold re_sub_lci. split.
  - rewrite sub_lci_copies.
    + rewrite sub_lci_parameter by assumption. apply app_nil_r.
    + intros a b E Hb. apply lci_at_no_crossing; [exact Hb|].
      now apply (Hfree a b).
  - rewrite <- (app_nil_r base) at 1. rewrite sub_lci_copies.
    + apply app_nil_r.
    + intros a b E Hb. rewrite app_nil_r. now apply (Hfree a b).
Qed.

Lemma has_key_filter (k : str) (d : headers) :
  Headers_Master.has_key k
    (filter (fun kv => negb (str_eqb (fst kv) k)) d) = false.
Proof.
  unfold Headers_Master.has_key.
  induction d as [|[k' v] d IH]; [reflexivity|].
  cbn [filter fst]. destruct (str_eqb k' k) eqn:E; cbn [negb]; [exact IH|].
  cbn [existsb fst]. now rewrite E.
Qed.

Lemma filter_no_key (k : str) (d : headers) :
  Headers_Master.has_key k d = false ->
  filter (fun kv => negb (str_eqb (fst kv) k)) d = d.
Proof.
  unfold Headers_Master.has_key.
  induction d as [|[k' v] d IH]; [reflexivity|].
  cbn [existsb filter fst]. intros H. apply orb_false_iff in H as [H0 H1].
  rewrite H0. cbn [negb]. now rewrite IH.
Qed.

(** The headers stored for a request to the API: those of the request
    without the cookie. *)
Lemma route_intercept_headers (self : Headers_Master.state) (url : str)
    (all_headers : headers) :
  contains Headers_Master.API url = true ->
  Headers_Master.search_headers
    (Headers_Master.route_intercept self url all_headers)
  = filter (fun kv => negb (str_eqb (fst kv) (lit "cookie"))) all_headers.
Proof.
  intros H. unfold Headers_Master.route_intercept, Headers_Master.delitem.
  rewrite H.
  destruct (Headers_Master.has_key (lit "cookie") all_headers) eqn:E;
    cbn [Headers_Master.search_headers]; [reflexivity|].
  symmetry. now apply filter_no_key.
Qed.

End RouteIntercept.

(** X26.  A request to the API whose URL is a text without offset
    parameter followed by [&lci=] and digits -- the URL [p_handler] builds for
    a page -- has that text stored as the search URL, and so has a request to
    the text itself: the offset never gets into the stored URL. *)
Theorem route_intercept_drops_offset :
  forall (self : Headers_Master.state) (base ds : str) (all_headers : headers),
    contains Headers_Master.API base = true ->
    HeadersSpec.lci_free base ->
    ds <> [] -> forallb is_digit ds = true ->
    Headers_Master.search_url
      (Headers_Master.route_intercept self (base ++ lit "&lci=" ++ ds) all_headers)
    = base
    /\ Headers_Master.search_url
         (Headers_Master.route_intercept self base all_headers)
       = base.
Proof.
  intros self base ds all_headers Hapi Hfree Hne Hd.
  destruct (re_sub_lci_offset base ds Hfree Hne Hd) as [E1 E2].
  unfold Headers_Master.route_intercept.
  rewrite (contains_app _ _ (lit "&lci=" ++ ds) Hapi), Hapi.
  cbn [Headers_Master.search_url]. split; assumption.
Qed.

Lemma route_intercept_drops_offset_witness :
  Headers_Master.search_url
    (Headers_Master.route_intercept Headers_Master.new
       (lit "https://www.google.com/localservices/prolist?q=x" ++ lit "&lci=" ++ lit "40")
       [])
  = lit "https://www.google.com/localservices/prolist?q=x".
Proof.
  refine (proj1 (route_intercept_drops_offset Headers_Master.new
                   (lit "https://www.google.com/localservices/prolist?q=x")
                   (lit "40") [] _ _ _ _)).
  - vm_compute. reflexivity.
  - intros a b E.
    assert (H : contains (lit "&lci=")
                  (lit "https://www.google.com/localservices/prolist?q=x") = false)
      by (vm_compute; reflexivity).
    rewrite contains_false in H. unfold lci_at. now rewrite (H a b E).
  - discriminate.
  - vm_compute. reflexivity.
Defined.

(** X27.  A request to another address leaves the object as it is.  For a
    request to the API the stored headers are those of the request without
    the cookie: no [cookie] key is left, every other header is kept with its
    value, and the result count and the page flag are untouched. *)
Theorem route_intercept_stores_headers_without_cookie :
  forall (self : Headers_Master.state) (url : str) (all_headers : headers),
    (contains Headers_Master.API url = false ->
     Headers_Master.route_intercept self url all_headers = self)
    /\ (contains Headers_Master.API url = true ->
        let st := Headers_Master.route_intercept self url all_headers in
        Headers_Master.has_key (lit "cookie") (Headers_Master.search_headers st)
        = false
        /\ (forall k v, k <> lit "cookie" ->
              (In (k, v) (Headers_Master.search_headers st)
               <-> In (k, v) all_headers))
        /\ Headers_Master.results_count st = Headers_Master.results_count self
        /\ Headers_Master.next_page st = Headers_Master.next_page self).
Proof.
  intros self url all_headers. split.
  - intros H. unfold Headers_Master.route_intercept. now rewrite H.
  - intros H st. subst st. rewrite (route_intercept_headers self url all_headers H).
    split; [apply has_key_filter|]. split.
    + intros k v Hk. rewrite filter_In. cbn [fst]. split; [tauto|].
      intros Hin. split; [exact Hin|]. apply negb_true_iff.
      destruct (str_eqb k (lit "cookie")) eqn:E; [|reflexivity].
      apply str_eqb_eq in E. contradiction.
    + unfold Headers_Master.route_intercept. rewrite H. split; reflexivity.
Qed.

Lemma route_intercept_stores_headers_without_cookie_witness :
  Headers_Master.has_key (lit "cookie")
    (Headers_Master.search_headers
       (Headers_Master.route_intercept Headers_Master.new
          (lit "https://www.google.com/localservices/prolist?q=x")
          [(lit "accept", lit "*/*"); (lit "cookie", lit "NID=1")]))
  = false.
Proof.
  destruct (route_intercept_stores_headers_without_cookie Headers_Master.new
              (lit "https://www.google.com/localservices/prolist?q=x")
              [(lit "accept", lit "*/*"); (lit "cookie", lit "NID=1")])
    as [_ H].
  apply (H eq_refl).
Defined.

Section SubjectLocation.

Lemma in_not_empty : lit " in " <> [].
Proof. discriminate. Qed.

(** No [" in "] starts in the subject when none lies in the subject
    followed by [" in"]. *)
Lemma no_early_in (subject rest : str) :
  contains (lit " in ") (subject ++ lit " in") = false ->
  forall a1 a2, subject = a1 ++ a2 -> a2 <> [] ->
    startswith (lit " in ") (a2 ++ lit " in " ++ rest) = false.
Proof.
  intros H a1 a2 E Hne. rewrite contains_false in H.
  specialize (H a1 (a2 ++ lit " in")). rewrite E, <- app_assoc in H.
  specialize (H eq_refl).
  assert (F : forall x y, chr_eqb x y = false -> forall r, chr_eqb x y && r = false)
    by (intros x y -> r; reflexivity).
  destruct a2 as [|c0 [|c1 [|c2 [|c3 a2]]]]; [congruence|..];
    cbn [app lit list_ascii_of_string startswith] in *.
  - rewrite (F "i"%char " "%char eq_refl), andb_false_r. reflexivity.
  - rewrite (F "n"%char " "%char eq_refl), !andb_false_r. reflexivity.
  - exact H.
  - exact H.
Qed.

(** The subject, and the location up to its first [" in "]. *)
Lemma extract_pieces (subject rest : str) :
  contains (lit " in ") (subject ++ lit " in") = false ->
  exists tail,
    split (lit " in ") (subject ++ lit " in " ++ rest)
    = Ok (subject :: split_scan (lit " in ") 0 [] rest)
    /\ split_scan (lit " in ") 0 [] rest = tail.
Proof.
  intros H. eexists. split; [|reflexivity].
  change (split (lit " in ") (subject ++ lit " in " ++ rest))
    with (Ok (split_scan (lit " in ") 0 [] (subject ++ lit " in " ++ rest))).
  rewrite (split_scan_first (lit " in ") subject rest in_not_empty []).
  - reflexivity.
  - now apply no_early_in.
Qed.

End SubjectLocation.

(** X28.  [extract_subject_and_location] cuts the search text at
    [" in "]: a text without it raises [IndexError]; for a subject with no
    [" in "] before the separator, the subject comes back, and the location
    comes back whole when it holds no [" in "] and cut at its first [" in "]
    when it holds one. *)
Theorem extract_subject_and_location_cuts_at_in :
  forall (raw : str),
    (contains (lit " in ") raw = false ->
     Get_Headers_Subject.extract_subject_and_location raw = Raise IndexError)
    /\ (forall subject location,
          raw = subject ++ lit " in " ++ location ->
          contains (lit " in ") (subject ++ lit " in") = false ->
          contains (lit " in ") location = false ->
          Get_Headers_Subject.extract_subject_and_location raw
          = Ok (subject, location))
    /\ (forall subject location more,
          raw = subject ++ lit " in " ++ location ++ lit " in " ++ more ->
          contains (lit " in ") (subject ++ lit " in") = false ->
          contains (lit " in ") (location ++ lit " in") = false ->
          Get_Headers_Subject.extract_subject_and_location raw
          = Ok (subject, location)).
Proof.
  intros raw. unfold Get_Headers_Subject.extract_subject_and_location.
  split; [|split].
  - intros H.
    change (split (lit " in ") raw) with (Ok (split_scan (lit " in ") 0 [] raw)).
    rewrite (split_scan_none (lit " in ") raw [] H). reflexivity.
  - intros subject location -> Hs Hl.
    destruct (extract_pieces subject location Hs) as (tail & -> & _).
    rewrite (split_scan_none (lit " in ") location [] Hl). reflexivity.
  - intros subject location more -> Hs Hl.
    destruct (extract_pieces subject (location ++ lit " in " ++ more) Hs)
      as (tail & -> & _).
    rewrite (split_scan_first (lit " in ") location more in_not_empty []).
    + reflexivity.
    + now apply no_early_in.
Qed.

Lemma extract_subject_and_location_cuts_at_in_witness :
  Get_Headers_Subject.extract_subject_and_location
    (lit "dentist" ++ lit " in " ++ lit "Austin, TX")
  = Ok (lit "dentist", lit "Austin, TX").
Proof.
  destruct (extract_subject_and_location_cuts_at_in
              (lit "dentist" ++ lit " in " ++ lit "Austin, TX")) as (_ & H & _).
  apply (H (lit "dentist") (lit "Austin, TX")); reflexivity.
Defined.


